(** * The RPC bridge of the embed popup

    Outbound send with retry, lookup of the agent peer, the handler of the
    inbound click call, and the JSON codec of the payloads.

    Embedded sources:
    - [components/embed-popup/agent-client.tsx]: [sendData];
    - [components/embed-popup/rpc/rpc-client.ts]: [findAgent],
      [sendDomElements], [callAgentAction];
    - the module of the inbound handlers: [registerClientRpcHandlers].

    An asynchronous function is an interaction tree over the events of its
    host (the LiveKit room, the timers, the console, the document): [await]
    is sequencing, a rejected promise is a [Throw] completion, and the tail
    call by which [sendData] retries is the loop of [ITree.iter].  A run
    against a world, bounded by fuel, gives the observations made and the
    result, if the function finished. *)

From Stdlib Require Import ZArith NArith List String Ascii Bool Lia.
From Stdlib Require Import DecimalString.
From Stdlib Require DecimalFacts DecimalPos DecimalZ.
From Stdlib Require Import Floats.SpecFloat.
From Stdlib Require Import Morphisms Setoid.
From ITree Require Import ITree ITreeFacts.
Import ListNotations.
Import ITreeNotations.

Set Warnings "-register-all".

Local Open Scope string_scope.
Local Open Scope Z_scope.
Local Open Scope itree_scope.

(** ** JavaScript values and completions *)

(** An [Error] object: its [name] (the constructor that made it) and its
    [message]. *)
Record JsError : Type := mkError { name : string; message : string }.

(** [new Error(msg)] *)
Definition Error (msg : string) : JsError := mkError "Error" msg.

(** Outcome of evaluating a block or of settling a promise: normal
    completion (resolved) or abrupt completion by [throw] (rejected). *)
Inductive Completion (A : Type) : Type :=
| Normal (a : A)
| Throw (e : JsError).
Arguments Normal {A} a.
Arguments Throw {A} e.

(** ** The host (livekit-client room, timers, console, document) as seen by
       this code *)

(** [Participant]: the two getters the code reads. *)
Record Participant : Type := mkParticipant { identity : string; isAgent : bool }.

(** Argument object of [localParticipant.performRpc]. *)
Record PerformRpcParams : Type := mkRpc {
  destinationIdentity : string;
  method : string;
  payload : string
}.

(** One argument of a [console] call. *)
Inductive LogArg : Type :=
| LogStr (s : string)
| LogNum (n : Z)
| LogErr (e : JsError).

Inductive LogLevel : Type := LevelLog | LevelWarn | LevelError.

(** An element of the document, named by the position of its node. *)
Inductive HTMLElement : Type := element (node : nat).

(** What an asynchronous function may ask of its host:
    - [RoomState]: read [room.state];
    - [RemoteParticipants]: [Array.from(room.remoteParticipants.values())],
      the peers in the order of the map;
    - [PerformRpc p]: [await room.localParticipant.performRpc(p)], answered
      by the resolved string or by the rejection;
    - [SetTimeout ms]: [await new Promise((resolve) => setTimeout(resolve, ms))];
    - [Console l args]: [console.log], [console.warn], [console.error];
    - [QuerySelector sel]: [document.querySelector(sel)], which throws on a
      selector it cannot parse and answers [None] for [null];
    - [Click el]: [el.click()]. *)
Variant hostE : Type -> Type :=
| RoomState : hostE string
| RemoteParticipants : hostE (list Participant)
| PerformRpc (p : PerformRpcParams) : hostE (Completion string)
| SetTimeout (ms : Z) : hostE unit
| Console (l : LogLevel) (args : list LogArg) : hostE unit
| QuerySelector (selector : string) : hostE (Completion (option HTMLElement))
| Click (el : HTMLElement) : hostE unit.

(** [try { body } catch (error) { handler }] *)
Definition try_catch {E : Type -> Type} {A : Type}
    (body : itree E (Completion A)) (handler : JsError -> itree E (Completion A))
  : itree E (Completion A) :=
  c <- body;;
  match c with
  | Normal a => Ret (Normal a)
  | Throw error => handler error
  end.

(** The rest of a block after a step that may throw: [k] runs on the value
    of a normal completion, a throw leaves the block. *)
Definition and_then {E : Type -> Type} {A B : Type}
    (c : Completion A) (k : A -> itree E (Completion B)) : itree E (Completion B) :=
  match c with
  | Normal a => k a
  | Throw error => Ret (Throw error)
  end.

(** [Array.prototype.find]: the first element satisfying the predicate,
    [None] standing for [undefined]. *)
Fixpoint Array_find {A : Type} (pred : A -> bool) (arr : list A) : option A :=
  match arr with
  | [] => None
  | x :: rest => if pred x then Some x else Array_find pred rest
  end.

(** ** Numbers

    A Number of the language is an IEEE 754 double: a term of [spec_float]
    of the Standard Library whose mantissa and exponent are in the range of
    precision 53 and exponent bound 1024, [S754_finite s m e] being
    [(-1)^s * m * 2^e].  The conversions between Numbers and decimal texts
    belong to the JavaScript runtime and are modelled after ECMA-262: the
    Number value of a decimal literal (rounded to nearest, ties to even) and
    Number::toString (the fewest digits that denote the Number). *)

Module Number.

Definition prec : Z := 53.
Definition emax : Z := 1024.

(** The doubles among the terms of [spec_float]. *)
Definition is_double (x : spec_float) : bool := valid_binary prec emax x.

(** Neither an infinity nor NaN. *)
Definition is_finite (x : spec_float) : bool :=
  match x with
  | S754_zero _ | S754_finite _ _ _ => true
  | S754_infinity _ | S754_nan => false
  end.

(** [-0] becomes [+0], every other Number is kept. *)
Definition unsigned_zero (x : spec_float) : spec_float :=
  match x with
  | S754_zero _ => S754_zero false
  | _ => x
  end.

(** The same Number, the two zeros being told apart (SameValue). *)
Definition same_value (a b : spec_float) : bool :=
  match a, b with
  | S754_zero s, S754_zero t => Bool.eqb s t
  | S754_infinity s, S754_infinity t => Bool.eqb s t
  | S754_nan, S754_nan => true
  | S754_finite s m e, S754_finite t n f => Bool.eqb s t && (m =? n)%positive && (e =? f)
  | _, _ => false
  end.

(** The Number value for the ratio [N / D] of a natural number and a
    positive one, with the given sign.  Every double is a multiple of
    [2^-1074]: the ratio is taken in units of [2^-1075] ([T], [sticky]
    telling whether anything was cut off), then cut to 53 significant bits
    and no further than the unit [2^-1074] ([sh] bits are dropped) and
    rounded to nearest, ties to even.  A result beyond the largest double is
    an infinity. *)
Definition round_ratio (negative : bool) (N D : Z) : spec_float :=
  let scaled := N * 2 ^ 1075 in
  let T := scaled / D in
  let sticky := negb (scaled mod D =? 0) in
  let sh := Z.max (Z.log2 T - 52) 1 in
  let q := T / 2 ^ sh in
  let r := T mod 2 ^ sh in
  let half := 2 ^ (sh - 1) in
  let up := (half <? r) || ((r =? half) && (sticky || Z.odd q)) in
  let m := if up then q + 1 else q in
  let e := sh - 1075 in
  let '(m, e) := if m =? 2 ^ 53 then (2 ^ 52, e + 1) else (m, e) in
  if m =? 0 then S754_zero negative
  else if 971 <? e then S754_infinity negative
  else S754_finite negative (Z.to_pos m) e.

(** The Number value for [M * 10^E], [M] a natural number. *)
Definition of_decimal (negative : bool) (M E : Z) : spec_float :=
  if 0 <=? E then round_ratio negative (M * 10 ^ E) 1
  else round_ratio negative M (10 ^ (- E)).

(** The Number value for an integer. *)
Definition of_Z (n : Z) : spec_float := of_decimal (n <? 0) (Z.abs n) 0.

(** The decimal digits of a natural number. *)
Definition digits (n : Z) : string :=
  DecimalString.NilEmpty.string_of_int (Z.to_int n).

(** The positive double [m * 2^e] written exactly as [X * 10^(-P)]. *)
Definition exact_decimal (m : positive) (e : Z) : Z * Z :=
  if 0 <=? e then (Z.pos m * 2 ^ e, 0) else (Z.pos m * 5 ^ (- e), - e).

(** Number::toString looks for integers [n], [k], [s] with [k] as small as
    possible such that [s] has [k] digits and [s * 10^(n-k)] denotes [x].
    With [X * 10^(-P)] the exact value of [x] and [nd] the number of digits
    of [X], the [k]-digit decimals next to [x] are the first [k] digits of
    [X] and that number plus one; a decimal is given as [(s, p)], standing
    for [s * 10^p]. *)
Section Shortest.

Variable x : spec_float.
Variables X P nd : Z.

Definition candidate_low (k : Z) : Z * Z := (X / 10 ^ (nd - k), nd - k - P).

Definition candidate_high (k : Z) : Z * Z :=
  let hi := X / 10 ^ (nd - k) + 1 in
  if hi =? 10 ^ k then (10 ^ (k - 1), nd - k - P + 1) else (hi, nd - k - P).

(** The decimal denotes [x]. *)
Definition yields (c : Z * Z) : bool :=
  same_value (of_decimal false (fst c) (snd c)) x.

(** Of the two candidates the one closer to [x], the even one when they
    are as close. *)
Definition closest (k : Z) : Z * Z :=
  let unit := 10 ^ (nd - k) in
  let lo := X / unit in
  match (X - lo * unit) ?= ((lo + 1) * unit - X) with
  | Lt => candidate_low k
  | Gt => candidate_high k
  | Eq => if Z.even lo then candidate_low k else candidate_high k
  end.

(** The search, from [k] digits upwards; all the digits of [X] denote [x]
    exactly. *)
Fixpoint shortest_from (fuel : nat) (k : Z) : Z * Z :=
  match fuel with
  | O => (X, - P)
  | S fuel' =>
      match yields (candidate_low k), yields (candidate_high k) with
      | true, true => closest k
      | true, false => candidate_low k
      | false, true => candidate_high k
      | false, false => shortest_from fuel' (k + 1)
      end
  end.

End Shortest.

Definition shortest (m : positive) (e : Z) : Z * Z :=
  let '(X, P) := exact_decimal m e in
  let nd := Z.of_nat (String.length (digits X)) in
  shortest_from (S754_finite false m e) X P nd (Z.to_nat (nd - 1)) 1.

Fixpoint zeros (n : nat) : string :=
  match n with
  | O => ""
  | S n' => String "0" (zeros n')
  end.

(** The first [n] characters of a string, and the others. *)
Fixpoint take (n : nat) (s : string) : string :=
  match n, s with
  | S n', String c rest => String c (take n' rest)
  | _, _ => ""
  end.

Fixpoint drop (n : nat) (s : string) : string :=
  match n, s with
  | S n', String _ rest => drop n' rest
  | _, _ => s
  end.

(** The text of the positive decimal [s * 10^p] (steps 6 to 11 of
    Number::toString): plain digits when the decimal point falls within 21
    digits and at most 6 zeros follow it, otherwise with an exponent. *)
Definition format_decimal (c : Z * Z) : string :=
  let ds := digits (fst c) in
  let k := Z.of_nat (String.length ds) in
  let n := snd c + k in
  if (k <=? n) && (n <=? 21) then ds ++ zeros (Z.to_nat (n - k))
  else if (0 <? n) && (n <=? 21) then
    take (Z.to_nat n) ds ++ "." ++ drop (Z.to_nat n) ds
  else if (-6 <? n) && (n <=? 0) then "0." ++ zeros (Z.to_nat (- n)) ++ ds
  else
    (if k =? 1 then ds else take 1 ds ++ "." ++ drop 1 ds)
    ++ "e" ++ (if n - 1 <? 0 then "-" else "+") ++ digits (Z.abs (n - 1)).

(** Number::toString(x), radix 10. *)
Definition toString (x : spec_float) : string :=
  match x with
  | S754_nan => "NaN"
  | S754_zero _ => "0"
  | S754_infinity negative => if negative then "-Infinity" else "Infinity"
  | S754_finite negative m e =>
      (if negative then "-" else "") ++ format_decimal (shortest m e)
  end.

End Number.

(** ** JSON values and the built-in codec

    [JSON.stringify] and [JSON.parse] belong to the JavaScript runtime, not
    to this repository; they are modelled after ECMA-262 (sections
    JSON.stringify, QuoteJSONString, JSON.parse).  A string is the sequence
    of the bytes of its text in UTF-8, a surrogate code unit that has no
    partner standing as the three bytes of its own code.  An object is the
    list of its properties in the order in which the language enumerates
    them: the array indices in ascending order, then the other keys in the
    order of their creation. *)

Inductive JsValue : Type :=
| JNull
| JBool (b : bool)
| JNumber (x : spec_float)
| JString (s : string)
| JArray (elems : list JsValue)
| JObject (props : list (string * JsValue)).

Module JSON.

(** Lower-case hexadecimal digit of a value below 16. *)
Definition hex_digit (n : nat) : ascii :=
  match n with
  | 0 => "0" | 1 => "1" | 2 => "2" | 3 => "3" | 4 => "4" | 5 => "5"
  | 6 => "6" | 7 => "7" | 8 => "8" | 9 => "9" | 10 => "a" | 11 => "b"
  | 12 => "c" | 13 => "d" | 14 => "e" | _ => "f"
  end%char%nat.

(** One character of QuoteJSONString: the two-character escapes, [\u00xx]
    for the other control characters, the character itself otherwise. *)
Definition quote_char (c : ascii) : string :=
  let n := nat_of_ascii c in
  if (n =? 8)%nat then "\b"
  else if (n =? 9)%nat then "\t"
  else if (n =? 10)%nat then "\n"
  else if (n =? 12)%nat then "\f"
  else if (n =? 13)%nat then "\r"
  else if (n =? 34)%nat then String "\" (String (ascii_of_nat 34) "")
  else if (n =? 92)%nat then "\\"
  else if (n <? 32)%nat then
    "\u00" ++ String (hex_digit (n / 16)) (String (hex_digit (n mod 16)) "")
  else String c "".

(** Leading surrogates (D800 to DBFF) and trailing surrogates (DC00 to
    DFFF). *)
Definition is_high_surrogate (unit : N) : bool :=
  ((55296 <=? unit) && (unit <=? 56319))%N.

Definition is_low_surrogate (unit : N) : bool :=
  ((56320 <=? unit) && (unit <=? 57343))%N.

(** The surrogate code unit that three bytes stand for, if they do: ED,
    then A0 to BF, then 80 to BF. *)
Definition surrogate_unit (c1 c2 c3 : ascii) : option N :=
  let n2 := N_of_ascii c2 in
  let n3 := N_of_ascii c3 in
  if ((N_of_ascii c1 =? 237) && (160 <=? n2) && (n2 <=? 191)
      && (128 <=? n3) && (n3 <=? 191))%N
  then Some (53248 + (n2 - 128) * 64 + (n3 - 128))%N
  else None.

(** UnicodeEscape of a code unit: [\u] and four hexadecimal digits. *)
Definition unicode_escape (unit : N) : string :=
  "\u" ++ String (hex_digit (N.to_nat (unit / 4096)))
            (String (hex_digit (N.to_nat ((unit / 256) mod 16)))
               (String (hex_digit (N.to_nat ((unit / 16) mod 16)))
                  (String (hex_digit (N.to_nat (unit mod 16))) ""))).

(** The characters of QuoteJSONString between the quotes.  The code points
    of the string are taken in turn: a surrogate without partner is
    escaped, a leading surrogate followed by a trailing one is a code point
    of its own and is copied. *)
Fixpoint quote_chars (s : string) : string :=
  match s with
  | EmptyString => ""
  | String c1 rest1 =>
      match rest1 with
      | String c2 (String c3 rest3) =>
          match surrogate_unit c1 c2 c3 with
          | Some unit =>
              match rest3 with
              | String c4 (String c5 (String c6 rest6)) =>
                  match surrogate_unit c4 c5 c6 with
                  | Some unit' =>
                      if is_high_surrogate unit && is_low_surrogate unit' then
                        String c1 (String c2 (String c3
                          (String c4 (String c5 (String c6 (quote_chars rest6))))))
                      else unicode_escape unit ++ quote_chars rest3
                  | None => unicode_escape unit ++ quote_chars rest3
                  end
              | _ => unicode_escape unit ++ quote_chars rest3
              end
          | None => quote_char c1 ++ quote_chars rest1
          end
      | _ => quote_char c1 ++ quote_chars rest1
      end
  end.

(** The double quote (code 34). *)
Definition dquote : ascii := Ascii false true false false false true false false.

(** QuoteJSONString *)
Definition quote (s : string) : string :=
  String dquote (quote_chars s ++ String dquote "").

(** Number::toString on the Number value of an integer. *)
Definition number_to_string (n : Z) : string := Number.toString (Number.of_Z n).

(** Joins already serialized items with commas. *)
Fixpoint join_comma (items : list string) : string :=
  match items with
  | [] => ""
  | [x] => x
  | x :: rest => x ++ "," ++ join_comma rest
  end.

(** [JSON.stringify(v)] without replacer or indentation; a Number that is
    not finite is serialized as [null]. *)
Fixpoint stringify (v : JsValue) : string :=
  match v with
  | JNull => "null"
  | JBool true => "true"
  | JBool false => "false"
  | JNumber x => if Number.is_finite x then Number.toString x else "null"
  | JString s => quote s
  | JArray elems => "[" ++ join_comma (List.map stringify elems) ++ "]"
  | JObject props =>
      "{" ++ join_comma (List.map (fun kv => quote (fst kv) ++ ":" ++ stringify (snd kv)) props) ++ "}"
  end.

(** *** JSON.parse *)

(** [SyntaxError] of [JSON.parse]; the message text is engine-defined, one
    fixed text stands for it. *)
Definition SyntaxError : JsError :=
  mkError "SyntaxError" "Unexpected token in JSON".

(** JSON white space: tab, line feed, carriage return, space. *)
Definition is_ws (c : ascii) : bool :=
  let n := nat_of_ascii c in
  ((n =? 9) || (n =? 10) || (n =? 13) || (n =? 32))%nat.

Fixpoint skip_ws (s : string) : string :=
  match s with
  | String c rest => if is_ws c then skip_ws rest else s
  | EmptyString => s
  end.

(** Value of a hexadecimal digit, either case. *)
Definition hex_value (c : ascii) : option nat :=
  let n := nat_of_ascii c in
  if ((48 <=? n) && (n <=? 57))%nat then Some (n - 48)%nat
  else if ((97 <=? n) && (n <=? 102))%nat then Some (n - 87)%nat
  else if ((65 <=? n) && (n <=? 70))%nat then Some (n - 55)%nat
  else None.

(** The code unit that four hexadecimal digits name. *)
Definition hex4_value (h1 h2 h3 h4 : ascii) : option N :=
  match hex_value h1, hex_value h2, hex_value h3, hex_value h4 with
  | Some d1, Some d2, Some d3, Some d4 =>
      Some (((N.of_nat d1 * 16 + N.of_nat d2) * 16 + N.of_nat d3) * 16 + N.of_nat d4)%N
  | _, _, _, _ => None
  end.

(** The bytes of a code point in UTF-8 (a surrogate code unit is encoded
    as any other code below 65536). *)
Definition utf8_encode (n : N) : string :=
  (if n <? 128 then String (ascii_of_N n) ""
   else if n <? 2048 then
     String (ascii_of_N (192 + n / 64)) (String (ascii_of_N (128 + n mod 64)) "")
   else if n <? 65536 then
     String (ascii_of_N (224 + n / 4096))
       (String (ascii_of_N (128 + (n / 64) mod 64))
          (String (ascii_of_N (128 + n mod 64)) ""))
   else
     String (ascii_of_N (240 + n / 262144))
       (String (ascii_of_N (128 + (n / 4096) mod 64))
          (String (ascii_of_N (128 + (n / 64) mod 64))
             (String (ascii_of_N (128 + n mod 64)) ""))))%N.

(** The code point of a surrogate pair. *)
Definition code_point (high low : N) : N :=
  (65536 + (high - 55296) * 1024 + (low - 56320))%N.

(** The character named by a two-character escape. *)
Definition unescape (c : ascii) : option ascii :=
  let n := nat_of_ascii c in
  if (n =? 34)%nat then Some dquote
  else if (n =? 92)%nat then Some "\"%char
  else if (n =? 47)%nat then Some "/"%char
  else if (n =? 98)%nat then Some (ascii_of_nat 8)
  else if (n =? 102)%nat then Some (ascii_of_nat 12)
  else if (n =? 110)%nat then Some (ascii_of_nat 10)
  else if (n =? 114)%nat then Some (ascii_of_nat 13)
  else if (n =? 116)%nat then Some (ascii_of_nat 9)
  else None.

(** The bytes decoded so far in front of the rest of a string literal. *)
Definition prepend (bytes : string) (r : option (string * string)) : option (string * string) :=
  match r with
  | Some (str, rest) => Some (bytes ++ str, rest)
  | None => None
  end.

(** The trailing surrogate named by six characters, if they are the
    [\uXXXX] escape of one. *)
Definition low_surrogate_escape (b u h1 h2 h3 h4 : ascii) : option N :=
  if ((b =? "\") && (u =? "u"))%char then
    match hex4_value h1 h2 h3 h4 with
    | Some unit => if is_low_surrogate unit then Some unit else None
    | None => None
    end
  else None.

(** The characters of a string literal after its opening quote, up to and
    including the closing quote: the decoded string and the input left.
    Unescaped control characters are refused.  The escape of a leading
    surrogate followed at once by the escape of a trailing one names one
    code point. *)
Fixpoint parse_chars (s : string) : option (string * string) :=
  match s with
  | EmptyString => None
  | String c rest =>
      if (c =? dquote)%char then Some ("", rest)
      else if (c =? "\")%char then
        match rest with
        | String e rest1 =>
            if (e =? "u")%char then
              match rest1 with
              | String h1 (String h2 (String h3 (String h4 rest2))) =>
                  match hex4_value h1 h2 h3 h4 with
                  | Some unit =>
                      if is_high_surrogate unit then
                        match rest2 with
                        | String b (String u (String g1 (String g2 (String g3 (String g4 rest3))))) =>
                            match low_surrogate_escape b u g1 g2 g3 g4 with
                            | Some low =>
                                prepend (utf8_encode (code_point unit low)) (parse_chars rest3)
                            | None => prepend (utf8_encode unit) (parse_chars rest2)
                            end
                        | _ => prepend (utf8_encode unit) (parse_chars rest2)
                        end
                      else prepend (utf8_encode unit) (parse_chars rest2)
                  | None => None
                  end
              | _ => None
              end
            else
              match unescape e with
              | Some ch => prepend (String ch "") (parse_chars rest1)
              | None => None
              end
        | EmptyString => None
        end
      else if (nat_of_ascii c <? 32)%nat then None
      else prepend (String c "") (parse_chars rest)
  end.

(** Decimal digits. *)
Definition is_digit (c : ascii) : bool :=
  ((48 <=? nat_of_ascii c) && (nat_of_ascii c <=? 57))%nat.

Definition digit_value (c : ascii) : Z := Z.of_nat (nat_of_ascii c - 48).

(** The number a text of digits denotes, after the digits already read. *)
Fixpoint digits_value_from (acc : Z) (ds : string) : Z :=
  match ds with
  | EmptyString => acc
  | String c rest => digits_value_from (10 * acc + digit_value c) rest
  end.

Definition digits_value (ds : string) : Z := digits_value_from 0 ds.

(** The longest prefix of digits and the input after it. *)
Fixpoint read_digits (s : string) : string * string :=
  match s with
  | EmptyString => ("", s)
  | String c rest =>
      if is_digit c then let '(ds, rest1) := read_digits rest in (String c ds, rest1)
      else ("", s)
  end.

(** The integer part of a number literal: at least one digit, and no
    leading zero before another digit. *)
Definition read_integer (s : string) : option (string * string) :=
  let '(ds, rest) := read_digits s in
  match ds with
  | EmptyString => None
  | String c EmptyString => Some (ds, rest)
  | String c (String _ _) => if (c =? "0")%char then None else Some (ds, rest)
  end.

(** The optional fraction: a point and at least one digit. *)
Definition read_fraction (s : string) : option (string * string) :=
  match s with
  | String c rest =>
      if (c =? ".")%char then
        let '(ds, rest1) := read_digits rest in
        match ds with
        | EmptyString => None
        | String _ _ => Some (ds, rest1)
        end
      else Some ("", s)
  | EmptyString => Some ("", s)
  end.

(** The optional exponent: [e] or [E], an optional sign and at least one
    digit. *)
Definition read_exponent (s : string) : option (Z * string) :=
  match s with
  | String c rest =>
      if ((c =? "e") || (c =? "E"))%char then
        let '(negative, rest1) :=
          match rest with
          | String sign rest' =>
              if (sign =? "-")%char then (true, rest')
              else if (sign =? "+")%char then (false, rest')
              else (false, rest)
          | EmptyString => (false, rest)
          end in
        let '(ds, rest2) := read_digits rest1 in
        match ds with
        | EmptyString => None
        | String _ _ => Some (if negative then - digits_value ds else digits_value ds, rest2)
        end
      else Some (0, s)
  | EmptyString => Some (0, s)
  end.

(** A number literal after its sign: the Number value of the decimal it
    writes, the integer part and the fraction giving the digits and the
    length of the fraction lowering the exponent. *)
Definition parse_unsigned (negative : bool) (s : string) : option (spec_float * string) :=
  match read_integer s with
  | Some (int, s1) =>
      match read_fraction s1 with
      | Some (frac, s2) =>
          match read_exponent s2 with
          | Some (ex, s3) =>
              Some (Number.of_decimal negative (digits_value (int ++ frac))
                      (ex - Z.of_nat (String.length frac)),
                    s3)
          | None => None
          end
      | None => None
      end
  | None => None
  end.

(** A number literal, with its optional minus sign. *)
Definition parse_number (s : string) : option (spec_float * string) :=
  match s with
  | String c rest =>
      if (c =? "-")%char then parse_unsigned true rest else parse_unsigned false s
  | EmptyString => None
  end.

(** [s] without its prefix [p], if it starts with [p]. *)
Fixpoint strip_prefix (p s : string) : option string :=
  match p, s with
  | EmptyString, _ => Some s
  | String a p', String b s' => if (a =? b)%char then strip_prefix p' s' else None
  | String _ _, EmptyString => None
  end.

(** The array index a key is, if it is one: the decimal text, without
    leading zero, of an integer below [2^32 - 1]. *)
Definition array_index (key : string) : option Z :=
  match read_integer key with
  | Some (ds, EmptyString) =>
      if digits_value ds <? 2 ^ 32 - 1 then Some (digits_value ds) else None
  | _ => None
  end.

(** [key] is enumerated before [k]: an array index comes before a greater
    index and before every key that is not an index. *)
Definition precedes (key k : string) : bool :=
  match array_index key, array_index k with
  | Some i, Some j => i <? j
  | Some _, None => true
  | None, _ => false
  end.

(** CreateDataProperty on the property list of an object under
    construction: an existing key keeps its place and takes the new value, a
    new key takes its place in the order of enumeration. *)
Fixpoint define_prop (key : string) (v : JsValue) (props : list (string * JsValue))
  : list (string * JsValue) :=
  match props with
  | [] => [(key, v)]
  | (k, v0) :: rest =>
      if (k =? key)%string then (k, v) :: rest
      else if precedes key k then (key, v) :: (k, v0) :: rest
      else (k, v0) :: define_prop key v rest
  end.

Definition build_object (members : list (string * JsValue)) : JsValue :=
  JObject (fold_left (fun props kv => define_prop (fst kv) (snd kv) props) members []).

(** Recursive descent over the JSON grammar.  [fuel] bounds the nesting of
    the calls; [parse] supplies more than twice the length of the text,
    which no text exhausts ([JSONFacts.parse_fuel]). *)
Fixpoint parse_value (fuel : nat) (s : string) {struct fuel} : option (JsValue * string) :=
  match fuel with
  | O => None
  | S fuel' =>
      match skip_ws s with
      | EmptyString => None
      | String c rest =>
          if (c =? "{")%char then
            match skip_ws rest with
            | String c1 rest1 =>
                if (c1 =? "}")%char then Some (JObject [], rest1)
                else
                  match parse_members fuel' rest with
                  | Some (members, rest2) => Some (build_object members, rest2)
                  | None => None
                  end
            | EmptyString => None
            end
          else if (c =? "[")%char then
            match skip_ws rest with
            | String c1 rest1 =>
                if (c1 =? "]")%char then Some (JArray [], rest1)
                else
                  match parse_elements fuel' rest with
                  | Some (elems, rest2) => Some (JArray elems, rest2)
                  | None => None
                  end
            | EmptyString => None
            end
          else if (c =? dquote)%char then
            match parse_chars rest with
            | Some (str, rest1) => Some (JString str, rest1)
            | None => None
            end
          else if (c =? "t")%char then
            match strip_prefix "rue" rest with
            | Some rest1 => Some (JBool true, rest1)
            | None => None
            end
          else if (c =? "f")%char then
            match strip_prefix "alse" rest with
            | Some rest1 => Some (JBool false, rest1)
            | None => None
            end
          else if (c =? "n")%char then
            match strip_prefix "ull" rest with
            | Some rest1 => Some (JNull, rest1)
            | None => None
            end
          else
            match parse_number (String c rest) with
            | Some (x, rest1) => Some (JNumber x, rest1)
            | None => None
            end
      end
  end
with parse_elements (fuel : nat) (s : string) {struct fuel} : option (list JsValue * string) :=
  match fuel with
  | O => None
  | S fuel' =>
      match parse_value fuel' s with
      | Some (v, rest) =>
          match skip_ws rest with
          | String c rest1 =>
              if (c =? ",")%char then
                match parse_elements fuel' rest1 with
                | Some (vs, rest2) => Some (v :: vs, rest2)
                | None => None
                end
              else if (c =? "]")%char then Some ([v], rest1)
              else None
          | EmptyString => None
          end
      | None => None
      end
  end
with parse_members (fuel : nat) (s : string) {struct fuel}
  : option (list (string * JsValue) * string) :=
  match fuel with
  | O => None
  | S fuel' =>
      match skip_ws s with
      | String q rest =>
          if (q =? dquote)%char then
            match parse_chars rest with
            | Some (key, rest1) =>
                match skip_ws rest1 with
                | String colon rest2 =>
                    if (colon =? ":")%char then
                      match parse_value fuel' rest2 with
                      | Some (v, rest3) =>
                          match skip_ws rest3 with
                          | String c rest4 =>
                              if (c =? ",")%char then
                                match parse_members fuel' rest4 with
                                | Some (kvs, rest5) => Some ((key, v) :: kvs, rest5)
                                | None => None
                                end
                              else if (c =? "}")%char then Some ([(key, v)], rest4)
                              else None
                          | EmptyString => None
                          end
                      | None => None
                      end
                    else None
                | EmptyString => None
                end
            | None => None
            end
          else None
      | EmptyString => None
      end
  end.

(** [JSON.parse(text)]: the value of the whole text, or a [SyntaxError]. *)
Definition parse (text : string) : Completion JsValue :=
  match parse_value (2 * String.length text + 2) text with
  | Some (v, rest) =>
      match skip_ws rest with
      | EmptyString => Normal v
      | String _ _ => Throw SyntaxError
      end
  | None => Throw SyntaxError
  end.


(** *** The values of the language among the terms of [JsValue] *)

(** No key occurs twice. *)
Fixpoint keys_distinct (keys : list string) : bool :=
  match keys with
  | [] => true
  | k :: rest => negb (existsb (String.eqb k) rest) && keys_distinct rest
  end.

(** The keys are in the order of enumeration: none is enumerated before a
    key listed ahead of it. *)
Fixpoint keys_in_order (keys : list string) : bool :=
  match keys with
  | [] => true
  | k :: rest => forallb (fun k' => negb (precedes k' k)) rest && keys_in_order rest
  end.

(** A value of the language: its Numbers are doubles and its objects hold
    each key once, in the order of enumeration. *)
Fixpoint well_formed (v : JsValue) : bool :=
  match v with
  | JNumber x => Number.is_double x
  | JArray elems => forallb well_formed elems
  | JObject props =>
      keys_distinct (List.map fst props)
      && keys_in_order (List.map fst props)
      && forallb (fun kv => well_formed (snd kv)) props
  | _ => true
  end.

(** Every Number in the value is finite. *)
Fixpoint all_finite (v : JsValue) : bool :=
  match v with
  | JNumber x => Number.is_finite x
  | JArray elems => forallb all_finite elems
  | JObject props => forallb (fun kv => all_finite (snd kv)) props
  | _ => true
  end.

(** A value that JSON can write: a value of the language made of [null],
    booleans, finite Numbers, strings, arrays and objects. *)
Definition serializable (v : JsValue) : bool := well_formed v && all_finite v.

(** The value with [+0] for every [-0]. *)
Fixpoint unsigned_zeros (v : JsValue) : JsValue :=
  match v with
  | JNumber x => JNumber (Number.unsigned_zero x)
  | JArray elems => JArray (List.map unsigned_zeros elems)
  | JObject props => JObject (List.map (fun kv => (fst kv, unsigned_zeros (snd kv))) props)
  | _ => v
  end.

(** No Number in the value is [-0]. *)
Fixpoint no_negative_zero (v : JsValue) : bool :=
  match v with
  | JNumber (S754_zero negative) => negb negative
  | JArray elems => forallb no_negative_zero elems
  | JObject props => forallb (fun kv => no_negative_zero (snd kv)) props
  | _ => true
  end.

(** [a == b], read on arrays and objects element by element and member by
    member; on Numbers [-0 == +0] holds (and NaN equals nothing). *)
Fixpoint equal_values (a b : JsValue) : bool :=
  match a, b with
  | JNull, JNull => true
  | JBool x, JBool y => Bool.eqb x y
  | JNumber x, JNumber y => SFeqb x y
  | JString s, JString t => (s =? t)%string
  | JArray xs, JArray ys =>
      (fix all2 (xs ys : list JsValue) {struct xs} : bool :=
         match xs, ys with
         | [], [] => true
         | x :: xs', y :: ys' => equal_values x y && all2 xs' ys'
         | _, _ => false
         end) xs ys
  | JObject ps, JObject qs =>
      (fix all2 (ps qs : list (string * JsValue)) {struct ps} : bool :=
         match ps, qs with
         | [], [] => true
         | (k, x) :: ps', (l, y) :: qs' => (k =? l)%string && equal_values x y && all2 ps' qs'
         | _, _ => false
         end) ps qs
  | _, _ => false
  end.

(** *** Notions used to state that a text is read back *)

(** Number of nodes of a value, counting each element and member once
    more: the fuel [parse_value] needs on its text. *)
Fixpoint size (v : JsValue) : nat :=
  match v with
  | JArray elems => S (list_sum (List.map (fun e => S (size e)) elems))
  | JObject props => S (list_sum (List.map (fun kv => S (size (snd kv))) props))
  | _ => 1
  end.

(** A character that may follow a value inside an array or an object. *)
Definition delimited (rest : string) : bool :=
  match rest with
  | EmptyString => true
  | String c _ => ((c =? ",") || (c =? "]") || (c =? "}"))%char
  end.

(** A character that a serialized value may start with. *)
Definition value_start (c : ascii) : bool :=
  (is_digit c || (c =? "-") || (c =? dquote) || (c =? "[") || (c =? "{")
   || (c =? "t") || (c =? "f") || (c =? "n"))%char.

(** The text of a number starts with a minus sign or a digit. *)
Definition number_start (c : ascii) : bool := ((c =? "-")%char || is_digit c).

(** The text of one member of an object. *)
Definition member_text (kv : string * JsValue) : string :=
  (quote (fst kv) ++ ":" ++ stringify (snd kv))%string.

(** The text does not start with the [\uXXXX] escape of a trailing
    surrogate: what must hold after the escape of a leading surrogate that
    stands alone. *)
Definition no_low_escape (text : string) : Prop :=
  forall b u g1 g2 g3 g4 rest,
    text = String b (String u (String g1 (String g2 (String g3 (String g4 rest))))) ->
    low_surrogate_escape b u g1 g2 g3 g4 = None.

(** The string does not start with the three bytes of a trailing
    surrogate. *)
Definition no_low_surrogate (s : string) : Prop :=
  forall c1 c2 c3 rest unit,
    s = String c1 (String c2 (String c3 rest)) ->
    surrogate_unit c1 c2 c3 = Some unit -> is_low_surrogate unit = false.

(** [v] is read back from its text, up to the sign of its zeros, whatever
    delimiter follows it. *)
Definition parses_back (v : JsValue) : Prop :=
  serializable v = true ->
  forall fuel rest,
    (size v <= fuel)%nat -> delimited rest = true ->
    parse_value fuel (stringify v ++ rest) = Some (unsigned_zeros v, rest).

End JSON.

(** ** Abstract operations of the language on JSON values *)

(** ToBoolean of the result of a property read ([None] is [undefined]):
    what [!x] negates. *)
Definition ToBoolean (v : option JsValue) : bool :=
  match v with
  | None => false
  | Some JNull => false
  | Some (JBool b) => b
  | Some (JNumber x) =>
      match x with
      | S754_zero _ | S754_nan => false
      | _ => true
      end
  | Some (JString s) => negb (s =? "")%string
  | Some (JArray _) => true
  | Some (JObject _) => true
  end.

(** [TypeError] of a property read on [null]; the message is V8's. *)
Definition TypeError_null (key : string) : JsError :=
  mkError "TypeError" ("Cannot read properties of null (reading '" ++ key ++ "')").

(** [TypeError] of OrdinaryToPrimitive when neither [toString] nor
    [valueOf] gives a primitive value; the message is V8's. *)
Definition TypeError_primitive : JsError :=
  mkError "TypeError" "Cannot convert object to primitive value".

(** Value of the first property named [key]. *)
Fixpoint own_property (key : string) (props : list (string * JsValue)) : option JsValue :=
  match props with
  | [] => None
  | (k, v) :: rest => if (k =? key)%string then Some v else own_property key rest
  end.

(** ToString, as a template literal applies it to a substituted value that
    [JSON.parse] returned.  An array is joined with commas
    ([Array.prototype.join]), its [null] elements giving the empty string.
    An object goes through OrdinaryToPrimitive: [Object.prototype.toString]
    answers [[object Object]], unless an own property named [toString]
    hides it; that property is no function and [valueOf] gives no primitive
    value, so the conversion throws. *)
Fixpoint ToString (v : JsValue) : Completion string :=
  match v with
  | JNull => Normal "null"
  | JBool true => Normal "true"
  | JBool false => Normal "false"
  | JNumber x => Normal (Number.toString x)
  | JString s => Normal s
  | JArray elems =>
      (fix join (elems : list JsValue) : Completion string :=
         match elems with
         | [] => Normal ""
         | e :: rest =>
             match (match e with JNull => Normal "" | _ => ToString e end) with
             | Throw error => Throw error
             | Normal text =>
                 match rest with
                 | [] => Normal text
                 | _ :: _ =>
                     match join rest with
                     | Throw error => Throw error
                     | Normal texts => Normal (text ++ "," ++ texts)
                     end
                 end
             end
         end) elems
  | JObject props =>
      match own_property "toString" props with
      | Some _ => Throw TypeError_primitive
      | None => Normal "[object Object]"
      end
  end.

(** [v.key] for a value [v] that [JSON.parse] returned and a [key] that no
    prototype defines and that is neither an index nor [length]: the own
    property of an object, [undefined] on the other values, a [TypeError] on
    [null]. *)
Definition Get (v : JsValue) (key : string) : Completion (option JsValue) :=
  match v with
  | JNull => Throw (TypeError_null key)
  | JObject props => Normal (own_property key props)
  | _ => Normal None
  end.

(** [v] is an object with an own property [key]. *)
Definition has_property (v : JsValue) (key : string) : bool :=
  match v with
  | JObject props => existsb (String.eqb key) (List.map fst props)
  | _ => false
  end.

(** A text whose JSON decoding is a string: what a double-encoded payload
    is, the receiver decoding that string once more. *)
Definition decodes_to_string (text : string) : bool :=
  match JSON.parse text with
  | Normal (JString _) => true
  | _ => false
  end.

(** ** rpc-client.ts *)

Module RpcClient.

(** [async function findAgent(room)]:
    [Array.from(room.remoteParticipants.values()).find((p) => p.isAgent) || null],
    with [None] for [null]. *)
Definition findAgent : itree hostE (option Participant) :=
  participants <- ITree.trigger RemoteParticipants;;
  Ret (Array_find isAgent participants).

(** [export async function sendDomElements(room, payload: string)] *)
Definition sendDomElements (payload : string) : itree hostE (Completion string) :=
  agent <- findAgent;;
  match agent with
  | None => Ret (Throw (Error "Agent not found"))
  | Some agent =>
      ITree.trigger (PerformRpc {|
        destinationIdentity := identity agent;
        method := "dom_elements";
        payload := JSON.stringify (JString payload) |})
  end.

(** [export async function callAgentAction(room, action: string)] *)
Definition callAgentAction (action : string) : itree hostE (Completion string) :=
  agent <- findAgent;;
  match agent with
  | None => Ret (Throw (Error "Agent not found"))
  | Some agent =>
      ITree.trigger (PerformRpc {|
        destinationIdentity := identity agent;
        method := "agent.action";
        payload := action |})
  end.

End RpcClient.

(** ** agent-client.tsx *)

Module AgentClient.

(** One activation of [sendData]: [inl tt] is the tail call
    [return sendData(room)], [inr c] the completion of the activation.
    The numbers are integers; the one division, [actualRetryDelay / 1000],
    is exact. *)
Definition sendData_body (_ : unit) : itree hostE (unit + Completion unit) :=
  state <- ITree.trigger RoomState;;
  if negb (state =? "connected")%string then Ret (inr (Normal tt))
  else
    participants <- ITree.trigger RemoteParticipants;;
    let agent := Array_find isAgent participants in
    let retryCount := 0 in
    let maxRetries := 3 in
    let retryDelay := 2000 in
    let actualRetryDelay := retryDelay * (retryCount + 1) in
    match agent with
    | None =>
        if retryCount <? maxRetries then
          ITree.trigger (Console LevelLog
            [LogStr ("[DOM ELEMENTS RPC] Agent not found yet, retrying in "
                     ++ JSON.number_to_string (actualRetryDelay / 1000)
                     ++ "s (attempt " ++ JSON.number_to_string (retryCount + 1)
                     ++ "/" ++ JSON.number_to_string maxRetries ++ ")")]);;
          ITree.trigger (SetTimeout actualRetryDelay);;
          Ret (inl tt)
        else
          ITree.trigger (Console LevelWarn
            [LogStr "[DOM ELEMENTS RPC] Agent not found in remote participants after";
             LogNum maxRetries; LogStr "retries"]);;
          Ret (inr (Normal tt))
    | Some agent =>
        c <- try_catch
               (r <- ITree.trigger (PerformRpc {|
                       destinationIdentity := identity agent;
                       method := "dom_elements";
                       payload := JSON.stringify
                                    (JObject [("message", JString "important data!")]) |});;
                match r with
                | Normal response =>
                    ITree.trigger (Console LevelLog [LogStr "RPC response:"; LogStr response]);;
                    Ret (Normal tt)
                | Throw error => Ret (Throw error)
                end)
               (fun error =>
                  ITree.trigger (Console LevelError [LogStr "RPC call failed:"; LogErr error]);;
                  Ret (Normal tt));;
        Ret (inr c)
    end.

(** [const sendData = async (room: Room) => { ... }] *)
Definition sendData : itree hostE (Completion unit) :=
  ITree.iter sendData_body tt.

End AgentClient.

(** ** The handlers of the inbound calls ([registerClientRpcHandlers]) *)

Module ClientRpc.

(** [RpcInvocationData], the argument of a registered handler: the fields
    the handlers read.  [payload] is [None] when it is [undefined] or
    [null]. *)
Record RpcInvocationData : Type := mkData {
  callerIdentity : string;
  payload : option string
}.

(** [a ?? b] *)
Definition nullish {A : Type} (a : option A) (b : A) : A :=
  match a with
  | Some x => x
  | None => b
  end.

Definition reply_missing_jsId : JsValue :=
  JObject [("ok", JBool false); ("error", JString "Missing jsId")].

Definition reply_element_not_found : JsValue :=
  JObject [("ok", JBool false); ("error", JString "Element not found")].

Definition reply_ok : JsValue := JObject [("ok", JBool true)].

Definition reply_error (error : JsError) : JsValue :=
  JObject [("ok", JBool false); ("error", JString (message error))].

(** The template literal [`[data-js-id="${jsId}"]`]: the conversion of
    [jsId] to a string may throw. *)
Definition selector_of (jsId : option JsValue) : Completion string :=
  match (match jsId with Some v => ToString v | None => Normal "undefined" end) with
  | Normal text =>
      Normal ("[data-js-id=" ++ String JSON.dquote text ++ String JSON.dquote "]")
  | Throw error => Throw error
  end.

(** The [try] block of the handler of [client.click_button]. *)
Definition click_button_try (data : RpcInvocationData) : itree hostE (Completion string) :=
  and_then (JSON.parse (nullish (payload data) "{}")) (fun payload =>
  and_then (Get payload "jsId") (fun jsId =>
  if negb (ToBoolean jsId) then
    ITree.trigger (Console LevelWarn [LogStr "client.clickElement RPC missing jsId"]);;
    Ret (Normal (JSON.stringify reply_missing_jsId))
  else
    and_then (selector_of jsId) (fun selector =>
    found <- ITree.trigger (QuerySelector selector);;
    and_then found (fun el =>
    match el with
    | None =>
        ITree.trigger (Console LevelWarn
          [LogStr ("Element not found for selector: " ++ selector)]);;
        Ret (Normal (JSON.stringify reply_element_not_found))
    | Some el =>
        ITree.trigger (Click el);;
        Ret (Normal (JSON.stringify reply_ok))
    end)))).

(** The handler registered for [client.click_button]:
    [async (data) => { try { ... } catch (err) { ... } }]. *)
Definition click_button (data : RpcInvocationData) : itree hostE (Completion string) :=
  try_catch (click_button_try data)
    (fun err =>
       ITree.trigger (Console LevelError
         [LogStr "client.clickElement handler error:"; LogErr err]);;
       Ret (Normal (JSON.stringify (reply_error err)))).

End ClientRpc.

(** ** Running an asynchronous function against a world

    A world answers the events as a function of the time (in milliseconds)
    at which they are asked; only [SetTimeout] lets time pass. *)

Record World : Type := mkWorld {
  room_state : Z -> string;
  remote_participants : Z -> list Participant;
  transport : Z -> PerformRpcParams -> Completion string;
  querySelector : Z -> string -> Completion (option HTMLElement)
}.

(** What a run did, in order. *)
Inductive Obs : Type :=
| ObsState (now : Z) (state : string)
| ObsRoster (now : Z) (participants : list Participant)
| ObsRpc (now : Z) (p : PerformRpcParams) (reply : Completion string)
| ObsTimeout (now : Z) (ms : Z)
| ObsConsole (l : LogLevel) (args : list LogArg)
| ObsQuery (now : Z) (selector : string) (found : Completion (option HTMLElement))
| ObsClick (now : Z) (el : HTMLElement).

(** Answer of the world to one event, the observation it leaves and the
    time afterwards. *)
Definition answer (w : World) (now : Z) {X : Type} (e : hostE X) : X * Obs * Z :=
  match e in hostE X return X * Obs * Z with
  | RoomState => (room_state w now, ObsState now (room_state w now), now)
  | RemoteParticipants =>
      (remote_participants w now, ObsRoster now (remote_participants w now), now)
  | PerformRpc p => (transport w now p, ObsRpc now p (transport w now p), now)
  | SetTimeout ms => (tt, ObsTimeout now ms, now + ms)
  | Console l args => (tt, ObsConsole l args, now)
  | QuerySelector sel => (querySelector w now sel, ObsQuery now sel (querySelector w now sel), now)
  | Click el => (tt, ObsClick now el, now)
  end.

(** [run fuel w now t]: at most [fuel] steps of [t] from time [now]; the
    observations made, and the result if [t] finished within the fuel. *)
Fixpoint run {R : Type} (fuel : nat) (w : World) (now : Z) (t : itree hostE R)
  : list Obs * option R :=
  match fuel with
  | O => ([], None)
  | S fuel' =>
      match observe t with
      | RetF r => ([], Some r)
      | TauF t' => run fuel' w now t'
      | VisF e k =>
          let '(x, o, now') := answer w now e in
          let '(tr, res) := run fuel' w now' (k x) in
          (o :: tr, res)
      end
  end.

(** *** What is read off a run *)

(** Number of resolution attempts: reads of the peer roster. *)
Fixpoint resolution_attempts (tr : list Obs) : nat :=
  match tr with
  | [] => O
  | ObsRoster _ _ :: rest => S (resolution_attempts rest)
  | _ :: rest => resolution_attempts rest
  end.

(** The delays waited, in order. *)
Fixpoint delays (tr : list Obs) : list Z :=
  match tr with
  | [] => []
  | ObsTimeout _ ms :: rest => ms :: delays rest
  | _ :: rest => delays rest
  end.

(** The calls handed to the transport, in order. *)
Fixpoint rpc_calls (tr : list Obs) : list PerformRpcParams :=
  match tr with
  | [] => []
  | ObsRpc _ p _ :: rest => p :: rpc_calls rest
  | _ :: rest => rpc_calls rest
  end.

(** A completion that is not a throw. *)
Definition not_thrown {A : Type} (res : option (Completion A)) : bool :=
  match res with
  | Some (Throw _) => false
  | _ => true
  end.

(** *** What [sendData] is expected to leave in a run *)

(** Arguments of the [console.log] that announces a retry. *)
Definition retry_notice : list LogArg :=
  [LogStr "[DOM ELEMENTS RPC] Agent not found yet, retrying in 2s (attempt 1/3)"].

(** The call [sendData] issues to the agent it found. *)
Definition dom_elements_call (agent : Participant) : PerformRpcParams :=
  {| destinationIdentity := identity agent;
     method := "dom_elements";
     payload := JSON.stringify (JObject [("message", JString "important data!")]) |}.

(** What [sendData] prints after the call: the response, or the failure. *)
Definition call_report (reply : Completion string) : list Obs :=
  match reply with
  | Normal response => [ObsConsole LevelLog [LogStr "RPC response:"; LogStr response]]
  | Throw error => [ObsConsole LevelError [LogStr "RPC call failed:"; LogErr error]]
  end.

(** What the [catch] block of the click handler leaves in a run, and the
    reply it returns. *)
Definition caught (error : JsError) : list Obs * option (Completion string) :=
  ([ObsConsole LevelError [LogStr "client.clickElement handler error:"; LogErr error]],
   Some (Normal (JSON.stringify (ClientRpc.reply_error error)))).

(** [s] between double quotes. *)
Definition in_quotes (s : string) : string :=
  String JSON.dquote (s ++ String JSON.dquote "").

(** The text [{"ok":false,"error":"Missing jsId"}]. *)
Definition missing_jsId_text : string :=
  "{" ++ in_quotes "ok" ++ ":false," ++ in_quotes "error" ++ ":"
      ++ in_quotes "Missing jsId" ++ "}".

(** [r] is the first agent of the roster, or the roster has no agent. *)
Definition first_agent (roster : list Participant) (r : option Participant) : Prop :=
  match r with
  | Some p =>
      exists before after,
        roster = (before ++ p :: after)%list /\ isAgent p = true /\
        Forall (fun q => isAgent q = false) before
  | None => Forall (fun q => isAgent q = false) roster
  end.

(** A run of [sendData] from time [now] that ends in a failure after
    exactly four resolution attempts. *)
Definition fails_after_four_attempts (w : World) (now : Z) : Prop :=
  exists fuel tr error,
    run fuel w now AgentClient.sendData = (tr, Some (Throw error)) /\
    resolution_attempts tr = 4%nat.

(** *** Worlds used as concrete inputs *)

Definition no_document : Z -> string -> Completion (option HTMLElement) :=
  fun _ _ => Normal None.

(** A connected session that no peer ever joins. *)
Definition lonely_world : World :=
  mkWorld (fun _ => "connected") (fun _ => []) (fun _ _ => Normal "ok") no_document.

(** A session that is not connected. *)
Definition disconnected_world : World :=
  mkWorld (fun _ => "disconnected") (fun _ => [mkParticipant "agent-1" true])
          (fun _ _ => Normal "ok") no_document.

(** A connected session with a user and an agent, whose transport answers. *)
Definition agent_world : World :=
  mkWorld (fun _ => "connected")
          (fun _ => [mkParticipant "user-2" false; mkParticipant "agent-1" true])
          (fun _ _ => Normal "ok") no_document.

(** The same session with a transport that rejects every call. *)
Definition failing_transport_world : World :=
  mkWorld (fun _ => "connected")
          (fun _ => [mkParticipant "user-2" false; mkParticipant "agent-1" true])
          (fun _ _ => Throw (mkError "RpcError" "Connection timeout")) no_document.

(** A connected session that the agent joins one second after time 0. *)
Definition late_agent_world : World :=
  mkWorld (fun _ => "connected")
          (fun t => if t <? 1000 then [mkParticipant "user-2" false]
                    else [mkParticipant "user-2" false; mkParticipant "agent-1" true])
          (fun _ _ => Normal "ok") no_document.

(** ** agent-client.tsx: the component *)

Module AgentClientUi.

(** [EmbedErrorDetails] *)
Record EmbedErrorDetails : Type := mkDetails { title : string; description : string }.

(** The state the handlers of [AgentClient] read and write:
    [isAnimating.current], [popupOpen], [error]. *)
Record UiState : Type := mkUi {
  isAnimating : bool;
  popupOpen : bool;
  error : option EmbedErrorDetails
}.

(** [const handleTogglePopup = () => { ... }]:
    [setError(null); setPopupOpen((open) => !open)] unless an animation is
    running. *)
Definition handleTogglePopup (s : UiState) : UiState :=
  if isAnimating s then s
  else mkUi (isAnimating s) (negb (popupOpen s)) None.

(** [const handlePanelAnimationStart = () => { isAnimating.current = true; }] *)
Definition handlePanelAnimationStart (s : UiState) : UiState :=
  mkUi true (popupOpen s) (error s).

(** [const handlePanelAnimationComplete = () => { ... }]: the state after
    it and whether it called [room.disconnect()], given [room.state]. *)
Definition handlePanelAnimationComplete (room_state : string) (s : UiState)
  : UiState * bool :=
  let s' := mkUi false (popupOpen s) (error s) in
  if negb (popupOpen s) && negb (room_state =? "disconnected")%string
  then (s', true)
  else (s', false).

(** The handler the effect registers for [client.greet].  An absent payload
    prints as [undefined]. *)
Definition greet (data : ClientRpc.RpcInvocationData) : itree hostE (Completion string) :=
  ITree.trigger (Console LevelLog
    [LogStr ("Received greeting from " ++ ClientRpc.callerIdentity data ++ ": "
             ++ match ClientRpc.payload data with
                | Some text => text
                | None => "undefined"
                end)]);;
  Ret (Normal ("Hello, " ++ ClientRpc.callerIdentity data ++ "!")).

End AgentClientUi.

(** ** The handlers bound to the room

    [room.registerRpcMethod] and [room.unregisterRpcMethod] belong to
    livekit-client.  The handlers of a room are a map from method names to
    handlers, seen through its lookup; unregistering deletes the name (a name
    that is not bound is left alone); registering binds a name that is free,
    and what it does with a name already bound is left to the library
    ([on_duplicate]). *)

Module RpcRegistry.

Definition Handler : Type :=
  ClientRpc.RpcInvocationData -> itree hostE (Completion string).

Definition Registry : Type := string -> option Handler.

(** [Map.prototype.set] *)
Definition Map_set (method : string) (handler : Handler) (reg : Registry) : Registry :=
  fun m => if (m =? method)%string then Some handler else reg m.

(** [Map.prototype.delete] *)
Definition Map_delete (method : string) (reg : Registry) : Registry :=
  fun m => if (m =? method)%string then None else reg m.

Definition unregisterRpcMethod (method : string) (reg : Registry) : Registry :=
  Map_delete method reg.

(** [ConnectionDetails], of which the effect reads only the presence. *)
Record ConnectionDetails : Type := mkConnection {
  serverUrl : string;
  participantToken : string
}.

Section Library.

Variable on_duplicate : string -> Handler -> Registry -> Completion Registry.

Definition registerRpcMethod (method : string) (handler : Handler) (reg : Registry)
  : Completion Registry :=
  match reg method with
  | Some _ => on_duplicate method handler reg
  | None => Normal (Map_set method handler reg)
  end.

(** What the second effect of [AgentClient] does before [connect()]: the
    state and the handlers after it, and whether it called [connect()].  The
    body of [connect] (a [Promise.all] of two requests) is not part of this
    model. *)
Definition connect_effect
    (connectionDetails : option ConnectionDetails) (room_state : string)
    (s : AgentClientUi.UiState) (reg : Registry)
  : Completion (AgentClientUi.UiState * Registry * bool) :=
  if negb (AgentClientUi.popupOpen s) then Normal (s, reg, false)
  else
    match connectionDetails with
    | None =>
        Normal (AgentClientUi.mkUi (AgentClientUi.isAnimating s) (AgentClientUi.popupOpen s)
                  (Some (AgentClientUi.mkDetails "Error fetching connection details"
                                                 "Please try again later")),
                reg, false)
    | Some _ =>
        match registerRpcMethod "client.greet" AgentClientUi.greet
                (unregisterRpcMethod "client.greet" reg) with
        | Throw e => Throw e
        | Normal reg' =>
            if negb (room_state =? "disconnected")%string then Normal (s, reg', false)
            else Normal (s, reg', true)
        end
    end.

End Library.

(** [export function unregisterClientRpcHandlers(room)] *)
Definition unregisterClientRpcHandlers (reg : Registry) : Registry :=
  unregisterRpcMethod "client.click_button" (unregisterRpcMethod "client.greet" reg).

End RpcRegistry.

(** *** More that is read off a run *)

(** The elements clicked, in order. *)
Fixpoint clicks (tr : list Obs) : list HTMLElement :=
  match tr with
  | [] => []
  | ObsClick _ el :: rest => el :: clicks rest
  | _ :: rest => clicks rest
  end.

(** The selectors the document was queried with, in order. *)
Fixpoint queries (tr : list Obs) : list string :=
  match tr with
  | [] => []
  | ObsQuery _ selector _ :: rest => selector :: queries rest
  | _ :: rest => queries rest
  end.

(** The times at which the roster was read, in order. *)
Fixpoint roster_reads (tr : list Obs) : list Z :=
  match tr with
  | [] => []
  | ObsRoster now _ :: rest => now :: roster_reads rest
  | _ :: rest => roster_reads rest
  end.

(** The text [{"ok":true}]. *)
Definition ok_text : string := "{" ++ in_quotes "ok" ++ ":true}".

(** [jsId] is present and falsy: [null], [false], a zero, NaN or the
    empty string. *)
Definition falsy_jsId (j : JsValue) : bool :=
  match j with
  | JNull => true
  | JBool b => negb b
  | JNumber (S754_zero _) => true
  | JNumber S754_nan => true
  | JString s => (s =? "")%string
  | _ => false
  end.

(** A session connected until time [until], with no peer, and not connected
    from then on. *)
Definition dropping_world (until : Z) : World :=
  mkWorld (fun t => if t <? until then "connected" else "disconnected")
          (fun _ => []) (fun _ _ => Normal "ok") no_document.

(** A connected session that the agent joins at time [at_ms]. *)
Definition joining_world (at_ms : Z) : World :=
  mkWorld (fun _ => "connected")
          (fun t => if t <? at_ms then [mkParticipant "user-2" false]
                    else [mkParticipant "user-2" false; mkParticipant "agent-1" true])
          (fun _ _ => Normal "ok") no_document.

(** A document with one element, found by the selector of the identifier
    [save]. *)
Definition save_button_world : World :=
  mkWorld (fun _ => "connected") (fun _ => []) (fun _ _ => Normal "ok")
          (fun _ selector =>
             if (selector =? "[data-js-id=" ++ in_quotes "save" ++ "]")%string
             then Normal (Some (element 7)) else Normal None).

(** * Properties *)

(** ** The runner respects the equations of interaction trees *)

Lemma run_eq_itree {R : Type} (fuel : nat) :
  forall (w : World) (now : Z) (t1 t2 : itree hostE R),
    t1 ≅ t2 -> run fuel w now t1 = run fuel w now t2.
Proof.
  induction fuel as [|fuel IH]; intros w now t1 t2 H; [reflexivity|].
  apply eqit_inv in H. cbn [run]. unfold observe.
  destruct (_observe t1) as [r1|t1'|X1 e1 k1], (_observe t2) as [r2|t2'|X2 e2 k2];
    cbn in H; try contradiction; try discriminate.
  - subst; reflexivity.
  - apply IH; assumption.
  - destruct H as [p [He Hk]]. destruct p. cbn in He, Hk. subst e2.
    destruct (answer w now e1) as [[x o] now'].
    rewrite (IH w now' _ _ (Hk x)). reflexivity.
Qed.

#[global] Instance run_Proper {R : Type} (fuel : nat) (w : World) (now : Z) :
  Proper (eq_itree eq ==> eq) (@run R fuel w now).
Proof. intros t1 t2 H. apply run_eq_itree, H. Qed.

(** A run that has finished is not changed by more fuel. *)
Lemma run_more_fuel {R : Type} (fuel : nat) :
  forall (w : World) (now : Z) (t : itree hostE R) tr r extra,
    run fuel w now t = (tr, Some r) -> run (fuel + extra) w now t = (tr, Some r).
Proof.
  induction fuel as [|fuel IH]; intros w now t tr r extra H; [discriminate|].
  cbn [run Nat.add] in *.
  destruct (observe t) as [r0|t'|X e k].
  - exact H.
  - apply IH, H.
  - destruct (answer w now e) as [[x o] now'].
    destruct (run fuel w now' (k x)) as [tr' res] eqn:Hrun.
    inversion H; subst. rewrite (IH _ _ _ _ _ extra Hrun). reflexivity.
Qed.

(** One step of a run, by the head of the tree. *)
Lemma run_Ret {R : Type} (fuel : nat) (w : World) (now : Z) (r : R) :
  run (S fuel) w now (Ret r) = ([], Some r).
Proof. reflexivity. Qed.

Lemma run_Tau {R : Type} (fuel : nat) (w : World) (now : Z) (t : itree hostE R) :
  run (S fuel) w now (Tau t) = run fuel w now t.
Proof. reflexivity. Qed.

Lemma run_Vis {R X : Type} (fuel : nat) (w : World) (now : Z)
    (e : hostE X) (k : X -> itree hostE R) :
  run (S fuel) w now (Vis e k) =
  (snd (fst (answer w now e))
     :: fst (run fuel w (snd (answer w now e)) (k (fst (fst (answer w now e))))),
   snd (run fuel w (snd (answer w now e)) (k (fst (fst (answer w now e)))))).
Proof.
  cbn [run observe _observe]. destruct (answer w now e) as [[x o] now']. cbn [fst snd].
  destruct (run fuel w now' (k x)). reflexivity.
Qed.

(** Rewrites one step of the run in the goal. *)
Ltac run_step :=
  first [ rewrite run_Vis; cbn [answer fst snd]
        | rewrite run_Tau
        | rewrite run_Ret; cbn [fst snd] ].

(** ** sendData, one activation at a time *)

Section SendData.
Import AgentClient.

Lemma sendData_unfold :
  sendData ≅
  Vis RoomState (fun state =>
    if negb (state =? "connected")%string then Ret (Normal tt)
    else
      Vis RemoteParticipants (fun participants =>
        match Array_find isAgent participants with
        | None =>
            Vis (Console LevelLog retry_notice) (fun _ =>
            Vis (SetTimeout 2000) (fun _ => Tau sendData))
        | Some agent =>
            Vis (PerformRpc (dom_elements_call agent)) (fun reply =>
              match reply with
              | Normal response =>
                  Vis (Console LevelLog [LogStr "RPC response:"; LogStr response])
                      (fun _ => Ret (Normal tt))
              | Throw error =>
                  Vis (Console LevelError [LogStr "RPC call failed:"; LogErr error])
                      (fun _ => Ret (Normal tt))
              end)
        end)).
Proof.
  unfold sendData. rewrite unfold_iter. unfold sendData_body at 1.
  rewrite bind_bind, bind_trigger. apply eqit_Vis. intros state.
  destruct (negb (state =? "connected")%string).
  - rewrite bind_ret_l. reflexivity.
  - rewrite bind_bind, bind_trigger. apply eqit_Vis. intros participants.
    cbv zeta. destruct (Array_find isAgent participants) as [agent|].
    + unfold try_catch. rewrite !bind_bind, bind_trigger. apply eqit_Vis. intros [response|error].
      * rewrite !bind_bind, bind_trigger. apply eqit_Vis. intros [].
        rewrite !bind_ret_l. reflexivity.
      * rewrite bind_ret_l, bind_bind, bind_trigger. apply eqit_Vis. intros [].
        rewrite !bind_ret_l. reflexivity.
    + change (0 <? 3) with true. cbv iota.
      rewrite bind_bind, bind_trigger. apply eqit_Vis. intros [].
      rewrite bind_bind, bind_trigger. apply eqit_Vis. intros [].
      rewrite bind_ret_l. reflexivity.
Qed.

End SendData.

Section SendDataRuns.
Import AgentClient.

Variable w : World.

Lemma sendData_run_not_connected (now : Z) (fuel : nat) :
  room_state w now <> "connected" ->
  run (2 + fuel) w now sendData = ([ObsState now (room_state w now)], Some (Normal tt)).
Proof.
  intros H. apply String.eqb_neq in H.
  rewrite sendData_unfold. cbn. rewrite H. reflexivity.
Qed.

Lemma sendData_run_retry (now : Z) (fuel : nat) :
  room_state w now = "connected" ->
  Array_find isAgent (remote_participants w now) = None ->
  run (5 + fuel) w now sendData =
  (ObsState now "connected" :: ObsRoster now (remote_participants w now)
     :: ObsConsole LevelLog retry_notice :: ObsTimeout now 2000
     :: fst (run fuel w (now + 2000) sendData),
   snd (run fuel w (now + 2000) sendData)).
Proof.
  intros Hc Ha. rewrite (run_eq_itree (5 + fuel) w now _ _ sendData_unfold).
  cbn -[Array_find]. rewrite Hc. cbn -[Array_find]. rewrite Ha. cbn.
  destruct (run fuel w (now + 2000) sendData). reflexivity.
Qed.

Lemma sendData_run_send (now : Z) (fuel : nat) (agent : Participant) :
  room_state w now = "connected" ->
  Array_find isAgent (remote_participants w now) = Some agent ->
  run (5 + fuel) w now sendData =
  (ObsState now "connected" :: ObsRoster now (remote_participants w now)
     :: ObsRpc now (dom_elements_call agent) (transport w now (dom_elements_call agent))
     :: call_report (transport w now (dom_elements_call agent)),
   Some (Normal tt)).
Proof.
  intros Hc Ha. rewrite (run_eq_itree (5 + fuel) w now _ _ sendData_unfold).
  cbn -[Array_find]. rewrite Hc. cbn -[Array_find]. rewrite Ha. cbn.
  destruct (transport w now (dom_elements_call agent)); reflexivity.
Qed.

End SendDataRuns.

Section SendDataInvariants.
Import AgentClient.

Variable w : World.

(** Whatever the world does, [sendData] raises nothing to its caller and
    every delay it waits is 2000 ms. *)
Lemma sendData_run_invariant (fuel : nat) :
  forall now,
    not_thrown (snd (run fuel w now sendData)) = true /\
    Forall (fun ms => ms = 2000) (delays (fst (run fuel w now sendData))).
Proof.
  induction fuel as [fuel IH] using lt_wf_ind. intros now.
  rewrite (run_eq_itree fuel w now _ _ sendData_unfold).
  destruct fuel as [|f1]; [split; [reflexivity | constructor]|]. run_step.
  destruct (negb (room_state w now =? "connected")%string).
  { destruct f1; cbn; split; auto. }
  destruct f1 as [|f2]; [cbn; split; auto|]. run_step.
  destruct (Array_find isAgent (remote_participants w now)) as [agent|].
  - destruct f2 as [|f3]; [cbn; split; auto|]. run_step.
    destruct (transport w now (dom_elements_call agent));
      (destruct f3 as [|f4]; [cbn; split; auto|]); run_step;
      destruct f4; cbn; split; auto.
  - destruct f2 as [|f3]; [cbn; split; auto|]. run_step.
    destruct f3 as [|f4]; [cbn; split; auto|]. run_step.
    destruct f4 as [|f5]; [cbn; split; auto|]. run_step.
    destruct (IH f5 ltac:(lia) (now + 2000)) as [Hn Hd].
    cbn [delays]. split; [exact Hn | constructor; [reflexivity | exact Hd]].
Qed.

Hypothesis no_agent : forall t, Array_find isAgent (remote_participants w t) = None.

(** With no agent in any roster, no call reaches the transport. *)
Lemma sendData_run_no_agent (fuel : nat) :
  forall now, rpc_calls (fst (run fuel w now sendData)) = [].
Proof.
  induction fuel as [fuel IH] using lt_wf_ind. intros now.
  rewrite (run_eq_itree fuel w now _ _ sendData_unfold).
  destruct fuel as [|f1]; [reflexivity|]. run_step.
  destruct (negb (room_state w now =? "connected")%string).
  { destruct f1; reflexivity. }
  destruct f1 as [|f2]; [reflexivity|]. run_step. rewrite no_agent.
  destruct f2 as [|f3]; [reflexivity|]. run_step.
  destruct f3 as [|f4]; [reflexivity|]. run_step.
  destruct f4 as [|f5]; [reflexivity|]. run_step.
  cbn [rpc_calls]. apply IH. lia.
Qed.

Hypothesis connected : forall t, room_state w t = "connected".

(** On a session that stays connected and that no agent joins, no amount of
    fuel lets [sendData] finish. *)
Lemma sendData_run_unfinished (fuel : nat) :
  forall now, snd (run fuel w now sendData) = None.
Proof.
  induction fuel as [fuel IH] using lt_wf_ind. intros now.
  rewrite (run_eq_itree fuel w now _ _ sendData_unfold).
  destruct fuel as [|f1]; [reflexivity|]. run_step. rewrite connected.
  cbn [String.eqb Ascii.eqb Bool.eqb negb].
  destruct f1 as [|f2]; [reflexivity|]. run_step. rewrite no_agent.
  destruct f2 as [|f3]; [reflexivity|]. run_step.
  destruct f3 as [|f4]; [reflexivity|]. run_step.
  destruct f4 as [|f5]; [reflexivity|]. run_step.
  apply IH. lia.
Qed.

(** Every five steps are one more resolution attempt. *)
Lemma sendData_run_attempts (n : nat) :
  forall now, resolution_attempts (fst (run (5 * n) w now sendData)) = n.
Proof.
  induction n as [|n IH]; intros now; [reflexivity|].
  replace (5 * S n)%nat with (5 + 5 * n)%nat by lia.
  rewrite (sendData_run_retry w now (5 * n) (connected now) (no_agent now)).
  cbn [fst resolution_attempts]. rewrite IH. reflexivity.
Qed.

End SendDataInvariants.

(** ** findAgent, sendDomElements, callAgentAction *)

Section RpcClientRuns.
Import RpcClient.

(** [Array_find] returns the first element that satisfies the predicate. *)
Lemma Array_find_Some {A : Type} (pred : A -> bool) (arr : list A) (x : A) :
  Array_find pred arr = Some x <->
  exists before after,
    arr = (before ++ x :: after)%list /\ pred x = true /\
    Forall (fun y => pred y = false) before.
Proof.
  split.
  - induction arr as [|y rest IH]; intros H; [discriminate|].
    cbn in H. destruct (pred y) eqn:Hy.
    + inversion H; subst. exists [], rest. repeat split; auto.
    + destruct (IH H) as (before & after & -> & Hx & Hb).
      exists (y :: before), after. repeat split; auto.
  - intros (before & after & -> & Hx & Hb).
    induction Hb as [|y before Hy _ IH]; cbn.
    + rewrite Hx. reflexivity.
    + rewrite Hy. exact IH.
Qed.

Lemma Array_find_None {A : Type} (pred : A -> bool) (arr : list A) :
  Array_find pred arr = None <-> Forall (fun y => pred y = false) arr.
Proof.
  induction arr as [|y rest IH]; cbn.
  - split; [constructor | reflexivity].
  - destruct (pred y) eqn:Hy.
    + split; [discriminate | intros H; inversion H; congruence].
    + rewrite IH. split; [intros H; constructor; assumption | intros H; inversion H; assumption].
Qed.

Variable w : World.

Lemma findAgent_run (now : Z) (fuel : nat) :
  run (2 + fuel) w now findAgent =
  ([ObsRoster now (remote_participants w now)],
   Some (Array_find isAgent (remote_participants w now))).
Proof.
  unfold findAgent. rewrite bind_trigger. reflexivity.
Qed.

(** [sendDomElements] and [callAgentAction], event by event. *)

Lemma sendDomElements_unfold (payload : string) :
  sendDomElements payload ≅
  Vis RemoteParticipants (fun participants =>
    match Array_find isAgent participants with
    | None => Ret (Throw (Error "Agent not found"))
    | Some agent =>
        Vis (PerformRpc (mkRpc (identity agent) "dom_elements"
                               (JSON.stringify (JString payload))))
            (fun reply => Ret reply)
    end).
Proof.
  unfold sendDomElements, findAgent. rewrite bind_bind, bind_trigger.
  apply eqit_Vis. intros participants. rewrite bind_ret_l.
  destruct (Array_find isAgent participants); reflexivity.
Qed.

Lemma callAgentAction_unfold (action : string) :
  callAgentAction action ≅
  Vis RemoteParticipants (fun participants =>
    match Array_find isAgent participants with
    | None => Ret (Throw (Error "Agent not found"))
    | Some agent =>
        Vis (PerformRpc (mkRpc (identity agent) "agent.action" action))
            (fun reply => Ret reply)
    end).
Proof.
  unfold callAgentAction, findAgent. rewrite bind_bind, bind_trigger.
  apply eqit_Vis. intros participants. rewrite bind_ret_l.
  destruct (Array_find isAgent participants); reflexivity.
Qed.

Lemma sendDomElements_run (payload : string) (now : Z) (fuel : nat) :
  run (3 + fuel) w now (sendDomElements payload) =
  match Array_find isAgent (remote_participants w now) with
  | None =>
      ([ObsRoster now (remote_participants w now)], Some (Throw (Error "Agent not found")))
  | Some agent =>
      let call := mkRpc (identity agent) "dom_elements" (JSON.stringify (JString payload)) in
      ([ObsRoster now (remote_participants w now); ObsRpc now call (transport w now call)],
       Some (transport w now call))
  end.
Proof.
  rewrite sendDomElements_unfold. cbn -[Array_find JSON.stringify].
  destruct (Array_find isAgent (remote_participants w now)); reflexivity.
Qed.

Lemma callAgentAction_run (action : string) (now : Z) (fuel : nat) :
  run (3 + fuel) w now (callAgentAction action) =
  match Array_find isAgent (remote_participants w now) with
  | None =>
      ([ObsRoster now (remote_participants w now)], Some (Throw (Error "Agent not found")))
  | Some agent =>
      let call := mkRpc (identity agent) "agent.action" action in
      ([ObsRoster now (remote_participants w now); ObsRpc now call (transport w now call)],
       Some (transport w now call))
  end.
Proof.
  rewrite callAgentAction_unfold. cbn -[Array_find].
  destruct (Array_find isAgent (remote_participants w now)); reflexivity.
Qed.

End RpcClientRuns.

(** ** The handler of client.click_button *)

Section ClickButton.
Import ClientRpc.

Variable w : World.

Lemma click_button_try_run (data : RpcInvocationData) (now : Z) (fuel : nat) :
  run (3 + fuel) w now (click_button_try data) =
  match JSON.parse (nullish (payload data) "{}") with
  | Throw error => ([], Some (Throw error))
  | Normal payload =>
      match Get payload "jsId" with
      | Throw error => ([], Some (Throw error))
      | Normal jsId =>
          if negb (ToBoolean jsId) then
            ([ObsConsole LevelWarn [LogStr "client.clickElement RPC missing jsId"]],
             Some (Normal (JSON.stringify reply_missing_jsId)))
          else
            match selector_of jsId with
            | Throw error => ([], Some (Throw error))
            | Normal selector =>
                match querySelector w now selector with
                | Throw error =>
                    ([ObsQuery now selector (Throw error)], Some (Throw error))
                | Normal None =>
                    ([ObsQuery now selector (Normal None);
                      ObsConsole LevelWarn
                        [LogStr ("Element not found for selector: " ++ selector)]],
                     Some (Normal (JSON.stringify reply_element_not_found)))
                | Normal (Some el) =>
                    ([ObsQuery now selector (Normal (Some el)); ObsClick now el],
                     Some (Normal (JSON.stringify reply_ok)))
                end
            end
      end
  end.
Proof.
  unfold click_button_try, and_then.
  destruct (JSON.parse (nullish (payload data) "{}")) as [parsed|error]; [|reflexivity].
  destruct (Get parsed "jsId") as [jsId|error]; [|reflexivity].
  destruct (negb (ToBoolean jsId)).
  { rewrite bind_trigger. reflexivity. }
  destruct (selector_of jsId) as [selector|error]; [|reflexivity].
  rewrite bind_trigger.
  cbn [Nat.add]. run_step.
  destruct (querySelector w now selector) as [[el|]|error];
    try rewrite bind_trigger; reflexivity.
Qed.

Lemma click_button_run (data : RpcInvocationData) (now : Z) (fuel : nat) :
  run (3 + fuel) w now (click_button data) =
  match JSON.parse (nullish (payload data) "{}") with
  | Throw error => caught error
  | Normal payload =>
      match Get payload "jsId" with
      | Throw error => caught error
      | Normal jsId =>
          if negb (ToBoolean jsId) then
            ([ObsConsole LevelWarn [LogStr "client.clickElement RPC missing jsId"]],
             Some (Normal (JSON.stringify reply_missing_jsId)))
          else
            match selector_of jsId with
            | Throw error => caught error
            | Normal selector =>
                match querySelector w now selector with
                | Throw error =>
                    (ObsQuery now selector (Throw error) :: fst (caught error),
                     snd (caught error))
                | Normal None =>
                    ([ObsQuery now selector (Normal None);
                      ObsConsole LevelWarn
                        [LogStr ("Element not found for selector: " ++ selector)]],
                     Some (Normal (JSON.stringify reply_element_not_found)))
                | Normal (Some el) =>
                    ([ObsQuery now selector (Normal (Some el)); ObsClick now el],
                     Some (Normal (JSON.stringify reply_ok)))
                end
            end
      end
  end.
Proof.
  unfold click_button, click_button_try, try_catch, and_then.
  destruct (JSON.parse (nullish (payload data) "{}")) as [parsed|error].
  2:{ rewrite bind_ret_l, bind_trigger. reflexivity. }
  destruct (Get parsed "jsId") as [jsId|error].
  2:{ rewrite bind_ret_l, bind_trigger. reflexivity. }
  destruct (negb (ToBoolean jsId)).
  { rewrite bind_bind, bind_trigger. cbn [Nat.add]. run_step.
    rewrite !bind_ret_l. reflexivity. }
  destruct (selector_of jsId) as [selector|error].
  2:{ rewrite bind_ret_l, bind_trigger. reflexivity. }
  rewrite bind_bind, bind_trigger.
  cbn [Nat.add]. run_step.
  destruct (querySelector w now selector) as [[el|]|error].
  - rewrite bind_bind, bind_trigger. run_step. rewrite !bind_ret_l. reflexivity.
  - rewrite bind_bind, bind_trigger. run_step. rewrite !bind_ret_l. reflexivity.
  - rewrite bind_ret_l, bind_trigger. reflexivity.
Qed.

End ClickButton.

(** ** Numbers *)

Module NumberFacts.
Import Number.


Lemma same_value_eq (a b : spec_float) : same_value a b = true -> a = b.
Proof.
  destruct a as [s|s| |s m e], b as [t|t| |t n f]; cbn; try discriminate.
  - intros H. apply Bool.eqb_prop in H. congruence.
  - intros H. apply Bool.eqb_prop in H. congruence.
  - reflexivity.
  - intros H. apply andb_prop in H. destruct H as [H He].
    apply andb_prop in H. destruct H as [Hs Hm].
    apply Bool.eqb_prop in Hs. apply Pos.eqb_eq in Hm. apply Z.eqb_eq in He. congruence.
Qed.

Lemma digits2_pos_log2 (m : positive) : Z.pos (digits2_pos m) = Z.log2 (Z.pos m) + 1.
Proof.
  assert (forall p, digits2_pos p = Pos.size p) as Hsize.
  { induction p as [p IH|p IH|]; cbn; [rewrite IH; reflexivity ..|reflexivity]. }
  destruct m as [p|p|]; cbn; rewrite ?Hsize; lia.
Qed.

(** What it is for a mantissa and an exponent to be those of a double. *)
Lemma bounded_spec (m : positive) (e : Z) :
  bounded prec emax m e = true ->
  Z.log2 (Z.pos m) <= 52 /\ -1074 <= e <= 971 /\ (Z.log2 (Z.pos m) = 52 \/ e = -1074).
Proof.
  unfold bounded, canonical_mantissa, fexp, emin, prec, emax.
  rewrite digits2_pos_log2. intros H. apply andb_prop in H. destruct H as [Hc He].
  apply Z.eqb_eq in Hc. apply Z.leb_le in He. lia.
Qed.

Lemma round_ratio_zero (negative : bool) (D : Z) : round_ratio negative 0 D = S754_zero negative.
Proof. unfold round_ratio. rewrite Z.mul_0_l, Zdiv_0_l. reflexivity. Qed.

(** The sign plays no part in the rounding. *)
Lemma round_ratio_sign (negative : bool) (N D : Z) (m : positive) (e : Z) :
  round_ratio false N D = S754_finite false m e ->
  round_ratio negative N D = S754_finite negative m e.
Proof.
  unfold round_ratio. cbv zeta.
  destruct (if _ =? 2 ^ 53 then _ else _) as [m' e'].
  destruct (m' =? 0); [discriminate|]. destruct (971 <? e'); [discriminate|].
  intros H. inversion H. reflexivity.
Qed.

(** A ratio that is a double is its own Number value. *)
Lemma round_ratio_exact (negative : bool) (N D : Z) (m : positive) (e : Z) :
  bounded prec emax m e = true ->
  0 < D ->
  N * 2 ^ 1075 = Z.pos m * 2 ^ (e + 1075) * D ->
  round_ratio negative N D = S754_finite negative m e.
Proof.
  intros Hb HD Heq. apply bounded_spec in Hb. destruct Hb as (Hlog & He & Hcase).
  unfold round_ratio. cbv zeta. rewrite Heq.
  rewrite Z.div_mul by lia. rewrite Z.mod_mul by lia.
  rewrite Z.log2_mul_pow2 by lia.
  assert (Z.max (e + 1075 + Z.log2 (Z.pos m) - 52) 1 = e + 1075) as -> by lia.
  rewrite Z.div_mul by (apply Z.pow_nonzero; lia).
  rewrite Z.mod_mul by (apply Z.pow_nonzero; lia).
  assert (0 < 2 ^ (e + 1075 - 1)) as Hhalf by (apply Z.pow_pos_nonneg; lia).
  assert ((2 ^ (e + 1075 - 1) <? 0) = false) as -> by (apply Z.ltb_ge; lia).
  assert ((0 =? 2 ^ (e + 1075 - 1)) = false) as -> by (apply Z.eqb_neq; lia).
  cbn [orb andb].
  assert (Z.pos m < 2 ^ 53) as Hm.
  { apply Z.log2_lt_pow2; lia. }
  assert ((Z.pos m =? 2 ^ 53) = false) as -> by (apply Z.eqb_neq; lia).
  assert ((Z.pos m =? 0) = false) as -> by (apply Z.eqb_neq; lia).
  assert ((971 <? e + 1075 - 1075) = false) as -> by (apply Z.ltb_ge; lia).
  cbn [Z.to_pos]. f_equal. lia.
Qed.

Lemma exact_decimal_yields (m : positive) (e : Z) :
  bounded prec emax m e = true ->
  of_decimal false (fst (exact_decimal m e)) (- snd (exact_decimal m e))
  = S754_finite false m e.
Proof.
  intros Hb. pose proof (bounded_spec m e Hb) as (_ & He & _).
  unfold exact_decimal, of_decimal.
  destruct (Z.leb_spec 0 e) as [Hpos|Hneg]; cbn [fst snd].
  - change (0 <=? - 0) with true. cbv iota.
    apply round_ratio_exact; [exact Hb | lia |].
    change (10 ^ 0) with 1. rewrite !Z.mul_1_r.
    rewrite Z.pow_add_r by lia. ring.
  - rewrite Z.opp_involutive.
    assert ((0 <=? e) = false) as -> by (apply Z.leb_gt; lia).
    apply round_ratio_exact; [exact Hb | apply Z.pow_pos_nonneg; lia |].
    replace 10 with (2 * 5) by reflexivity. rewrite Z.pow_mul_l.
    replace (2 ^ 1075) with (2 ^ (e + 1075) * 2 ^ (- e)).
    2:{ rewrite <- Z.pow_add_r by lia. f_equal. lia. }
    ring.
Qed.

(** The search of Number::toString ends on a candidate that denotes the
    Number, or on all the digits of its exact value. *)
Lemma shortest_from_cases (x : spec_float) (X P nd : Z) (fuel : nat) :
  forall k, yields x (shortest_from x X P nd fuel k) = true \/
            shortest_from x X P nd fuel k = (X, - P).
Proof.
  induction fuel as [|fuel IH]; intros k; cbn [shortest_from]; [right; reflexivity|].
  destruct (yields x (candidate_low X P nd k)) eqn:Hlo;
    destruct (yields x (candidate_high X P nd k)) eqn:Hhi.
  - left. unfold closest. cbv zeta.
    destruct (_ ?= _); [destruct (Z.even _)| |]; assumption.
  - left. exact Hlo.
  - left. exact Hhi.
  - apply IH.
Qed.

Lemma candidate_low_nonneg (X P nd k : Z) : 0 <= X -> 0 <= fst (candidate_low X P nd k).
Proof.
  intros HX. unfold candidate_low. cbn [fst].
  pose proof (Z.pow_nonneg 10 (nd - k) ltac:(lia)) as Hpow.
  destruct (Z.eq_dec (10 ^ (nd - k)) 0) as [E|E].
  - rewrite E, Z.div_0_r. lia.
  - apply Z.div_pos; lia.
Qed.

Lemma shortest_from_nonneg (x : spec_float) (X P nd : Z) (fuel : nat) :
  0 <= X -> forall k, 0 <= fst (shortest_from x X P nd fuel k).
Proof.
  intros HX.
  assert (forall k, 0 <= fst (candidate_high X P nd k)) as Hhigh.
  { intros k. pose proof (candidate_low_nonneg X P nd k HX) as Hlow.
    unfold candidate_high, candidate_low in *. cbn [fst] in *. cbv zeta.
    destruct (_ =? _); cbn [fst]; [apply Z.pow_nonneg|]; lia. }
  induction fuel as [|fuel IH]; intros k; cbn [shortest_from].
  - exact HX.
  - destruct (yields x (candidate_low X P nd k)); destruct (yields x (candidate_high X P nd k)).
    + unfold closest. cbv zeta.
      destruct (_ ?= _); [destruct (Z.even _)| |];
        first [apply candidate_low_nonneg, HX | apply Hhigh].
    + apply candidate_low_nonneg, HX.
    + apply Hhigh.
    + apply IH.
Qed.

Lemma of_decimal_zero (negative : bool) (E : Z) : of_decimal negative 0 E = S754_zero negative.
Proof.
  unfold of_decimal. destruct (0 <=? E); [rewrite Z.mul_0_l|]; apply round_ratio_zero.
Qed.

Lemma of_decimal_sign (negative : bool) (M E : Z) (m : positive) (e : Z) :
  of_decimal false M E = S754_finite false m e ->
  of_decimal negative M E = S754_finite negative m e.
Proof. unfold of_decimal. destruct (0 <=? E); apply round_ratio_sign. Qed.

Lemma exact_decimal_pos (m : positive) (e : Z) : 0 < fst (exact_decimal m e).
Proof.
  unfold exact_decimal. destruct (Z.leb_spec 0 e); cbn [fst];
    apply Z.mul_pos_pos; try lia; apply Z.pow_pos_nonneg; lia.
Qed.

(** The decimal [s * 10^p] that Number::toString writes has [s] positive. *)
Lemma shortest_pos (m : positive) (e : Z) : 0 < fst (shortest m e).
Proof.
  pose proof (exact_decimal_pos m e) as HX.
  unfold shortest. destruct (exact_decimal m e) as [X P]. cbn [fst] in HX.
  set (nd := Z.of_nat (String.length (digits X))).
  pose proof (shortest_from_nonneg (S754_finite false m e) X P nd (Z.to_nat (nd - 1))
                ltac:(lia) 1) as Hn.
  destruct (shortest_from_cases (S754_finite false m e) X P nd (Z.to_nat (nd - 1)) 1)
    as [Hy|Hx].
  - apply same_value_eq in Hy.
    destruct (Z.eq_dec (fst (shortest_from (S754_finite false m e) X P nd (Z.to_nat (nd - 1)) 1)) 0)
      as [E|E]; [|lia].
    rewrite E, of_decimal_zero in Hy. discriminate Hy.
  - rewrite Hx. exact HX.
Qed.

(** For a double, that decimal denotes it. *)
Lemma shortest_spec (m : positive) (e : Z) :
  bounded prec emax m e = true ->
  of_decimal false (fst (shortest m e)) (snd (shortest m e)) = S754_finite false m e.
Proof.
  intros Hb. pose proof (exact_decimal_yields m e Hb) as Hexact.
  unfold shortest. destruct (exact_decimal m e) as [X P]. cbn [fst snd] in Hexact.
  set (nd := Z.of_nat (String.length (digits X))).
  destruct (shortest_from_cases (S754_finite false m e) X P nd (Z.to_nat (nd - 1)) 1)
    as [Hy|Hx].
  - apply same_value_eq, Hy.
  - rewrite Hx. exact Hexact.
Qed.

End NumberFacts.

(** ** The JSON codec *)

Module JSONFacts.
Import JSON.


Lemma append_assoc (a b c : string) : ((a ++ b) ++ c = a ++ (b ++ c))%string.
Proof. induction a as [|x a IH]; cbn; [reflexivity | rewrite IH; reflexivity]. Qed.

Lemma append_empty_r (a : string) : (a ++ "")%string = a.
Proof. induction a as [|x a IH]; cbn; [reflexivity | rewrite IH; reflexivity]. Qed.

Lemma length_append (a b : string) :
  String.length (a ++ b) = (String.length a + String.length b)%nat.
Proof. induction a as [|x a IH]; cbn; [reflexivity | rewrite IH; reflexivity]. Qed.

(** *** Digits *)

(** A text of digits is read whole, up to what follows it. *)
Lemma read_digits_app (a b d r : string) :
  read_digits a = (a, "") -> read_digits b = (d, r) ->
  read_digits (a ++ b) = (a ++ d, r).
Proof.
  revert b d r. induction a as [|c a IH]; intros b d r Ha Hb.
  - exact Hb.
  - cbn [append read_digits] in *. destruct (is_digit c); [|discriminate Ha].
    destruct (read_digits a) as [ds rest] eqn:E. inversion Ha; subst.
    rewrite (IH b d r eq_refl Hb). reflexivity.
Qed.

Lemma read_digits_string_of_uint (u : Decimal.uint) :
  read_digits (NilEmpty.string_of_uint u) = (NilEmpty.string_of_uint u, "").
Proof.
  induction u as [|u IH|u IH|u IH|u IH|u IH|u IH|u IH|u IH|u IH|u IH];
    cbn [NilEmpty.string_of_uint read_digits]; [reflexivity|..];
    match goal with |- context [is_digit ?c] => change (is_digit c) with true end;
    cbv iota; rewrite IH; reflexivity.
Qed.

Lemma digits_value_from_app (a b : string) :
  forall acc, digits_value_from acc (a ++ b) = digits_value_from (digits_value_from acc a) b.
Proof. induction a as [|c a IH]; intros acc; cbn; [reflexivity | apply IH]. Qed.

Lemma digits_value_from_zeros (j : nat) :
  forall acc, digits_value_from acc (Number.zeros j) = acc * 10 ^ Z.of_nat j.
Proof.
  induction j as [|j IH]; intros acc.
  - cbn. lia.
  - cbn [Number.zeros digits_value_from]. rewrite IH.
    change (digit_value "0") with 0. rewrite Nat2Z.inj_succ, Z.pow_succ_r by lia. ring.
Qed.

Lemma digits_value_from_uint (u : Decimal.uint) :
  forall acc, digits_value_from (Z.pos acc) (NilEmpty.string_of_uint u)
              = Z.pos (Pos.of_uint_acc u acc).
Proof.
  induction u as [|u IH|u IH|u IH|u IH|u IH|u IH|u IH|u IH|u IH|u IH]; intros acc;
    cbn [NilEmpty.string_of_uint digits_value_from Pos.of_uint_acc]; [reflexivity|..];
    rewrite <- IH; f_equal;
    match goal with |- context [digit_value ?c] =>
      let v := eval vm_compute in (digit_value c) in change (digit_value c) with v
    end; lia.
Qed.

Lemma digits_value_uint (u : Decimal.uint) :
  digits_value (NilEmpty.string_of_uint u) = Z.of_N (Pos.of_uint u).
Proof.
  unfold digits_value.
  induction u as [|u IH|u IH|u IH|u IH|u IH|u IH|u IH|u IH|u IH|u IH];
    cbn [NilEmpty.string_of_uint digits_value_from Pos.of_uint]; [reflexivity| exact IH |..];
    match goal with |- context [digit_value ?c] =>
      let v := eval vm_compute in (digit_value c) in change (digit_value c) with v
    end; cbn [Z.mul Z.add Z.of_N]; apply digits_value_from_uint.
Qed.

(** The digits of a positive number start with a digit other than 0. *)
Lemma to_uint_leading (p : positive) :
  match Pos.to_uint p with
  | Decimal.Nil | Decimal.D0 _ => False
  | _ => True
  end.
Proof.
  pose proof (DecimalPos.Unsigned.to_uint_nonnil p) as Hnil.
  pose proof (DecimalPos.Unsigned.to_uint_nonzero p) as Hzero.
  assert (Decimal.unorm (Pos.to_uint p) = Pos.to_uint p) as Hnorm.
  { rewrite <- DecimalPos.Unsigned.to_of, DecimalPos.Unsigned.of_to. reflexivity. }
  destruct (Pos.to_uint p) as [|d|d|d|d|d|d|d|d|d|d]; try exact I; [congruence|].
  rewrite DecimalFacts.unorm_D0 in Hnorm.
  destruct d as [|d|d|d|d|d|d|d|d|d|d]; [apply Hzero; reflexivity | ..].
  all: match type of Hnorm with Decimal.unorm ?u = _ =>
         assert (u <> Decimal.Nil) as Hu by discriminate;
         pose proof (DecimalFacts.nb_digits_unorm u Hu) as Hlen;
         rewrite Hnorm in Hlen; cbn in Hlen; lia
       end.
Qed.

(** The digits of a natural number: a text of digits that denotes it. *)
Lemma digits_spec (s : Z) :
  0 <= s ->
  read_digits (Number.digits s) = (Number.digits s, "") /\
  digits_value (Number.digits s) = s /\
  Number.digits s <> "".
Proof.
  intros Hs. unfold Number.digits. destruct s as [|p|p]; [| |lia].
  - cbn. repeat split; discriminate.
  - cbn [Z.to_int NilEmpty.string_of_int]. split; [apply read_digits_string_of_uint|].
    split.
    + rewrite digits_value_uint, DecimalPos.Unsigned.of_to. reflexivity.
    + pose proof (to_uint_leading p) as H.
      destruct (Pos.to_uint p); try contradiction; discriminate.
Qed.

(** The first digit of a positive number is not 0. *)
Lemma digits_leading (s : Z) :
  0 < s ->
  exists c ds, Number.digits s = String c ds /\ is_digit c = true /\
               (c =? "0")%char = false /\ (c =? "-")%char = false.
Proof.
  intros Hs. unfold Number.digits. destruct s as [|p|p]; try lia.
  cbn [Z.to_int NilEmpty.string_of_int].
  pose proof (to_uint_leading p) as H.
  destruct (Pos.to_uint p); try contradiction; cbn [NilEmpty.string_of_uint];
    eexists _, _; (split; [reflexivity|]); repeat split; reflexivity.
Qed.

Lemma take_drop (n : nat) (s : string) : (Number.take n s ++ Number.drop n s)%string = s.
Proof.
  revert s. induction n as [|n IH]; intros s; [reflexivity|].
  destruct s as [|c s]; [reflexivity|]. cbn. rewrite IH. reflexivity.
Qed.

Lemma length_take (n : nat) (s : string) :
  (n <= String.length s)%nat -> String.length (Number.take n s) = n.
Proof.
  revert s. induction n as [|n IH]; intros s Hn; [reflexivity|].
  destruct s as [|c s]; cbn in *; [lia|]. rewrite IH; lia.
Qed.

Lemma length_drop (n : nat) (s : string) :
  String.length (Number.drop n s) = (String.length s - n)%nat.
Proof.
  revert s. induction n as [|n IH]; intros s; [cbn; lia|].
  destruct s as [|c s]; cbn; [reflexivity|]. apply IH.
Qed.

Lemma read_digits_take (n : nat) (s : string) :
  read_digits s = (s, "") -> read_digits (Number.take n s) = (Number.take n s, "").
Proof.
  revert s. induction n as [|n IH]; intros s Hs; [reflexivity|].
  destruct s as [|c s]; [reflexivity|]. cbn [Number.take read_digits] in *.
  destruct (is_digit c); [|discriminate Hs].
  destruct (read_digits s) as [ds rest] eqn:E. inversion Hs; subst.
  rewrite (IH s E). reflexivity.
Qed.

Lemma read_digits_drop (n : nat) (s : string) :
  read_digits s = (s, "") -> read_digits (Number.drop n s) = (Number.drop n s, "").
Proof.
  revert s. induction n as [|n IH]; intros s Hs; [destruct s; exact Hs|].
  destruct s as [|c s]; [reflexivity|]. cbn [Number.drop read_digits] in *.
  destruct (is_digit c); [|discriminate Hs].
  destruct (read_digits s) as [ds rest] eqn:E. inversion Hs; subst.
  apply IH, E.
Qed.

Lemma read_digits_zeros (j : nat) : read_digits (Number.zeros j) = (Number.zeros j, "").
Proof.
  induction j as [|j IH]; [reflexivity|]. cbn [Number.zeros read_digits].
  change (is_digit "0") with true. cbv iota. rewrite IH. reflexivity.
Qed.

Lemma length_zeros (j : nat) : String.length (Number.zeros j) = j.
Proof. induction j as [|j IH]; cbn; [reflexivity | rewrite IH; reflexivity]. Qed.

Lemma read_digits_all_app (a b : string) :
  read_digits a = (a, "") -> read_digits b = (b, "") -> read_digits (a ++ b) = (a ++ b, "").
Proof. intros Ha Hb. apply read_digits_app; assumption. Qed.

(** *** Numbers *)

(** What follows a value inside an array or an object ends a number. *)
Lemma delimited_ends_number (rest : string) :
  delimited rest = true ->
  read_digits rest = ("", rest) /\ read_fraction rest = Some ("", rest) /\
  read_exponent rest = Some (0, rest).
Proof.
  destruct rest as [|c rest]; [repeat split; reflexivity|].
  destruct c as [[] [] [] [] [] [] [] []]; cbn; intros H; try discriminate H;
    repeat split; reflexivity.
Qed.

Lemma read_integer_digits (a tail : string) (c : ascii) (a' : string) :
  a = String c a' -> (c =? "0")%char = false \/ a' = "" ->
  read_digits a = (a, "") -> read_digits tail = ("", tail) ->
  read_integer (a ++ tail) = Some (a, tail).
Proof.
  intros Ha Hlead Hread Htail. unfold read_integer.
  rewrite (read_digits_app a tail "" tail Hread Htail), append_empty_r. subst a.
  destruct a' as [|c' a']; [reflexivity|].
  destruct Hlead as [H|H]; [rewrite H; reflexivity | discriminate H].
Qed.

Lemma read_fraction_digits (frac tail : string) :
  frac <> "" -> read_digits frac = (frac, "") -> read_digits tail = ("", tail) ->
  read_fraction (String "." (frac ++ tail)) = Some (frac, tail).
Proof.
  intros Hne Hread Htail. unfold read_fraction. change ("." =? ".")%char with true. cbv iota.
  rewrite (read_digits_app frac tail "" tail Hread Htail), append_empty_r.
  destruct frac; [contradiction|reflexivity].
Qed.

Lemma read_exponent_digits (E : Z) (rest : string) :
  delimited rest = true ->
  read_exponent (String "e" ((if E <? 0 then "-" else "+") ++ Number.digits (Z.abs E) ++ rest))
  = Some (E, rest).
Proof.
  intros Hrest. destruct (delimited_ends_number rest Hrest) as (Hd & _ & _).
  destruct (digits_spec (Z.abs E) ltac:(lia)) as (Hread & Hval & Hne).
  unfold read_exponent. change (("e" =? "e")%char || ("e" =? "E")%char) with true. cbv iota.
  destruct (Z.ltb_spec E 0) as [Hneg|Hpos]; cbn [append].
  - change ("-" =? "-")%char with true. cbv iota.
    rewrite (read_digits_app _ rest "" rest Hread Hd), append_empty_r.
    destruct (Number.digits (Z.abs E)); [contradiction|]. rewrite Hval. f_equal. f_equal. lia.
  - change ("+" =? "-")%char with false. change ("+" =? "+")%char with true. cbv iota.
    rewrite (read_digits_app _ rest "" rest Hread Hd), append_empty_r.
    destruct (Number.digits (Z.abs E)); [contradiction|]. rewrite Hval. f_equal. f_equal. lia.
Qed.

(** The text Number::toString gives a positive decimal is read back as the
    Number value of that decimal. *)
Lemma parse_unsigned_format (negative : bool) (s p : Z) (rest : string) :
  0 < s -> delimited rest = true ->
  parse_unsigned negative (Number.format_decimal (s, p) ++ rest)
  = Some (Number.of_decimal negative s p, rest).
Proof.
  intros Hs Hrest.
  destruct (delimited_ends_number rest Hrest) as (Hd & Hf & He).
  destruct (digits_spec s ltac:(lia)) as (Hread & Hval & _).
  destruct (digits_leading s Hs) as (c0 & ds0 & Hds & Hdig & Hz & Hm).
  unfold Number.format_decimal. cbn [fst snd].
  set (ds := Number.digits s) in *.
  set (k := Z.of_nat (String.length ds)). cbv zeta.
  assert (k = Z.of_nat (String.length ds0) + 1) as Hk.
  { subst k. rewrite Hds. cbn [String.length]. lia. }
  unfold digits_value in Hval.
  destruct ((k <=? p + k) && (p + k <=? 21)) eqn:Ca.
  { (* digits and zeros *)
    apply andb_prop in Ca. destruct Ca as [Ca _]. apply Z.leb_le in Ca.
    unfold parse_unsigned.
    rewrite (read_integer_digits (ds ++ Number.zeros (Z.to_nat (p + k - k))) rest c0
               (ds0 ++ Number.zeros (Z.to_nat (p + k - k))));
      [| rewrite Hds; reflexivity | left; exact Hz
       | apply read_digits_all_app; [exact Hread | apply read_digits_zeros] | exact Hd].
    rewrite Hf, He, append_empty_r. unfold digits_value.
    rewrite digits_value_from_app, Hval, digits_value_from_zeros.
    cbn [String.length Z.of_nat]. f_equal. f_equal.
    rewrite Z2Nat.id by lia. replace (p + k - k) with p by lia.
    unfold Number.of_decimal. change (0 <=? 0 - 0) with true.
    assert ((0 <=? p) = true) as -> by (apply Z.leb_le; lia).
    cbv iota. change (10 ^ (0 - 0)) with 1. rewrite Z.mul_1_r. reflexivity. }
  destruct ((0 <? p + k) && (p + k <=? 21)) eqn:Cb.
  { (* a point among the digits *)
    apply andb_prop in Cb. destruct Cb as [Cb Cb']. apply Z.ltb_lt in Cb. apply Z.leb_le in Cb'.
    assert (p + k < k) as Hlt.
    { destruct (Z.leb_spec k (p + k)) as [H|H]; [|lia].
      rewrite (proj2 (Z.leb_le _ _) Cb') in Ca. discriminate Ca. }
    set (n := Z.to_nat (p + k)).
    assert (n = S (pred n)) as Hn by lia.
    assert (n < String.length ds)%nat as Hnk by lia.
    unfold parse_unsigned. rewrite !append_assoc.
    rewrite (read_integer_digits (Number.take n ds) _ c0 (Number.take (pred n) ds0));
      [| rewrite Hn, Hds; reflexivity | left; exact Hz
       | apply read_digits_take, Hread | reflexivity].
    cbn [append].
    rewrite (read_fraction_digits (Number.drop n ds) rest);
      [| intros E; pose proof (length_drop n ds) as HL; rewrite E in HL; cbn in HL; lia
       | apply read_digits_drop, Hread | exact Hd].
    rewrite He, take_drop. unfold digits_value. rewrite Hval, length_drop.
    f_equal. f_equal. f_equal. lia. }
  destruct ((-6 <? p + k) && (p + k <=? 0)) eqn:Cc.
  { (* zeros after the point *)
    apply andb_prop in Cc. destruct Cc as [_ Cc]. apply Z.leb_le in Cc.
    unfold parse_unsigned. rewrite !append_assoc. cbn [append].
    match goal with |- context [read_integer (String "0" ?tail)] =>
      pose proof (read_integer_digits "0" tail "0" "" eq_refl (or_intror eq_refl)
                    eq_refl eq_refl) as Hint
    end.
    cbn [append] in Hint. rewrite Hint. clear Hint. cbv beta iota.
    rewrite <- append_assoc.
    rewrite (read_fraction_digits (Number.zeros (Z.to_nat (- (p + k))) ++ ds) rest);
      [| rewrite Hds; destruct (Number.zeros _); discriminate
       | apply read_digits_all_app; [apply read_digits_zeros | exact Hread] | exact Hd].
    rewrite He. unfold digits_value. cbn [append digits_value_from].
    change (10 * 0 + digit_value "0") with 0.
    rewrite digits_value_from_app, digits_value_from_zeros, Z.mul_0_l, Hval.
    rewrite length_append, length_zeros. f_equal. f_equal. f_equal. lia. }
  (* with an exponent *)
  unfold parse_unsigned. destruct (Z.eqb_spec k 1) as [K1|K1].
  - assert (ds0 = "") as -> by (destruct ds0; [reflexivity | cbn in Hk; lia]).
    rewrite !append_assoc. cbn [append].
    rewrite (read_integer_digits ds _ c0 ""); [| exact Hds | right; reflexivity
                                               | exact Hread | reflexivity].
    cbn [read_fraction]. change ("e" =? ".")%char with false. cbv iota.
    rewrite (read_exponent_digits (p + k - 1) rest Hrest).
    rewrite append_empty_r. unfold digits_value. rewrite Hval.
    cbn [String.length Z.of_nat]. f_equal. f_equal. f_equal. lia.
  - rewrite !append_assoc.
    rewrite (read_integer_digits (Number.take 1 ds) _ c0 "");
      [| rewrite Hds; reflexivity | right; reflexivity
       | apply read_digits_take, Hread | reflexivity].
    cbn [append].
    rewrite (read_fraction_digits (Number.drop 1 ds) _);
      [| rewrite Hds; cbn [Number.drop]; destruct ds0; [cbn in Hk; lia | discriminate]
       | apply read_digits_drop, Hread | reflexivity].
    rewrite (read_exponent_digits (p + k - 1) rest Hrest).
    rewrite take_drop. unfold digits_value. rewrite Hval, length_drop.
    f_equal. f_equal. f_equal. lia.
Qed.

Lemma format_decimal_start (s p : Z) :
  0 < s ->
  exists c t, Number.format_decimal (s, p) = String c t /\ is_digit c = true.
Proof.
  intros Hs. destruct (digits_leading s Hs) as (c0 & ds0 & Hds & Hdig & _ & _).
  unfold Number.format_decimal. cbn [fst snd]. rewrite Hds. cbv zeta.
  set (k := Z.of_nat (String.length (String c0 ds0))).
  destruct ((k <=? p + k) && (p + k <=? 21)).
  { cbn [append]. eexists _, _. split; [reflexivity | exact Hdig]. }
  destruct ((0 <? p + k) && (p + k <=? 21)) eqn:Cb.
  { apply andb_prop in Cb. destruct Cb as [Cb _]. apply Z.ltb_lt in Cb.
    assert (Z.to_nat (p + k) = S (pred (Z.to_nat (p + k)))) as -> by lia.
    cbn [Number.take append]. eexists _, _. split; [reflexivity | exact Hdig]. }
  destruct ((-6 <? p + k) && (p + k <=? 0)).
  { cbn [append]. eexists _, _. split; reflexivity. }
  destruct (k =? 1); cbn [Number.take append]; eexists _, _; (split; [reflexivity | exact Hdig]).
Qed.

Lemma is_digit_not_minus (c : ascii) : is_digit c = true -> (c =? "-")%char = false.
Proof. intros H. destruct (Ascii.eqb_spec c "-") as [->|_]; [discriminate H | reflexivity]. Qed.

(** The text of a finite double is read back as that double, [-0] as [+0]. *)
Lemma parse_number_toString (x : spec_float) (rest : string) :
  Number.is_double x = true -> Number.is_finite x = true -> delimited rest = true ->
  parse_number (Number.toString x ++ rest) = Some (Number.unsigned_zero x, rest).
Proof.
  intros Hdouble Hfinite Hrest.
  destruct x as [s|s| |negative m e]; try discriminate Hfinite.
  - destruct (delimited_ends_number rest Hrest) as (Hd & Hf & He).
    cbn [Number.toString Number.unsigned_zero append parse_number].
    change ("0" =? "-")%char with false. cbv iota. unfold parse_unsigned.
    pose proof (read_integer_digits "0" rest "0" "" eq_refl (or_intror eq_refl) eq_refl Hd)
      as Hint.
    cbn [append] in Hint. rewrite Hint, Hf, He. reflexivity.
  - pose proof (NumberFacts.shortest_pos m e) as Hpos.
    pose proof (NumberFacts.shortest_spec m e Hdouble) as Hyields.
    destruct (Number.shortest m e) as [s p] eqn:Hsp. cbn [fst snd] in Hpos, Hyields.
    cbn [Number.toString Number.unsigned_zero]. rewrite Hsp.
    destruct negative.
    + cbn [append parse_number]. change ("-" =? "-")%char with true. cbv iota.
      rewrite (parse_unsigned_format true s p rest Hpos Hrest).
      rewrite (NumberFacts.of_decimal_sign true s p m e Hyields). reflexivity.
    + cbn [append]. pose proof (parse_unsigned_format false s p rest Hpos Hrest) as Hparse.
      destruct (format_decimal_start s p Hpos) as (c & t & Hfmt & Hdig).
      rewrite Hfmt in *. cbn [append parse_number] in *.
      rewrite (is_digit_not_minus c Hdig), Hparse, Hyields. reflexivity.
Qed.

(** The text of a finite double starts as a number does. *)
Lemma toString_start (x : spec_float) :
  Number.is_finite x = true ->
  exists c t, Number.toString x = String c t /\ number_start c = true.
Proof.
  intros Hfinite.
  destruct x as [s|s| |negative m e]; try discriminate Hfinite.
  - exists "0"%char, "". split; reflexivity.
  - pose proof (NumberFacts.shortest_pos m e) as Hpos.
    destruct (Number.shortest m e) as [s p] eqn:Hsp. cbn [fst] in Hpos.
    cbn [Number.toString]. rewrite Hsp. destruct negative.
    + eexists _, _. split; reflexivity.
    + destruct (format_decimal_start s p Hpos) as (c & t & Hfmt & Hdig).
      rewrite Hfmt. exists c, t. split; [reflexivity|].
      unfold number_start. rewrite Hdig. apply orb_true_r.
Qed.

Ltac div_lia := zify; Z.to_euclidean_division_equations; lia.

(** *** Strings *)

(** Three ways a string literal goes on: a plain character, a
    two-character escape, a [\u] escape. *)
Lemma parse_chars_plain (c : ascii) (rest : string) :
  (nat_of_ascii c =? 34)%nat = false ->
  (nat_of_ascii c =? 92)%nat = false ->
  (nat_of_ascii c <? 32)%nat = false ->
  parse_chars (String c rest) = prepend (String c "") (parse_chars rest).
Proof.
  intros Hq Hb Hc. cbn [parse_chars].
  assert ((c =? dquote)%char = false) as ->.
  { apply Ascii.eqb_neq. intros ->. discriminate Hq. }
  assert ((c =? "\")%char = false) as ->.
  { apply Ascii.eqb_neq. intros ->. discriminate Hb. }
  rewrite Hc. reflexivity.
Qed.

Lemma parse_chars_escape (e ch : ascii) (rest : string) :
  (e =? "u")%char = false ->
  unescape e = Some ch ->
  parse_chars (String "\" (String e rest)) = prepend (String ch "") (parse_chars rest).
Proof.
  intros Hu He. cbn [parse_chars].
  change ("\" =? dquote)%char with false. change ("\" =? "\")%char with true.
  cbv iota. rewrite Hu, He. reflexivity.
Qed.

Lemma parse_chars_unicode (h1 h2 h3 h4 : ascii) (unit : N) (tail : string) :
  hex4_value h1 h2 h3 h4 = Some unit ->
  is_high_surrogate unit = false \/ no_low_escape tail ->
  parse_chars (String "\" (String "u" (String h1 (String h2 (String h3 (String h4 tail))))))
  = prepend (utf8_encode unit) (parse_chars tail).
Proof.
  intros Hhex Hlone. cbn [parse_chars].
  change ("\" =? dquote)%char with false. change ("\" =? "\")%char with true.
  change ("u" =? "u")%char with true. cbv iota. rewrite Hhex.
  destruct (is_high_surrogate unit) eqn:Hhigh; [|reflexivity].
  destruct Hlone as [H|Hno]; [discriminate H|].
  destruct tail as [|b [|u [|g1 [|g2 [|g3 [|g4 rest]]]]]]; try reflexivity.
  rewrite (Hno b u g1 g2 g3 g4 rest eq_refl). reflexivity.
Qed.

Lemma hex_value_hex_digit (k : nat) : (k < 16)%nat -> hex_value (hex_digit k) = Some k.
Proof.
  intros H. do 16 (destruct k as [|k]; [reflexivity|]). lia.
Qed.

(** The four digits of UnicodeEscape name the code unit. *)
Lemma hex4_value_unicode_escape (unit : N) :
  (unit < 65536)%N ->
  hex4_value (hex_digit (N.to_nat (unit / 4096)))
             (hex_digit (N.to_nat ((unit / 256) mod 16)))
             (hex_digit (N.to_nat ((unit / 16) mod 16)))
             (hex_digit (N.to_nat (unit mod 16))) = Some unit.
Proof.
  intros Hu. unfold hex4_value.
  rewrite !hex_value_hex_digit by div_lia. rewrite !N2Nat.id. f_equal. div_lia.
Qed.

(** Three bytes that stand for a surrogate are the encoding of its code. *)
Lemma surrogate_unit_spec (c1 c2 c3 : ascii) (unit : N) :
  surrogate_unit c1 c2 c3 = Some unit ->
  utf8_encode unit = String c1 (String c2 (String c3 "")) /\
  (55296 <= unit < 57344)%N /\
  N_of_ascii c1 = 237%N /\ (160 <= N_of_ascii c2 <= 191)%N /\ (128 <= N_of_ascii c3 <= 191)%N.
Proof.
  unfold surrogate_unit. cbv zeta.
  destruct (N.eqb_spec (N_of_ascii c1) 237) as [H1|]; [|discriminate].
  destruct (N.leb_spec 160 (N_of_ascii c2)) as [H2|]; [|discriminate].
  destruct (N.leb_spec (N_of_ascii c2) 191) as [H3|]; [|discriminate].
  destruct (N.leb_spec 128 (N_of_ascii c3)) as [H4|]; [|discriminate].
  destruct (N.leb_spec (N_of_ascii c3) 191) as [H5|]; [|discriminate].
  intros H. remember (N_of_ascii c2) as n2 eqn:E2. remember (N_of_ascii c3) as n3 eqn:E3.
  assert (unit = 53248 + (n2 - 128) * 64 + (n3 - 128))%N as -> by (cbv beta iota delta [andb] in H; congruence).
  split; [|split; [lia | split; [exact H1 | split; lia]]].
  unfold utf8_encode.
  assert ((53248 + (n2 - 128) * 64 + (n3 - 128) <? 128)%N = false) as -> by (apply N.ltb_ge; lia).
  assert ((53248 + (n2 - 128) * 64 + (n3 - 128) <? 2048)%N = false) as -> by (apply N.ltb_ge; lia).
  assert ((53248 + (n2 - 128) * 64 + (n3 - 128) <? 65536)%N = true) as -> by (apply N.ltb_lt; lia).
  replace (224 + (53248 + (n2 - 128) * 64 + (n3 - 128)) / 4096)%N with 237%N by div_lia.
  replace (128 + ((53248 + (n2 - 128) * 64 + (n3 - 128)) / 64) mod 64)%N with n2 by div_lia.
  replace (128 + (53248 + (n2 - 128) * 64 + (n3 - 128)) mod 64)%N with n3 by div_lia.
  rewrite <- H1, E2, E3, !ascii_N_embedding. reflexivity.
Qed.

(** A byte of the encoding of a surrogate is copied as it is. *)
Lemma parse_chars_high_byte (c : ascii) (rest : string) :
  (128 <= N_of_ascii c)%N ->
  parse_chars (String c rest) = prepend (String c "") (parse_chars rest).
Proof.
  intros H. unfold nat_of_ascii in *.
  apply parse_chars_plain; unfold nat_of_ascii;
    [apply Nat.eqb_neq | apply Nat.eqb_neq | apply Nat.ltb_ge]; lia.
Qed.

Lemma prepend_prepend (a b : string) (r : option (string * string)) :
  prepend a (prepend b r) = prepend (a ++ b) r.
Proof. destruct r as [[str rest]|]; cbn [prepend]; [rewrite append_assoc|]; reflexivity. Qed.

(** One character of QuoteJSONString is read back as that character. *)
Lemma parse_chars_quote_char (c : ascii) (tail : string) :
  parse_chars (quote_char c ++ tail) = prepend (String c "") (parse_chars tail).
Proof.
  unfold quote_char. cbv zeta.
  pose proof (ascii_nat_embedding c) as Hc.
  destruct (Nat.eqb_spec (nat_of_ascii c) 8) as [E|_].
  { rewrite <- Hc, E. apply parse_chars_escape; reflexivity. }
  destruct (Nat.eqb_spec (nat_of_ascii c) 9) as [E|_].
  { rewrite <- Hc, E. apply parse_chars_escape; reflexivity. }
  destruct (Nat.eqb_spec (nat_of_ascii c) 10) as [E|_].
  { rewrite <- Hc, E. apply parse_chars_escape; reflexivity. }
  destruct (Nat.eqb_spec (nat_of_ascii c) 12) as [E|_].
  { rewrite <- Hc, E. apply parse_chars_escape; reflexivity. }
  destruct (Nat.eqb_spec (nat_of_ascii c) 13) as [E|_].
  { rewrite <- Hc, E. apply parse_chars_escape; reflexivity. }
  destruct (Nat.eqb_spec (nat_of_ascii c) 34) as [E|Hq].
  { rewrite <- Hc, E. apply parse_chars_escape; reflexivity. }
  destruct (Nat.eqb_spec (nat_of_ascii c) 92) as [E|Hb].
  { rewrite <- Hc, E. apply parse_chars_escape; reflexivity. }
  destruct (Nat.ltb_spec (nat_of_ascii c) 32) as [Hlt|Hge].
  - cbn [append].
    rewrite (parse_chars_unicode "0" "0" _ _ (N.of_nat (nat_of_ascii c))).
    + unfold utf8_encode.
      assert ((N.of_nat (nat_of_ascii c) <? 128)%N = true) as -> by (apply N.ltb_lt; lia).
      unfold nat_of_ascii. rewrite N2Nat.id, ascii_N_embedding. reflexivity.
    + unfold hex4_value. change (hex_value "0") with (Some 0%nat).
      rewrite !hex_value_hex_digit.
      * f_equal. pose proof (Nat.div_mod_eq (nat_of_ascii c) 16). lia.
      * apply Nat.mod_upper_bound. lia.
      * apply Nat.Div0.div_lt_upper_bound. lia.
    + left. unfold is_high_surrogate. apply andb_false_intro1. apply N.leb_gt. lia.
  - cbn [append]. apply parse_chars_plain.
    + apply Nat.eqb_neq, Hq.
    + apply Nat.eqb_neq, Hb.
    + apply Nat.ltb_ge, Hge.
Qed.

(** Texts that do not start with the escape of a trailing surrogate. *)
Lemma no_low_escape_1 (b : ascii) (t : string) :
  (b =? "\")%char = false -> no_low_escape (String b t).
Proof.
  intros Hb b' u g1 g2 g3 g4 rest Heq. assert (b' = b) as -> by congruence.
  unfold low_surrogate_escape. rewrite Hb. reflexivity.
Qed.

Lemma no_low_escape_2 (u : ascii) (t : string) :
  (u =? "u")%char = false -> no_low_escape (String "\" (String u t)).
Proof.
  intros Hu b u' g1 g2 g3 g4 rest Heq. assert (u' = u) as -> by congruence.
  unfold low_surrogate_escape. rewrite Hu, andb_false_r. reflexivity.
Qed.

Lemma no_low_escape_6 (g1 g2 g3 g4 : ascii) (unit : N) (t : string) :
  hex4_value g1 g2 g3 g4 = Some unit -> is_low_surrogate unit = false ->
  no_low_escape (String "\" (String "u" (String g1 (String g2 (String g3 (String g4 t)))))).
Proof.
  intros Hhex Hlow b u h1 h2 h3 h4 rest Heq.
  assert (h1 = g1) as -> by congruence. assert (h2 = g2) as -> by congruence.
  assert (h3 = g3) as -> by congruence. assert (h4 = g4) as -> by congruence.
  unfold low_surrogate_escape. rewrite Hhex, Hlow. destruct (_ && _); reflexivity.
Qed.

(** What one character of QuoteJSONString starts with is no escape of a
    trailing surrogate. *)
Lemma quote_char_head (c : ascii) (tail : string) : no_low_escape (quote_char c ++ tail).
Proof.
  unfold quote_char. cbv zeta.
  destruct (Nat.eqb_spec (nat_of_ascii c) 8) as [E|_]; [apply no_low_escape_2; reflexivity|].
  destruct (Nat.eqb_spec (nat_of_ascii c) 9) as [E|_]; [apply no_low_escape_2; reflexivity|].
  destruct (Nat.eqb_spec (nat_of_ascii c) 10) as [E|_]; [apply no_low_escape_2; reflexivity|].
  destruct (Nat.eqb_spec (nat_of_ascii c) 12) as [E|_]; [apply no_low_escape_2; reflexivity|].
  destruct (Nat.eqb_spec (nat_of_ascii c) 13) as [E|_]; [apply no_low_escape_2; reflexivity|].
  destruct (Nat.eqb_spec (nat_of_ascii c) 34) as [E|_]; [apply no_low_escape_2; reflexivity|].
  destruct (Nat.eqb_spec (nat_of_ascii c) 92) as [E|Hb]; [apply no_low_escape_2; reflexivity|].
  destruct (Nat.ltb_spec (nat_of_ascii c) 32) as [Hlt|Hge].
  - pose proof (Nat.mod_upper_bound (nat_of_ascii c) 16 ltac:(lia)) as Hmod.
    pose proof (Nat.Div0.div_lt_upper_bound (nat_of_ascii c) 16 2 ltac:(lia)) as Hdiv.
    apply (no_low_escape_6 "0" "0" _ _
             (((N.of_nat 0 * 16 + N.of_nat 0) * 16 + N.of_nat (nat_of_ascii c / 16)) * 16
              + N.of_nat (nat_of_ascii c mod 16))%N).
    + unfold hex4_value. change (hex_value "0") with (Some 0%nat).
      rewrite !hex_value_hex_digit by lia. reflexivity.
    + unfold is_low_surrogate. apply andb_false_intro1, N.leb_gt. lia.
  - apply no_low_escape_1. apply Ascii.eqb_neq. intros ->. apply Hb. reflexivity.
Qed.

Lemma quote_chars_unfold (s : string) :
  quote_chars s =
  match s with
  | EmptyString => ""
  | String c1 rest1 =>
      match rest1 with
      | String c2 (String c3 rest3) =>
          match surrogate_unit c1 c2 c3 with
          | Some unit =>
              match rest3 with
              | String c4 (String c5 (String c6 rest6)) =>
                  match surrogate_unit c4 c5 c6 with
                  | Some unit' =>
                      if is_high_surrogate unit && is_low_surrogate unit' then
                        String c1 (String c2 (String c3
                          (String c4 (String c5 (String c6 (quote_chars rest6))))))
                      else unicode_escape unit ++ quote_chars rest3
                  | None => unicode_escape unit ++ quote_chars rest3
                  end
              | _ => unicode_escape unit ++ quote_chars rest3
              end
          | None => quote_char c1 ++ quote_chars rest1
          end
      | _ => quote_char c1 ++ quote_chars rest1
      end
  end.
Proof. destruct s; reflexivity. Qed.

Lemma unicode_escape_head (unit : N) (t : string) :
  (unit < 65536)%N -> is_low_surrogate unit = false ->
  no_low_escape (unicode_escape unit ++ t).
Proof.
  intros Hu Hlow. unfold unicode_escape. cbn [append].
  apply (no_low_escape_6 _ _ _ _ unit); [apply hex4_value_unicode_escape, Hu | exact Hlow].
Qed.

Lemma surrogate_byte_not_backslash (c : ascii) :
  (128 <= N_of_ascii c)%N -> (c =? "\")%char = false.
Proof. intros H. apply Ascii.eqb_neq. intros ->. cbn in H. lia. Qed.

(** After a string that does not start with a trailing surrogate, the
    quoted text does not start with the escape of one. *)
Lemma quote_chars_head (s rest : string) :
  no_low_surrogate s -> no_low_escape (quote_chars s ++ String dquote rest).
Proof.
  intros Hs. rewrite quote_chars_unfold.
  destruct s as [|c1 s1]; [apply no_low_escape_1; reflexivity|].
  assert (no_low_escape ((quote_char c1 ++ quote_chars s1) ++ String dquote rest)) as Hplain.
  { rewrite append_assoc. apply quote_char_head. }
  destruct s1 as [|c2 [|c3 s3]]; try exact Hplain. cbv iota.
  destruct (surrogate_unit c1 c2 c3) as [unit|] eqn:Hu; [|exact Hplain].
  pose proof (Hs c1 c2 c3 s3 unit eq_refl Hu) as Hlow.
  destruct (surrogate_unit_spec _ _ _ _ Hu) as (_ & Hrange & H1 & _ & _).
  assert (no_low_escape ((unicode_escape unit ++ quote_chars s3) ++ String dquote rest))
    as Hescape.
  { rewrite append_assoc. apply unicode_escape_head; [lia | exact Hlow]. }
  destruct s3 as [|c4 [|c5 [|c6 s6]]]; try exact Hescape. cbv iota.
  destruct (surrogate_unit c4 c5 c6) as [unit'|]; [|exact Hescape].
  destruct (is_high_surrogate unit && is_low_surrogate unit'); [|exact Hescape].
  cbn [append]. apply no_low_escape_1, surrogate_byte_not_backslash. lia.
Qed.

(** The characters QuoteJSONString writes between the quotes are read back
    as the string. *)
Lemma parse_chars_quote_chars_bounded (n : nat) :
  forall s rest, (String.length s <= n)%nat ->
  parse_chars (quote_chars s ++ String dquote rest) = Some (s, rest).
Proof.
  induction n as [|n IH]; intros s rest Hlen.
  { destruct s; [reflexivity | cbn in Hlen; lia]. }
  rewrite quote_chars_unfold.
  destruct s as [|c1 s1]; [reflexivity|]. cbn [String.length] in Hlen.
  assert (parse_chars ((quote_char c1 ++ quote_chars s1) ++ String dquote rest)
          = Some (String c1 s1, rest)) as Hplain.
  { rewrite append_assoc, parse_chars_quote_char, IH by lia. reflexivity. }
  destruct s1 as [|c2 [|c3 s3]]; try exact Hplain. cbv iota. cbn [String.length] in Hlen.
  destruct (surrogate_unit c1 c2 c3) as [unit|] eqn:Hu; [|exact Hplain].
  destruct (surrogate_unit_spec _ _ _ _ Hu) as (Hutf & Hrange & H1 & H2 & H3).
  assert (no_low_surrogate s3 \/ is_high_surrogate unit = false ->
          parse_chars ((unicode_escape unit ++ quote_chars s3) ++ String dquote rest)
          = Some (String c1 (String c2 (String c3 s3)), rest)) as Hescape.
  { intros Hcase. rewrite append_assoc. unfold unicode_escape. cbn [append].
    rewrite (parse_chars_unicode _ _ _ _ unit);
      [| apply hex4_value_unicode_escape; lia
       | destruct Hcase as [H|H]; [right; apply quote_chars_head, H | left; exact H]].
    rewrite IH by lia. cbn [prepend]. rewrite Hutf. reflexivity. }
  destruct s3 as [|c4 [|c5 [|c6 s6]]];
    try (apply Hescape; left; intros d1 d2 d3 r u' Heq; discriminate Heq).
  cbv iota. cbn [String.length] in Hlen.
  destruct (surrogate_unit c4 c5 c6) as [unit'|] eqn:Hu'.
  2:{ apply Hescape. left. intros d1 d2 d3 r u' Heq Hsu.
      assert (d1 = c4) as -> by congruence. assert (d2 = c5) as -> by congruence.
      assert (d3 = c6) as -> by congruence. congruence. }
  destruct (is_high_surrogate unit && is_low_surrogate unit') eqn:Hpair.
  - destruct (surrogate_unit_spec _ _ _ _ Hu') as (_ & _ & H4 & H5 & H6).
    cbn [append].
    rewrite !parse_chars_high_byte by lia. rewrite IH by lia. reflexivity.
  - apply Hescape. apply andb_false_iff in Hpair. destruct Hpair as [Hh|Hl]; [right; exact Hh|].
    left. intros d1 d2 d3 r u' Heq Hsu.
    assert (d1 = c4) as -> by congruence. assert (d2 = c5) as -> by congruence.
    assert (d3 = c6) as -> by congruence. congruence.
Qed.

Lemma parse_chars_quote_chars (s rest : string) :
  parse_chars (quote_chars s ++ String dquote rest) = Some (s, rest).
Proof. apply (parse_chars_quote_chars_bounded (String.length s)). lia. Qed.

(** *** Values *)

Lemma JsValue_nested_ind (P : JsValue -> Prop) :
  P JNull -> (forall b, P (JBool b)) -> (forall x, P (JNumber x)) ->
  (forall s, P (JString s)) ->
  (forall elems, Forall P elems -> P (JArray elems)) ->
  (forall props, Forall (fun kv => P (snd kv)) props -> P (JObject props)) ->
  forall v, P v.
Proof.
  intros Hnull Hbool Hnum Hstr Harr Hobj.
  fix IH 1. intros [| b | x | s | elems | props].
  - exact Hnull.
  - apply Hbool.
  - apply Hnum.
  - apply Hstr.
  - apply Harr. induction elems as [|e rest IHrest]; constructor; [apply IH | exact IHrest].
  - apply Hobj. induction props as [|[k e] rest IHrest]; constructor; [apply IH | exact IHrest].
Qed.

Lemma value_start_spec (c : ascii) :
  value_start c = true ->
  is_ws c = false /\ (c =? "]")%char = false /\ (c =? "}")%char = false.
Proof.
  destruct c as [[] [] [] [] [] [] [] []]; intros H; try discriminate H;
    repeat split; reflexivity.
Qed.

Lemma number_start_value_start (c : ascii) : number_start c = true -> value_start c = true.
Proof.
  destruct c as [[] [] [] [] [] [] [] []]; intros H; try discriminate H; reflexivity.
Qed.

Lemma quote_append (s rest : string) :
  (quote s ++ rest)%string = String dquote (quote_chars s ++ String dquote rest).
Proof. unfold quote. cbn [append]. rewrite append_assoc. reflexivity. Qed.

Lemma stringify_start (v : JsValue) :
  exists c s, stringify v = String c s /\ value_start c = true.
Proof.
  destruct v as [| [|] | x | s | elems | props]; cbn [stringify];
    try (eexists _, _; split; reflexivity).
  destruct (Number.is_finite x) eqn:Hfinite; [|eexists _, _; split; reflexivity].
  destruct (toString_start x Hfinite) as (c & s & -> & Hc).
  exists c, s. split; [reflexivity | apply number_start_value_start, Hc].
Qed.

Lemma skip_ws_start (c : ascii) (s : string) :
  is_ws c = false -> skip_ws (String c s) = String c s.
Proof. intros H. cbn [skip_ws]. rewrite H. reflexivity. Qed.

(** How [parse_value] goes on after the first character of a value. *)
Lemma parse_value_number (fuel : nat) (c : ascii) (s : string) :
  number_start c = true ->
  parse_value (S fuel) (String c s) =
  match parse_number (String c s) with
  | Some (x, rest) => Some (JNumber x, rest)
  | None => None
  end.
Proof.
  destruct c as [[] [] [] [] [] [] [] []]; intros H; try discriminate H; reflexivity.
Qed.

Lemma parse_value_string (fuel : nat) (s : string) :
  parse_value (S fuel) (String dquote s) =
  match parse_chars s with
  | Some (str, rest) => Some (JString str, rest)
  | None => None
  end.
Proof. reflexivity. Qed.

Lemma parse_value_array (fuel : nat) (s : string) :
  parse_value (S fuel) (String "[" s) =
  match skip_ws s with
  | String c rest =>
      if (c =? "]")%char then Some (JArray [], rest)
      else
        match parse_elements fuel s with
        | Some (elems, rest2) => Some (JArray elems, rest2)
        | None => None
        end
  | EmptyString => None
  end.
Proof. reflexivity. Qed.

Lemma parse_value_object (fuel : nat) (s : string) :
  parse_value (S fuel) (String "{" s) =
  match skip_ws s with
  | String c rest =>
      if (c =? "}")%char then Some (JObject [], rest)
      else
        match parse_members fuel s with
        | Some (members, rest2) => Some (build_object members, rest2)
        | None => None
        end
  | EmptyString => None
  end.
Proof. reflexivity. Qed.

Lemma parse_elements_S (fuel : nat) (s : string) :
  parse_elements (S fuel) s =
  match parse_value fuel s with
  | Some (v, rest) =>
      match skip_ws rest with
      | String c rest1 =>
          if (c =? ",")%char then
            match parse_elements fuel rest1 with
            | Some (vs, rest2) => Some (v :: vs, rest2)
            | None => None
            end
          else if (c =? "]")%char then Some ([v], rest1)
          else None
      | EmptyString => None
      end
  | None => None
  end.
Proof. reflexivity. Qed.

Lemma parse_members_S (fuel : nat) (s key rest : string) :
  parse_chars s = Some (key, String ":" rest) ->
  parse_members (S fuel) (String dquote s) =
  match parse_value fuel rest with
  | Some (v, rest3) =>
      match skip_ws rest3 with
      | String c rest4 =>
          if (c =? ",")%char then
            match parse_members fuel rest4 with
            | Some (kvs, rest5) => Some ((key, v) :: kvs, rest5)
            | None => None
            end
          else if (c =? "}")%char then Some ([(key, v)], rest4)
          else None
      | EmptyString => None
      end
  | None => None
  end.
Proof.
  intros H. cbn [parse_members]. rewrite skip_ws_start by reflexivity.
  change (dquote =? dquote)%char with true. cbv iota. rewrite H.
  rewrite skip_ws_start by reflexivity. reflexivity.
Qed.

(** *** Objects: the members of a text rebuild the object *)

(** A key that is new and that no key precedes goes last. *)
Lemma define_prop_fresh (key : string) (v : JsValue) (props : list (string * JsValue)) :
  existsb (String.eqb key) (List.map fst props) = false ->
  forallb (fun k => negb (precedes key k)) (List.map fst props) = true ->
  define_prop key v props = (props ++ [(key, v)])%list.
Proof.
  induction props as [|[k v0] props IH]; cbn; [reflexivity|].
  intros H Hord. apply orb_false_elim in H. destruct H as [Hk Hrest].
  apply andb_prop in Hord. destruct Hord as [Hp Hord]. apply negb_true_iff in Hp.
  rewrite String.eqb_sym, Hk, Hp, (IH Hrest Hord). reflexivity.
Qed.

Lemma keys_distinct_prefix (l m : list string) :
  keys_distinct (l ++ m) = true -> keys_distinct l = true.
Proof.
  induction l as [|x l IH]; cbn; [reflexivity|].
  intros H. apply andb_prop in H. destruct H as [Hx Hl].
  rewrite existsb_app in Hx. apply negb_true_iff, orb_false_elim in Hx.
  destruct Hx as [Hx _]. rewrite Hx. cbn. exact (IH Hl).
Qed.

Lemma keys_in_order_prefix (l m : list string) :
  keys_in_order (l ++ m) = true -> keys_in_order l = true.
Proof.
  induction l as [|x l IH]; cbn; [reflexivity|].
  intros H. apply andb_prop in H. destruct H as [Hx Hl].
  rewrite forallb_app in Hx. apply andb_prop in Hx. destruct Hx as [Hx _].
  rewrite Hx. cbn. exact (IH Hl).
Qed.

Lemma keys_distinct_last (keys : list string) (k : string) :
  keys_distinct (keys ++ [k]) = true -> existsb (String.eqb k) keys = false.
Proof.
  induction keys as [|k0 keys IH]; cbn; [reflexivity|].
  intros H. apply andb_prop in H. destruct H as [H0 H].
  apply negb_true_iff in H0. rewrite existsb_app in H0. apply orb_false_elim in H0.
  destruct H0 as [_ H0]. cbn in H0. rewrite orb_false_r in H0.
  rewrite String.eqb_sym, H0. cbn. exact (IH H).
Qed.

Lemma keys_in_order_last (keys : list string) (k : string) :
  keys_in_order (keys ++ [k]) = true ->
  forallb (fun k' => negb (precedes k k')) keys = true.
Proof.
  induction keys as [|k0 keys IH]; cbn; [reflexivity|].
  intros H. apply andb_prop in H. destruct H as [H0 H].
  rewrite forallb_app in H0. apply andb_prop in H0. destruct H0 as [_ H0].
  cbn in H0. rewrite andb_true_r in H0. rewrite H0. cbn. exact (IH H).
Qed.

Lemma fold_define_prop (members acc : list (string * JsValue)) :
  keys_distinct (List.map fst (acc ++ members)) = true ->
  keys_in_order (List.map fst (acc ++ members)) = true ->
  fold_left (fun props kv => define_prop (fst kv) (snd kv) props) members acc
  = (acc ++ members)%list.
Proof.
  revert acc. induction members as [|[k v] members IH]; intros acc Hd Ho;
    cbn [fold_left fst snd].
  - rewrite app_nil_r. reflexivity.
  - replace (acc ++ (k, v) :: members)%list with ((acc ++ [(k, v)]) ++ members)%list in *
      by (rewrite <- app_assoc; reflexivity).
    rewrite define_prop_fresh; [apply IH; assumption | |].
    + apply keys_distinct_last. rewrite List.map_app in Hd.
      apply keys_distinct_prefix in Hd. rewrite List.map_app in Hd. exact Hd.
    + apply keys_in_order_last. rewrite List.map_app in Ho.
      apply keys_in_order_prefix in Ho. rewrite List.map_app in Ho. exact Ho.
Qed.

Lemma build_object_ordered (members : list (string * JsValue)) :
  keys_distinct (List.map fst members) = true ->
  keys_in_order (List.map fst members) = true ->
  build_object members = JObject members.
Proof.
  intros Hd Ho. unfold build_object. rewrite (fold_define_prop members [] Hd Ho). reflexivity.
Qed.

Lemma map_fst_unsigned (props : list (string * JsValue)) :
  List.map fst (List.map (fun kv => (fst kv, unsigned_zeros (snd kv))) props)
  = List.map fst props.
Proof. rewrite List.map_map. apply List.map_ext. reflexivity. Qed.

(** *** A serialized value is read back *)

Lemma list_sum_cons (a : nat) (l : list nat) : list_sum (a :: l) = (a + list_sum l)%nat.
Proof. reflexivity. Qed.

Lemma serializable_array (elems : list JsValue) :
  serializable (JArray elems) = true -> forallb serializable elems = true.
Proof.
  unfold serializable. cbn [well_formed all_finite].
  induction elems as [|e elems IH]; [reflexivity|]. cbn [forallb]. intros H.
  apply andb_prop in H. destruct H as [Hw Hf].
  apply andb_prop in Hw. destruct Hw as [Hw Hws].
  apply andb_prop in Hf. destruct Hf as [Hf Hfs].
  rewrite Hw, Hf, IH; [reflexivity|]. rewrite Hws, Hfs. reflexivity.
Qed.

Lemma serializable_object (props : list (string * JsValue)) :
  serializable (JObject props) = true ->
  keys_distinct (List.map fst props) = true /\
  keys_in_order (List.map fst props) = true /\
  forallb (fun kv => serializable (snd kv)) props = true.
Proof.
  unfold serializable. cbn [well_formed all_finite]. intros H.
  apply andb_prop in H. destruct H as [Hw Hf].
  apply andb_prop in Hw. destruct Hw as [Hk Hw].
  apply andb_prop in Hk. destruct Hk as [Hd Ho].
  split; [exact Hd|]. split; [exact Ho|].
  clear Hd Ho. induction props as [|kv props IH]; [reflexivity|]. cbn [forallb] in *.
  apply andb_prop in Hw. destruct Hw as [Hw Hws].
  apply andb_prop in Hf. destruct Hf as [Hf Hfs].
  rewrite Hw, Hf, (IH Hws Hfs). reflexivity.
Qed.

Lemma parse_elements_join (elems : list JsValue) :
  elems <> [] -> Forall parses_back elems -> forallb serializable elems = true ->
  forall fuel rest,
    (list_sum (List.map (fun e => S (size e)) elems) <= fuel)%nat ->
    parse_elements fuel (join_comma (List.map stringify elems) ++ String "]" rest)
    = Some (List.map unsigned_zeros elems, rest).
Proof.
  induction elems as [|e elems IH]; [congruence|]. intros _ Hall Hwf fuel rest Hfuel.
  inversion Hall as [|? ? He Hrest]; subst.
  cbn [forallb] in Hwf. apply andb_prop in Hwf. destruct Hwf as [Hwe Hwrest].
  cbn [List.map] in Hfuel. rewrite list_sum_cons in Hfuel.
  destruct fuel as [|fuel]; [lia|]. rewrite parse_elements_S.
  destruct elems as [|e2 elems].
  - cbn [List.map join_comma].
    rewrite (He Hwe fuel (String "]" rest)) by (try reflexivity; lia).
    rewrite skip_ws_start by reflexivity. reflexivity.
  - change (join_comma (List.map stringify (e :: e2 :: elems)))
      with (stringify e ++ "," ++ join_comma (List.map stringify (e2 :: elems)))%string.
    rewrite !append_assoc. cbn [append].
    rewrite (He Hwe fuel) by (try reflexivity; lia).
    rewrite skip_ws_start by reflexivity.
    change ("," =? ",")%char with true. cbv iota.
    rewrite (IH ltac:(discriminate) Hrest Hwrest fuel rest) by lia.
    reflexivity.
Qed.

Lemma parse_members_join (props : list (string * JsValue)) :
  props <> [] -> Forall (fun kv => parses_back (snd kv)) props ->
  forallb (fun kv => serializable (snd kv)) props = true ->
  forall fuel rest,
    (list_sum (List.map (fun kv => S (size (snd kv))) props) <= fuel)%nat ->
    parse_members fuel (join_comma (List.map member_text props) ++ String "}" rest)
    = Some (List.map (fun kv => (fst kv, unsigned_zeros (snd kv))) props, rest).
Proof.
  induction props as [|[k v] props IH]; [congruence|]. intros _ Hall Hwf fuel rest Hfuel.
  inversion Hall as [|? ? Hv Hrest]; subst. cbn [snd] in Hv.
  cbn [forallb snd] in Hwf. apply andb_prop in Hwf. destruct Hwf as [Hwv Hwrest].
  cbn [List.map snd] in Hfuel. rewrite list_sum_cons in Hfuel.
  destruct fuel as [|fuel]; [lia|].
  destruct props as [|kv2 props].
  - cbn [List.map join_comma]. unfold member_text. cbn [fst snd].
    rewrite !append_assoc, quote_append. cbn [append].
    rewrite (parse_members_S fuel _ k (stringify v ++ String "}" rest))
      by apply parse_chars_quote_chars.
    rewrite (Hv Hwv fuel (String "}" rest)) by (try reflexivity; lia).
    rewrite skip_ws_start by reflexivity. reflexivity.
  - change (join_comma (List.map member_text ((k, v) :: kv2 :: props)))
      with (member_text (k, v) ++ "," ++ join_comma (List.map member_text (kv2 :: props)))%string.
    unfold member_text at 1. cbn [fst snd].
    rewrite !append_assoc, quote_append. cbn [append].
    rewrite (parse_members_S fuel _ k
               (stringify v ++ String "," (join_comma (List.map member_text (kv2 :: props))
                                            ++ String "}" rest)))
      by apply parse_chars_quote_chars.
    rewrite (Hv Hwv fuel) by (try reflexivity; lia).
    rewrite skip_ws_start by reflexivity.
    change ("," =? ",")%char with true. cbv iota.
    rewrite (IH ltac:(discriminate) Hrest Hwrest fuel rest)
      by lia.
    reflexivity.
Qed.

Lemma parse_value_stringify (v : JsValue) : parses_back v.
Proof.
  induction v as [| b | x | s | elems IH | props IH] using JsValue_nested_ind;
    intros Hwf fuel rest Hfuel Hrest; (destruct fuel as [|fuel]; [cbn in Hfuel; lia|]).
  - reflexivity.
  - destruct b; reflexivity.
  - unfold serializable in Hwf. cbn [well_formed all_finite] in Hwf.
    apply andb_prop in Hwf. destruct Hwf as [Hdouble Hfinite].
    cbn [stringify unsigned_zeros]. rewrite Hfinite.
    destruct (toString_start x Hfinite) as (c & s & Hs & Hc).
    pose proof (parse_number_toString x rest Hdouble Hfinite Hrest) as Hparse.
    rewrite Hs in *. cbn [append] in *.
    rewrite (parse_value_number fuel c _ Hc), Hparse. reflexivity.
  - cbn [stringify]. rewrite quote_append, parse_value_string, parse_chars_quote_chars.
    reflexivity.
  - apply serializable_array in Hwf.
    cbn [stringify size unsigned_zeros] in *. rewrite !append_assoc. cbn [append].
    rewrite parse_value_array.
    destruct elems as [|e elems]; [reflexivity|].
    rewrite (parse_elements_join (e :: elems) ltac:(discriminate) IH Hwf fuel rest) by lia.
    destruct (stringify_start e) as (c & s & Hs & Hc).
    destruct (value_start_spec c Hc) as (Hws & Hclose & _).
    assert (exists tail, (join_comma (List.map stringify (e :: elems)) ++ String "]" rest)%string
                         = String c tail) as [tail ->].
    { cbn [List.map]. destruct (List.map stringify elems); cbn [join_comma];
        rewrite Hs; cbn [append]; eexists; reflexivity. }
    rewrite (skip_ws_start c tail Hws), Hclose. reflexivity.
  - apply serializable_object in Hwf. destruct Hwf as (Hd & Ho & Hwf).
    cbn [stringify size unsigned_zeros] in *.
    rewrite !append_assoc. cbn [append]. rewrite parse_value_object.
    destruct props as [|[k v] props]; [reflexivity|].
    change (fun kv : string * JsValue => (quote (fst kv) ++ String ":" (stringify (snd kv)))%string)
      with member_text.
    rewrite (parse_members_join ((k, v) :: props) ltac:(discriminate) IH Hwf fuel rest) by lia.
    rewrite build_object_ordered by (rewrite map_fst_unsigned; assumption).
    assert (exists tail, (join_comma (List.map member_text ((k, v) :: props)) ++ String "}" rest)%string
                         = String dquote tail) as [tail ->].
    { cbn [List.map]. destruct (List.map member_text props); cbn [join_comma];
        unfold member_text at 1; cbn [fst]; rewrite !quote_append; eexists; reflexivity. }
    rewrite skip_ws_start by reflexivity. reflexivity.
Qed.

(** *** The fuel of [parse] is never exhausted *)

Lemma skip_ws_length (s : string) : (String.length (skip_ws s) <= String.length s)%nat.
Proof.
  induction s as [|c s IH]; cbn [skip_ws]; [lia|].
  destruct (is_ws c); cbn [String.length] in *; lia.
Qed.

Lemma skip_ws_cons_length (s rest : string) (c : ascii) :
  skip_ws s = String c rest -> (String.length rest < String.length s)%nat.
Proof.
  intros H. pose proof (skip_ws_length s) as Hlen. rewrite H in Hlen.
  cbn [String.length] in Hlen. lia.
Qed.

Lemma prepend_Some (bytes : string) (r : option (string * string)) (str rest : string) :
  prepend bytes r = Some (str, rest) -> exists str', r = Some (str', rest).
Proof.
  destruct r as [[str' rest']|]; cbn [prepend]; [|discriminate].
  intros H. inversion H; subst. exists str'. reflexivity.
Qed.

Lemma parse_chars_length (s str rest : string) :
  parse_chars s = Some (str, rest) -> (String.length rest < String.length s)%nat.
Proof.
  remember (String.length s) as n eqn:Hn. revert s str rest Hn.
  induction n as [n IH] using lt_wf_ind. intros s str rest Hn H. subst n.
  assert (forall t str', (String.length t < String.length s)%nat ->
                         parse_chars t = Some (str', rest) ->
                         (String.length rest < String.length t)%nat) as Hsub.
  { intros t str' Hlt Ht. exact (IH (String.length t) Hlt t str' rest eq_refl Ht). }
  clear IH.
  destruct s as [|c s]; [discriminate H|]. cbn [parse_chars] in H.
  destruct (c =? dquote)%char.
  { inversion H; subst. cbn [String.length]. lia. }
  destruct (c =? "\")%char.
  - destruct s as [|e s]; [discriminate H|].
    destruct (e =? "u")%char.
    + destruct s as [|h1 [|h2 [|h3 [|h4 s]]]]; try discriminate H.
      destruct (hex4_value h1 h2 h3 h4) as [unit|]; [|discriminate H].
      assert (forall bytes, prepend bytes (parse_chars s) = Some (str, rest) ->
                            (String.length rest
                             < String.length (String c (String e (String h1 (String h2
                                                (String h3 (String h4 s)))))))%nat) as Hlone.
      { intros bytes Hp. apply prepend_Some in Hp. destruct Hp as [str' Hp].
        apply Hsub in Hp; cbn [String.length] in *; lia. }
      destruct (is_high_surrogate unit); [|exact (Hlone _ H)].
      destruct s as [|b [|u [|g1 [|g2 [|g3 [|g4 s]]]]]]; try exact (Hlone _ H).
      destruct (low_surrogate_escape b u g1 g2 g3 g4); [|exact (Hlone _ H)].
      apply prepend_Some in H. destruct H as [str' H].
      apply Hsub in H; cbn [String.length] in *; lia.
    + destruct (unescape e); [|discriminate H].
      apply prepend_Some in H. destruct H as [str' H].
      apply Hsub in H; cbn [String.length] in *; lia.
  - destruct (nat_of_ascii c <? 32)%nat; [discriminate H|].
    apply prepend_Some in H. destruct H as [str' H].
    apply Hsub in H; cbn [String.length] in *; lia.
Qed.

Lemma read_digits_length (s : string) :
  (String.length (snd (read_digits s)) <= String.length s)%nat /\
  (fst (read_digits s) <> "" ->
   String.length (snd (read_digits s)) < String.length s)%nat.
Proof.
  induction s as [|c s [IH _]]; cbn [read_digits]; [split; [cbn; lia | cbn; congruence]|].
  destruct (is_digit c); [|split; [cbn; lia | cbn; congruence]].
  destruct (read_digits s) as [d rest]. cbn [fst snd String.length] in *. split; intros; lia.
Qed.

Lemma read_integer_length (s ds rest : string) :
  read_integer s = Some (ds, rest) -> (String.length rest < String.length s)%nat.
Proof.
  unfold read_integer. pose proof (read_digits_length s) as [_ Hlt].
  destruct (read_digits s) as [d0 rest0]. cbn [fst snd] in Hlt.
  destruct d0 as [|c [|c' d0]]; [discriminate| |destruct (c =? "0")%char; [discriminate|]];
    intros H; inversion H; subst; apply Hlt; discriminate.
Qed.

Lemma read_fraction_length (s ds rest : string) :
  read_fraction s = Some (ds, rest) -> (String.length rest <= String.length s)%nat.
Proof.
  unfold read_fraction. destruct s as [|c s]; [intros H; inversion H; subst; lia|].
  destruct (c =? ".")%char; [|intros H; inversion H; subst; lia].
  pose proof (read_digits_length s) as [Hle _].
  destruct (read_digits s) as [d0 rest0]. cbn [snd] in Hle.
  destruct d0; [discriminate|]. intros H; inversion H; subst. cbn [String.length]. lia.
Qed.

Lemma read_exponent_length (s rest : string) (ex : Z) :
  read_exponent s = Some (ex, rest) -> (String.length rest <= String.length s)%nat.
Proof.
  unfold read_exponent. destruct s as [|c s]; [intros H; inversion H; subst; lia|].
  destruct ((c =? "e")%char || (c =? "E")%char); [|intros H; inversion H; subst; lia].
  assert (forall t, (String.length t <= String.length s)%nat ->
            match (let '(ds, rest2) := read_digits t in
                   match ds with
                   | "" => None
                   | String _ _ => Some (ds, rest2)
                   end) with
            | Some (_, r) => (String.length r <= String.length s)%nat
            | None => True
            end) as Hdigits.
  { intros t Ht. pose proof (read_digits_length t) as [Hle _].
    destruct (read_digits t) as [d0 rest0]. cbn [snd] in Hle. destruct d0; [exact I | lia]. }
  destruct s as [|sign s'].
  - cbn. discriminate.
  - destruct (sign =? "-")%char;
      [|destruct (sign =? "+")%char].
    + specialize (Hdigits s' ltac:(cbn [String.length]; lia)).
      destruct (read_digits s') as [d0 rest0]. destruct d0; [discriminate|].
      intros H; inversion H; subst. cbn [String.length] in *. lia.
    + specialize (Hdigits s' ltac:(cbn [String.length]; lia)).
      destruct (read_digits s') as [d0 rest0]. destruct d0; [discriminate|].
      intros H; inversion H; subst. cbn [String.length] in *. lia.
    + specialize (Hdigits (String sign s') ltac:(lia)).
      destruct (read_digits (String sign s')) as [d0 rest0]. destruct d0; [discriminate|].
      intros H; inversion H; subst. cbn [String.length] in *. lia.
Qed.

Lemma parse_unsigned_length (negative : bool) (s rest : string) (x : spec_float) :
  parse_unsigned negative s = Some (x, rest) -> (String.length rest < String.length s)%nat.
Proof.
  unfold parse_unsigned.
  destruct (read_integer s) as [[int s1]|] eqn:Hint; [|discriminate].
  destruct (read_fraction s1) as [[frac s2]|] eqn:Hfrac; [|discriminate].
  destruct (read_exponent s2) as [[ex s3]|] eqn:Hex; [|discriminate].
  intros H. inversion H; subst.
  apply read_integer_length in Hint. apply read_fraction_length in Hfrac.
  apply read_exponent_length in Hex. lia.
Qed.

Lemma parse_number_length (s rest : string) (x : spec_float) :
  parse_number s = Some (x, rest) -> (String.length rest < String.length s)%nat.
Proof.
  unfold parse_number. destruct s as [|c s]; [discriminate|].
  destruct (c =? "-")%char; intros H; apply parse_unsigned_length in H;
    cbn [String.length] in *; lia.
Qed.

Lemma strip_prefix_length (p s rest : string) :
  strip_prefix p s = Some rest -> (String.length rest <= String.length s)%nat.
Proof.
  revert s. induction p as [|a p IH]; intros s H; cbn [strip_prefix] in H.
  - inversion H; subst. lia.
  - destruct s as [|b s]; [discriminate H|].
    destruct (a =? b)%char; [|discriminate H].
    apply IH in H. cbn [String.length]. lia.
Qed.

Lemma parse_members_unfold (fuel : nat) (s : string) :
  parse_members (S fuel) s =
  match skip_ws s with
  | String q rest =>
      if (q =? dquote)%char then
        match parse_chars rest with
        | Some (key, rest1) =>
            match skip_ws rest1 with
            | String colon rest2 =>
                if (colon =? ":")%char then
                  match parse_value fuel rest2 with
                  | Some (v, rest3) =>
                      match skip_ws rest3 with
                      | String c rest4 =>
                          if (c =? ",")%char then
                            match parse_members fuel rest4 with
                            | Some (kvs, rest5) => Some ((key, v) :: kvs, rest5)
                            | None => None
                            end
                          else if (c =? "}")%char then Some ([(key, v)], rest4)
                          else None
                      | EmptyString => None
                      end
                  | None => None
                  end
                else None
            | EmptyString => None
            end
        | None => None
        end
      else None
  | EmptyString => None
  end.
Proof. reflexivity. Qed.

Ltac break_match_in H :=
  match type of H with
  | context [match ?x with _ => _ end] => destruct x eqn:?
  end.

Ltac length_facts :=
  repeat match goal with
    | H : skip_ws _ = String _ _ |- _ => apply skip_ws_cons_length in H
    | H : parse_chars _ = Some _ |- _ => apply parse_chars_length in H
    | H : parse_number _ = Some _ |- _ => apply parse_number_length in H
    | H : strip_prefix _ _ = Some _ |- _ => apply strip_prefix_length in H
    end.

(** A value, a list of elements, a list of members: each takes at least
    one character of the input. *)
Lemma parse_consumes (fuel : nat) :
  (forall s v rest, parse_value fuel s = Some (v, rest) ->
                    (String.length rest < String.length s)%nat) /\
  (forall s vs rest, parse_elements fuel s = Some (vs, rest) ->
                     (String.length rest < String.length s)%nat) /\
  (forall s kvs rest, parse_members fuel s = Some (kvs, rest) ->
                      (String.length rest < String.length s)%nat).
Proof.
  induction fuel as [|fuel (IHv & IHe & IHm)]; [repeat split; intros; discriminate|].
  repeat split.
  - intros s v rest H. cbn [parse_value] in H.
    repeat (break_match_in H; try discriminate H). all: inversion H; subst.
    all: repeat match goal with
           | E : parse_elements _ _ = Some _ |- _ => apply IHe in E
           | E : parse_members _ _ = Some _ |- _ => apply IHm in E
           end.
    all: length_facts; cbn [String.length] in *; lia.
  - intros s vs rest H. rewrite parse_elements_S in H.
    repeat (break_match_in H; try discriminate H). all: inversion H; subst.
    all: repeat match goal with
           | E : parse_value _ _ = Some _ |- _ => apply IHv in E
           | E : parse_elements _ _ = Some _ |- _ => apply IHe in E
           end.
    all: length_facts; cbn [String.length] in *; lia.
  - intros s kvs rest H. rewrite parse_members_unfold in H.
    repeat (break_match_in H; try discriminate H). all: inversion H; subst.
    all: repeat match goal with
           | E : parse_value _ _ = Some _ |- _ => apply IHv in E
           | E : parse_members _ _ = Some _ |- _ => apply IHm in E
           end.
    all: length_facts; cbn [String.length] in *; lia.
Qed.

(** With fuel above twice the length of the input, one more unit changes
    nothing. *)
Lemma parse_fuel_step (fuel : nat) :
  (forall s, (2 * String.length s + 1 <= fuel)%nat ->
             parse_value (S fuel) s = parse_value fuel s) /\
  (forall s, (2 * String.length s + 2 <= fuel)%nat ->
             parse_elements (S fuel) s = parse_elements fuel s) /\
  (forall s, (2 * String.length s + 2 <= fuel)%nat ->
             parse_members (S fuel) s = parse_members fuel s).
Proof.
  induction fuel as [|fuel (IHv & IHe & IHm)]; [repeat split; intros; lia|].
  repeat split.
  - intros s Hs. cbn [parse_value].
    destruct (skip_ws s) as [|c rest] eqn:Hskip; [reflexivity|].
    apply skip_ws_cons_length in Hskip.
    rewrite (IHm rest) by lia. rewrite (IHe rest) by lia. reflexivity.
  - intros s Hs. rewrite (parse_elements_S (S fuel)), (parse_elements_S fuel).
    rewrite (IHv s) by lia.
    destruct (parse_value fuel s) as [[v rest]|] eqn:Hv; [|reflexivity].
    apply (proj1 (parse_consumes fuel)) in Hv.
    destruct (skip_ws rest) as [|c rest1] eqn:Hskip; [reflexivity|].
    apply skip_ws_cons_length in Hskip.
    rewrite (IHe rest1) by lia. reflexivity.
  - intros s Hs. rewrite (parse_members_unfold (S fuel)), (parse_members_unfold fuel).
    destruct (skip_ws s) as [|q rest] eqn:Hskip; [reflexivity|].
    apply skip_ws_cons_length in Hskip.
    destruct (q =? dquote)%char; [|reflexivity].
    destruct (parse_chars rest) as [[key rest1]|] eqn:Hkey; [|reflexivity].
    apply parse_chars_length in Hkey.
    destruct (skip_ws rest1) as [|colon rest2] eqn:Hskip1; [reflexivity|].
    apply skip_ws_cons_length in Hskip1.
    destruct (colon =? ":")%char; [|reflexivity].
    rewrite (IHv rest2) by lia.
    destruct (parse_value fuel rest2) as [[v rest3]|] eqn:Hv; [|reflexivity].
    apply (proj1 (parse_consumes fuel)) in Hv.
    destruct (skip_ws rest3) as [|c rest4] eqn:Hskip3; [reflexivity|].
    apply skip_ws_cons_length in Hskip3.
    rewrite (IHm rest4) by lia. reflexivity.
Qed.

(** The result of [parse] is the result with any larger fuel: no text
    exhausts the fuel that [parse] supplies. *)
Lemma parse_fuel (text : string) (extra : nat) :
  parse_value (2 * String.length text + 2 + extra) text
  = parse_value (2 * String.length text + 2) text.
Proof.
  induction extra as [|extra IH].
  - rewrite Nat.add_0_r. reflexivity.
  - rewrite Nat.add_succ_r, (proj1 (parse_fuel_step _)) by lia. exact IH.
Qed.

Lemma size_le_length (v : JsValue) : (size v <= String.length (stringify v))%nat.
Proof.
  induction v as [| b | x | s | elems IH | props IH] using JsValue_nested_ind;
    cbn [size].
  - cbn. lia.
  - destruct b; cbn; lia.
  - destruct (stringify_start (JNumber x)) as (c & s & -> & _). cbn. lia.
  - cbn. lia.
  - cbn [stringify]. rewrite !length_append. cbn [String.length].
    enough (list_sum (List.map (fun e => S (size e)) elems)
            <= String.length (join_comma (List.map stringify elems)) + 1)%nat by lia.
    induction IH as [|e elems He _ IHl]; [cbn; lia|].
    cbn [List.map]. rewrite list_sum_cons.
    destruct elems as [|e2 elems]; [cbn; lia|].
    change (join_comma (stringify e :: List.map stringify (e2 :: elems)))
      with (stringify e ++ "," ++ join_comma (List.map stringify (e2 :: elems)))%string.
    rewrite !length_append. cbn [String.length]. lia.
  - cbn [stringify]. rewrite !length_append. cbn [String.length].
    change (fun kv : string * JsValue => (quote (fst kv) ++ ":" ++ stringify (snd kv))%string)
      with member_text.
    enough (list_sum (List.map (fun kv => S (size (snd kv))) props)
            <= String.length (join_comma (List.map member_text props)) + 1)%nat by lia.
    assert (forall kv, (size (snd kv) <= String.length (stringify (snd kv)))%nat ->
                       (S (size (snd kv)) <= String.length (member_text kv))%nat) as Hmember.
    { intros kv H. unfold member_text, quote. cbn [append String.length].
      rewrite !length_append. cbn [String.length]. lia. }
    induction IH as [|kv props Hkv _ IHl]; [cbn; lia|].
    cbn [List.map]. rewrite list_sum_cons. specialize (Hmember kv Hkv).
    destruct props as [|kv2 props].
    { cbn [List.map join_comma]. change (list_sum []) with 0%nat. lia. }
    change (join_comma (member_text kv :: List.map member_text (kv2 :: props)))
      with (member_text kv ++ "," ++ join_comma (List.map member_text (kv2 :: props)))%string.
    rewrite !length_append. cbn [String.length]. lia.
Qed.

(** Decoding the encoding of a value that JSON can write gives the value
    back, with [+0] where it had [-0]. *)
Lemma parse_stringify (v : JsValue) :
  serializable v = true -> parse (stringify v) = Normal (unsigned_zeros v).
Proof.
  intros Hwf. unfold parse.
  pose proof (size_le_length v) as Hsize.
  rewrite <- (append_empty_r (stringify v)) at 2.
  rewrite (parse_value_stringify v Hwf) by (try reflexivity; lia).
  reflexivity.
Qed.

(** *** The sign of zero *)

Lemma map_id_Forall {A : Type} (f : A -> A) (l : list A) :
  Forall (fun a => f a = a) l -> List.map f l = l.
Proof. induction 1 as [|a l Ha _ IH]; cbn; [reflexivity | rewrite Ha, IH; reflexivity]. Qed.

(** A value without [-0] is kept. *)
Lemma unsigned_zeros_id (v : JsValue) :
  no_negative_zero v = true -> unsigned_zeros v = v.
Proof.
  induction v as [| b | x | s | elems IH | props IH] using JsValue_nested_ind;
    cbn [no_negative_zero unsigned_zeros]; try reflexivity.
  - destruct x as [[|]| | |]; cbn; first [discriminate | reflexivity].
  - intros H. f_equal. apply map_id_Forall.
    induction IH as [|e elems He _ IHl]; constructor; cbn [forallb] in H;
      apply andb_prop in H; destruct H as [H1 H2]; [exact (He H1) | exact (IHl H2)].
  - intros H. f_equal. apply map_id_Forall.
    induction IH as [|[k e] props He _ IHl]; constructor; cbn [forallb snd fst] in *;
      apply andb_prop in H; destruct H as [H1 H2]; [rewrite (He H1); reflexivity | exact (IHl H2)].
Qed.

(** [-0] and [+0] have the same text. *)
Lemma stringify_unsigned_zeros (v : JsValue) : stringify (unsigned_zeros v) = stringify v.
Proof.
  induction v as [| b | x | s | elems IH | props IH] using JsValue_nested_ind;
    cbn [unsigned_zeros stringify]; try reflexivity.
  - destruct x; reflexivity.
  - f_equal. f_equal. f_equal. rewrite List.map_map. apply List.map_ext_Forall. exact IH.
  - f_equal. f_equal. f_equal. rewrite List.map_map. apply List.map_ext_Forall.
    induction IH as [|[k e] props He _ IHl]; constructor; [|exact IHl].
    cbn [fst snd] in *. rewrite He. reflexivity.
Qed.

Lemma SFeqb_unsigned_zero (x : spec_float) :
  Number.is_finite x = true -> SFeqb (Number.unsigned_zero x) x = true.
Proof.
  destruct x as [s|s| |s m e]; try discriminate; intros _; [reflexivity|].
  unfold SFeqb. cbn [Number.unsigned_zero SFcompare].
  destruct s; rewrite Z.compare_refl, Pos.compare_cont_refl; reflexivity.
Qed.

(** What is read back equals the value, [-0 == +0] being true. *)
Lemma equal_values_unsigned_zeros (v : JsValue) :
  all_finite v = true -> equal_values (unsigned_zeros v) v = true.
Proof.
  induction v as [| b | x | s | elems IH | props IH] using JsValue_nested_ind;
    cbn [all_finite unsigned_zeros equal_values]; try reflexivity.
  - intros _. apply Bool.eqb_reflx.
  - apply SFeqb_unsigned_zero.
  - intros _. apply String.eqb_refl.
  - intros H. induction IH as [|e elems He _ IHl]; [reflexivity|].
    cbn [forallb List.map] in *. apply andb_prop in H. destruct H as [H1 H2].
    rewrite (He H1). exact (IHl H2).
  - intros H. induction IH as [|[k e] props He _ IHl]; [reflexivity|].
    cbn [forallb List.map fst snd] in *. apply andb_prop in H. destruct H as [H1 H2].
    rewrite String.eqb_refl, (He H1). exact (IHl H2).
Qed.

End JSONFacts.

(** ** The claims *)

Section Claims.
Import AgentClient RpcClient.

(** C1. On a connected session that no agent ever joins, [sendData] does
    not stop after four resolution attempts: [retryCount] is a constant 0
    of each activation and is not carried into the retry, so the test
    [retryCount < maxRetries] never fails.  After 25 steps five attempts
    have been made, after [5 n] steps [n] of them, no run ever ends, and so
    none ends in a failure after exactly four attempts. *)
Theorem sendData_no_agent_never_ends :
  resolution_attempts (fst (run 25 lonely_world 0 sendData)) = 5%nat /\
  (forall n, resolution_attempts (fst (run (5 * n) lonely_world 0 sendData)) = n) /\
  (forall fuel, snd (run fuel lonely_world 0 sendData) = None) /\
  ~ fails_after_four_attempts lonely_world 0.
Proof.
  assert (forall fuel now, snd (run fuel lonely_world now sendData) = None) as Hnone.
  { intros fuel now.
    exact (sendData_run_unfinished lonely_world (fun _ => eq_refl) (fun _ => eq_refl) fuel now). }
  split; [vm_compute; reflexivity|].
  split; [intros n; exact (sendData_run_attempts lonely_world (fun _ => eq_refl)
                             (fun _ => eq_refl) n 0)|].
  split; [intros fuel; apply Hnone|].
  intros (fuel & tr & error & Hrun & _).
  pose proof (Hnone fuel 0) as H. rewrite Hrun in H. discriminate H.
Qed.

(** C2. The delay before a retry does not grow with the retry index: every
    delay [sendData] waits is 2000 ms, and on a connected session that no
    agent joins the first three delays are 2000, 2000, 2000 (not 2000,
    4000, 6000). *)
Theorem sendData_delays_do_not_grow :
  (forall w now fuel, Forall (fun ms => ms = 2000) (delays (fst (run fuel w now sendData)))) /\
  delays (fst (run 15 lonely_world 0 sendData)) = [2000; 2000; 2000].
Proof.
  split; [intros w now fuel; apply sendData_run_invariant | vm_compute; reflexivity].
Qed.

(** C3 (as stated, refuted). With an agent present and a transport that
    rejects the call, [sendData] completes normally: the failure is logged
    and not raised to the caller. *)
Lemma sendData_swallows_transport_failure :
  run 5 failing_transport_world 0 sendData =
  ([ObsState 0 "connected";
    ObsRoster 0 [mkParticipant "user-2" false; mkParticipant "agent-1" true];
    ObsRpc 0 (dom_elements_call (mkParticipant "agent-1" true))
           (Throw (mkError "RpcError" "Connection timeout"));
    ObsConsole LevelError
      [LogStr "RPC call failed:"; LogErr (mkError "RpcError" "Connection timeout")]],
   Some (Normal tt)).
Proof. vm_compute. reflexivity. Qed.

(** C3 (amended). [sendDomElements] and [callAgentAction] raise their
    errors to the immediate caller: [Error('Agent not found')] when the
    roster has no agent, and otherwise the completion of the one call they
    issue, a rejection included, unchanged and without retry. [sendData]
    instead catches the rejection of its call, logs it with [console.error]
    and completes normally, without retry. *)
Theorem outbound_errors (w : World) (now : Z) (fuel : nat) :
  (forall text,
     run (3 + fuel) w now (sendDomElements text) =
     match Array_find isAgent (remote_participants w now) with
     | None =>
         ([ObsRoster now (remote_participants w now)],
          Some (Throw (Error "Agent not found")))
     | Some agent =>
         let call := mkRpc (identity agent) "dom_elements" (JSON.stringify (JString text)) in
         ([ObsRoster now (remote_participants w now); ObsRpc now call (transport w now call)],
          Some (transport w now call))
     end) /\
  (forall action,
     run (3 + fuel) w now (callAgentAction action) =
     match Array_find isAgent (remote_participants w now) with
     | None =>
         ([ObsRoster now (remote_participants w now)],
          Some (Throw (Error "Agent not found")))
     | Some agent =>
         let call := mkRpc (identity agent) "agent.action" action in
         ([ObsRoster now (remote_participants w now); ObsRpc now call (transport w now call)],
          Some (transport w now call))
     end) /\
  (forall agent error,
     room_state w now = "connected" ->
     Array_find isAgent (remote_participants w now) = Some agent ->
     transport w now (dom_elements_call agent) = Throw error ->
     run (5 + fuel) w now sendData =
     ([ObsState now "connected"; ObsRoster now (remote_participants w now);
       ObsRpc now (dom_elements_call agent) (Throw error);
       ObsConsole LevelError [LogStr "RPC call failed:"; LogErr error]],
      Some (Normal tt))).
Proof.
  split; [intros text; apply sendDomElements_run|].
  split; [intros action; apply callAgentAction_run|].
  intros agent error Hc Ha Ht.
  rewrite (sendData_run_send w now fuel agent Hc Ha), Ht. reflexivity.
Qed.

Lemma outbound_errors_witness :
  transport failing_transport_world 0 (dom_elements_call (mkParticipant "agent-1" true))
  = Throw (mkError "RpcError" "Connection timeout") /\
  snd (run (3 + 0) failing_transport_world 0 (sendDomElements "[]"))
  = Some (Throw (mkError "RpcError" "Connection timeout")) /\
  snd (run (3 + 0) lonely_world 0 (sendDomElements "[]"))
  = Some (Throw (Error "Agent not found")) /\
  snd (run (5 + 0) failing_transport_world 0 sendData) = Some (Normal tt).
Proof.
  split; [reflexivity|]. split; [|split].
  - rewrite (proj1 (outbound_errors failing_transport_world 0 0) "[]"). reflexivity.
  - rewrite (proj1 (outbound_errors lonely_world 0 0) "[]"). reflexivity.
  - rewrite (proj2 (proj2 (outbound_errors failing_transport_world 0 0))
               (mkParticipant "agent-1" true) (mkError "RpcError" "Connection timeout")
               eq_refl eq_refl eq_refl).
    reflexivity.
Defined.

(** C4. [findAgent] reads the roster once and returns the first peer, in
    roster order, whose [isAgent] is true, or [null] when no peer has it;
    for the roster [A; B] with only [B] an agent it returns [B], and for the
    empty roster it returns [null]. *)
Theorem findAgent_first_agent (w : World) (now : Z) (fuel : nat) :
  (exists r,
     run (2 + fuel) w now findAgent = ([ObsRoster now (remote_participants w now)], Some r) /\
     first_agent (remote_participants w now) r) /\
  (forall a b,
     isAgent a = false -> isAgent b = true -> remote_participants w now = [a; b] ->
     snd (run (2 + fuel) w now findAgent) = Some (Some b)) /\
  (remote_participants w now = [] -> snd (run (2 + fuel) w now findAgent) = Some None).
Proof.
  rewrite findAgent_run. split; [|split].
  - exists (Array_find isAgent (remote_participants w now)). split; [reflexivity|].
    unfold first_agent.
    destruct (Array_find isAgent (remote_participants w now)) as [p|] eqn:E.
    + apply Array_find_Some, E.
    + apply Array_find_None, E.
  - intros a b Ha Hb ->. cbn. rewrite Ha, Hb. reflexivity.
  - intros ->. reflexivity.
Qed.


Lemma findAgent_first_agent_witness :
  remote_participants agent_world 0
  = [mkParticipant "user-2" false; mkParticipant "agent-1" true] /\
  snd (run (2 + 0) agent_world 0 findAgent) = Some (Some (mkParticipant "agent-1" true)) /\
  snd (run (2 + 0) lonely_world 0 findAgent) = Some None.
Proof.
  split; [reflexivity|]. split.
  - apply (proj1 (proj2 (findAgent_first_agent agent_world 0 0))
             (mkParticipant "user-2" false) (mkParticipant "agent-1" true));
      reflexivity.
  - apply (proj2 (proj2 (findAgent_first_agent lonely_world 0 0))); reflexivity.
Defined.

(** Reading a key that an object does not hold gives [undefined]. *)
Lemma Get_absent (v : JsValue) (key : string) :
  v <> JNull -> has_property v key = false -> Get v key = Normal None.
Proof.
  destruct v as [| b | n | s | elems | props]; try reflexivity; [congruence|].
  intros _. cbn [has_property Get].
  induction props as [|[k v] props IH]; [reflexivity|].
  cbn [List.map fst existsb own_property]. intros H.
  apply orb_false_elim in H. destruct H as [Hk Hrest].
  rewrite String.eqb_sym, Hk. apply IH, Hrest.
Qed.

(** C5 (as stated, refuted). The text [null] decodes to [null], which has
    no [jsId] field; reading [jsId] from it throws, and the reply carries
    the message of that TypeError, not "Missing jsId". *)
Lemma click_button_null_payload_counterexample :
  JSON.parse "null" = Normal JNull /\
  has_property JNull "jsId" = false /\
  snd (run 3 agent_world 0 (ClientRpc.click_button (ClientRpc.mkData "agent-1" (Some "null"))))
  = Some (Normal (JSON.stringify (ClientRpc.reply_error (TypeError_null "jsId")))) /\
  JSON.stringify (ClientRpc.reply_error (TypeError_null "jsId")) <> missing_jsId_text.
Proof.
  split; [vm_compute; reflexivity|]. split; [reflexivity|].
  split; [vm_compute; reflexivity|]. vm_compute. discriminate.
Qed.

(** C5 (amended). For every inbound [client.click_button] call whose
    decoded payload is not [null] and has no [jsId] field, the handler
    warns and replies exactly [{"ok":false,"error":"Missing jsId"}]. *)
Theorem click_button_missing_jsId
    (w : World) (now : Z) (fuel : nat) (data : ClientRpc.RpcInvocationData) (v : JsValue) :
  JSON.parse (ClientRpc.nullish (ClientRpc.payload data) "{}") = Normal v ->
  v <> JNull ->
  has_property v "jsId" = false ->
  run (3 + fuel) w now (ClientRpc.click_button data) =
  ([ObsConsole LevelWarn [LogStr "client.clickElement RPC missing jsId"]],
   Some (Normal missing_jsId_text)).
Proof.
  intros Hparse Hnull Hfield.
  rewrite click_button_run, Hparse, (Get_absent v "jsId" Hnull Hfield). reflexivity.
Qed.

Lemma click_button_missing_jsId_witness :
  JSON.parse ("{" ++ in_quotes "x" ++ ":1.5}")
  = Normal (JObject [("x", JNumber (S754_finite false 6755399441055744 (-52)))]) /\
  run 3 agent_world 0
    (ClientRpc.click_button (ClientRpc.mkData "agent-1" (Some ("{" ++ in_quotes "x" ++ ":1.5}"))))
  = ([ObsConsole LevelWarn [LogStr "client.clickElement RPC missing jsId"]],
     Some (Normal missing_jsId_text)).
Proof.
  split; [vm_compute; reflexivity|].
  apply (click_button_missing_jsId agent_world 0 0
           (ClientRpc.mkData "agent-1" (Some ("{" ++ in_quotes "x" ++ ":1.5}")))
           (JObject [("x", JNumber (S754_finite false 6755399441055744 (-52)))])).
  - vm_compute; reflexivity.
  - discriminate.
  - reflexivity.
Defined.

(** C6. The handler of [client.click_button] returns a string reply for
    every payload and every document and never throws; when its [try] block
    raises an error, the [catch] block logs it and the reply is the failure
    envelope [{"ok":false,"error":<the error's message>}]. *)
Theorem click_button_never_throws
    (w : World) (now : Z) (fuel : nat) (data : ClientRpc.RpcInvocationData) :
  (exists tr reply, run (3 + fuel) w now (ClientRpc.click_button data) = (tr, Some (Normal reply))) /\
  (forall tr error,
     run (3 + fuel) w now (ClientRpc.click_button_try data) = (tr, Some (Throw error)) ->
     run (3 + fuel) w now (ClientRpc.click_button data) =
     ((tr ++ fst (caught error))%list, Some (Normal (JSON.stringify (ClientRpc.reply_error error))))) /\
  (forall error,
     JSON.stringify (ClientRpc.reply_error error) =
     "{" ++ in_quotes "ok" ++ ":false," ++ in_quotes "error" ++ ":"
         ++ JSON.quote (message error) ++ "}").
Proof.
  rewrite click_button_run, click_button_try_run.
  destruct (JSON.parse (ClientRpc.nullish (ClientRpc.payload data) "{}")) as [parsed|e0].
  2:{ split; [eexists _, _; reflexivity|]. split; [|reflexivity].
      intros tr error H. inversion H; subst. reflexivity. }
  destruct (Get parsed "jsId") as [jsId|e0].
  2:{ split; [eexists _, _; reflexivity|]. split; [|reflexivity].
      intros tr error H. inversion H; subst. reflexivity. }
  destruct (negb (ToBoolean jsId)).
  { split; [eexists _, _; reflexivity|]. split; [|reflexivity].
    intros tr error H. discriminate H. }
  destruct (ClientRpc.selector_of jsId) as [selector|e0].
  2:{ split; [eexists _, _; reflexivity|]. split; [|reflexivity].
      intros tr error H. inversion H; subst. reflexivity. }
  destruct (querySelector w now selector) as [[el|]|e0].
  - split; [eexists _, _; reflexivity|]. split; [|reflexivity].
    intros tr error H. discriminate H.
  - split; [eexists _, _; reflexivity|]. split; [|reflexivity].
    intros tr error H. discriminate H.
  - split; [eexists _, _; reflexivity|]. split; [|reflexivity].
    intros tr error H. inversion H; subst. reflexivity.
Qed.

Lemma click_button_never_throws_witness :
  run (3 + 0) agent_world 0 (ClientRpc.click_button_try (ClientRpc.mkData "agent-1" (Some "null")))
  = ([], Some (Throw (TypeError_null "jsId"))) /\
  run (3 + 0) agent_world 0 (ClientRpc.click_button (ClientRpc.mkData "agent-1" (Some "null")))
  = (fst (caught (TypeError_null "jsId")),
     Some (Normal (JSON.stringify (ClientRpc.reply_error (TypeError_null "jsId"))))).
Proof.
  split; [vm_compute; reflexivity|].
  apply (proj1 (proj2 (click_button_never_throws agent_world 0 0
                         (ClientRpc.mkData "agent-1" (Some "null")))) []).
  vm_compute. reflexivity.
Defined.

(** C7. If no agent is present at the first resolution attempt and one is
    present 2000 ms later, on a session connected at both times, [sendData]
    reads the roster a second time, sends its call to the agent found then
    and completes, with no further attempt. *)
Theorem sendData_agent_joins_before_second_attempt
    (w : World) (now : Z) (fuel : nat) (agent : Participant) :
  room_state w now = "connected" ->
  room_state w (now + 2000) = "connected" ->
  Array_find isAgent (remote_participants w now) = None ->
  Array_find isAgent (remote_participants w (now + 2000)) = Some agent ->
  run (10 + fuel) w now sendData =
  ([ObsState now "connected"; ObsRoster now (remote_participants w now);
    ObsConsole LevelLog retry_notice; ObsTimeout now 2000;
    ObsState (now + 2000) "connected";
    ObsRoster (now + 2000) (remote_participants w (now + 2000));
    ObsRpc (now + 2000) (dom_elements_call agent)
           (transport w (now + 2000) (dom_elements_call agent))]
   ++ call_report (transport w (now + 2000) (dom_elements_call agent)),
   Some (Normal tt))%list.
Proof.
  intros Hc1 Hc2 Ha1 Ha2.
  change (10 + fuel)%nat with (5 + (5 + fuel))%nat.
  rewrite (sendData_run_retry w now (5 + fuel) Hc1 Ha1).
  rewrite (sendData_run_send w (now + 2000) fuel agent Hc2 Ha2). reflexivity.
Qed.

Lemma sendData_agent_joins_before_second_attempt_witness :
  Array_find isAgent (remote_participants late_agent_world 0) = None /\
  Array_find isAgent (remote_participants late_agent_world (0 + 2000))
  = Some (mkParticipant "agent-1" true) /\
  run (10 + 0) late_agent_world 0 sendData =
  ([ObsState 0 "connected"; ObsRoster 0 (remote_participants late_agent_world 0);
    ObsConsole LevelLog retry_notice; ObsTimeout 0 2000;
    ObsState (0 + 2000) "connected";
    ObsRoster (0 + 2000) (remote_participants late_agent_world (0 + 2000));
    ObsRpc (0 + 2000) (dom_elements_call (mkParticipant "agent-1" true))
           (transport late_agent_world (0 + 2000)
                      (dom_elements_call (mkParticipant "agent-1" true)))]
   ++ call_report (transport late_agent_world (0 + 2000)
                             (dom_elements_call (mkParticipant "agent-1" true))),
   Some (Normal tt))%list.
Proof.
  split; [reflexivity|]. split; [reflexivity|].
  apply (sendData_agent_joins_before_second_attempt late_agent_world 0 0
           (mkParticipant "agent-1" true));
    reflexivity.
Defined.

(** C8 (as stated, refuted). The call [sendData] issues carries the JSON
    text of an object: decoding it gives that object, not a string, so the
    payload is encoded once, not twice. *)
Lemma sendData_payload_encoded_once :
  rpc_calls (fst (run 5 agent_world 0 sendData))
  = [dom_elements_call (mkParticipant "agent-1" true)] /\
  JSON.parse (payload (dom_elements_call (mkParticipant "agent-1" true)))
  = Normal (JObject [("message", JString "important data!")]) /\
  decodes_to_string (payload (dom_elements_call (mkParticipant "agent-1" true))) = false.
Proof. repeat split; vm_compute; reflexivity. Qed.

(** C8 (amended). With an agent in the roster, the one call of
    [sendDomElements] goes to that agent's identity with method
    [dom_elements] and carries the caller's string double-encoded: the
    payload is the JSON stringification of that string, and decodes to it.
    The call of [sendData] goes to the same identity with the same method and
    carries the JSON text of the object [{message: 'important data!'}],
    encoded once. *)
Theorem dom_elements_payloads (w : World) (now : Z) (fuel : nat) (agent : Participant) :
  Array_find isAgent (remote_participants w now) = Some agent ->
  (forall text,
     rpc_calls (fst (run (3 + fuel) w now (sendDomElements text)))
     = [mkRpc (identity agent) "dom_elements" (JSON.stringify (JString text))] /\
     JSON.parse (JSON.stringify (JString text)) = Normal (JString text) /\
     decodes_to_string (JSON.stringify (JString text)) = true) /\
  (room_state w now = "connected" ->
   rpc_calls (fst (run (5 + fuel) w now sendData))
   = [mkRpc (identity agent) "dom_elements"
            (JSON.stringify (JObject [("message", JString "important data!")]))] /\
   JSON.parse (JSON.stringify (JObject [("message", JString "important data!")]))
   = Normal (JObject [("message", JString "important data!")])).
Proof.
  intros Ha. split.
  - intros text. rewrite sendDomElements_run, Ha. split; [reflexivity|].
    assert (JSON.parse (JSON.stringify (JString text)) = Normal (JString text)) as Hback
      by exact (JSONFacts.parse_stringify (JString text) eq_refl).
    split; [exact Hback|]. unfold decodes_to_string. rewrite Hback. reflexivity.
  - intros Hc. rewrite (sendData_run_send w now fuel agent Hc Ha).
    split; [|vm_compute; reflexivity].
    cbn [fst rpc_calls]. destruct (transport w now (dom_elements_call agent)); reflexivity.
Qed.

Lemma dom_elements_payloads_witness :
  Array_find isAgent (remote_participants agent_world 0) = Some (mkParticipant "agent-1" true) /\
  (forall text,
     rpc_calls (fst (run (3 + 0) agent_world 0 (sendDomElements text)))
     = [mkRpc "agent-1" "dom_elements" (JSON.stringify (JString text))] /\
     JSON.parse (JSON.stringify (JString text)) = Normal (JString text) /\
     decodes_to_string (JSON.stringify (JString text)) = true) /\
  (room_state agent_world 0 = "connected" ->
   rpc_calls (fst (run (5 + 0) agent_world 0 sendData))
   = [mkRpc "agent-1" "dom_elements"
            (JSON.stringify (JObject [("message", JString "important data!")]))] /\
   JSON.parse (JSON.stringify (JObject [("message", JString "important data!")]))
   = Normal (JObject [("message", JString "important data!")])).
Proof.
  split; [reflexivity|].
  apply (dom_elements_payloads agent_world 0 0 (mkParticipant "agent-1" true)). reflexivity.
Defined.

(** C9. Decoding the encoding of a value that JSON can write (made of
    [null], booleans, finite Numbers, strings, arrays and objects) gives a
    value equal to it: [JSON.parse(JSON.stringify(x)) == x], and it gives
    [x] itself unless [x] holds [-0], which is written [0] and read back as
    [+0]. *)
Theorem JSON_roundtrip (x : JsValue) :
  JSON.serializable x = true ->
  exists y,
    JSON.parse (JSON.stringify x) = Normal y /\
    JSON.equal_values y x = true /\
    (JSON.no_negative_zero x = true -> y = x).
Proof.
  intros Hx. exists (JSON.unsigned_zeros x).
  split; [apply JSONFacts.parse_stringify, Hx|].
  split; [|apply JSONFacts.unsigned_zeros_id].
  apply JSONFacts.equal_values_unsigned_zeros.
  unfold JSON.serializable in Hx. apply andb_prop in Hx. exact (proj2 Hx).
Qed.

Lemma JSON_roundtrip_witness :
  JSON.serializable
    (JObject [("7", JString "a\b"); ("ok", JBool false);
              ("path", JArray [JNumber (Number.of_decimal true 3 0); JNull;
                               JNumber (Number.of_decimal false 15 (-1));
                               JNumber (Number.of_decimal false 1 21);
                               JNumber (S754_zero true); JObject []])]) = true /\
  exists y,
    JSON.parse
      (JSON.stringify
         (JObject [("7", JString "a\b"); ("ok", JBool false);
                   ("path", JArray [JNumber (Number.of_decimal true 3 0); JNull;
                                    JNumber (Number.of_decimal false 15 (-1));
                                    JNumber (Number.of_decimal false 1 21);
                                    JNumber (S754_zero true); JObject []])]))
    = Normal y /\
    JSON.equal_values y
      (JObject [("7", JString "a\b"); ("ok", JBool false);
                ("path", JArray [JNumber (Number.of_decimal true 3 0); JNull;
                                 JNumber (Number.of_decimal false 15 (-1));
                                 JNumber (Number.of_decimal false 1 21);
                                 JNumber (S754_zero true); JObject []])]) = true /\
    (JSON.no_negative_zero
       (JObject [("7", JString "a\b"); ("ok", JBool false);
                 ("path", JArray [JNumber (Number.of_decimal true 3 0); JNull;
                                  JNumber (Number.of_decimal false 15 (-1));
                                  JNumber (Number.of_decimal false 1 21);
                                  JNumber (S754_zero true); JObject []])]) = true ->
     y = JObject [("7", JString "a\b"); ("ok", JBool false);
                  ("path", JArray [JNumber (Number.of_decimal true 3 0); JNull;
                                   JNumber (Number.of_decimal false 15 (-1));
                                   JNumber (Number.of_decimal false 1 21);
                                   JNumber (S754_zero true); JObject []])]).
Proof.
  split; [vm_compute; reflexivity|].
  apply (JSON_roundtrip
           (JObject [("7", JString "a\b"); ("ok", JBool false);
                     ("path", JArray [JNumber (Number.of_decimal true 3 0); JNull;
                                      JNumber (Number.of_decimal false 15 (-1));
                                      JNumber (Number.of_decimal false 1 21);
                                      JNumber (S754_zero true); JObject []])])).
  vm_compute. reflexivity.
Defined.

(** C10. When [room.state] is not ['connected'] at the call, [sendData]
    returns at once: the read of the state is all it does, with no roster
    read, no delay and no call. *)
Theorem sendData_returns_when_not_connected (w : World) (now : Z) (fuel : nat) :
  room_state w now <> "connected" ->
  run (2 + fuel) w now sendData = ([ObsState now (room_state w now)], Some (Normal tt)).
Proof. apply sendData_run_not_connected. Qed.

Lemma sendData_returns_when_not_connected_witness :
  room_state disconnected_world 0 <> "connected" /\
  run (2 + 0) disconnected_world 0 sendData
  = ([ObsState 0 (room_state disconnected_world 0)], Some (Normal tt)).
Proof.
  split; [discriminate|].
  apply (sendData_returns_when_not_connected disconnected_world 0 0). discriminate.
Defined.

End Claims.

(** * Further properties *)

(** ** sendData over many activations *)

Section SendDataMore.
Import AgentClient.

(** The time of the activation after [k] retries. *)
Lemma retry_time (now : Z) (k : nat) :
  now + 2000 + 2000 * Z.of_nat k = now + 2000 * Z.of_nat (S k).
Proof. lia. Qed.

(** X1. [sendData] retries for as long as it takes: if the session is
    connected and without agent at the first [n] activations (at
    [now + 2000 k] for [k < n]) and connected with an agent at the next, it
    reads the roster [n + 1] times, at those times, waits [n] delays of 2000
    ms, sends its one call to that agent and completes. *)
Theorem sendData_retries_until_agent (w : World) (n : nat) :
  forall (now : Z) (fuel : nat) (agent : Participant),
    (forall k, (k < n)%nat ->
       room_state w (now + 2000 * Z.of_nat k) = "connected" /\
       Array_find isAgent (remote_participants w (now + 2000 * Z.of_nat k)) = None) ->
    room_state w (now + 2000 * Z.of_nat n) = "connected" ->
    Array_find isAgent (remote_participants w (now + 2000 * Z.of_nat n)) = Some agent ->
    roster_reads (fst (run (5 * n + 5 + fuel) w now sendData))
    = List.map (fun k => now + 2000 * Z.of_nat k) (seq 0 (S n)) /\
    delays (fst (run (5 * n + 5 + fuel) w now sendData)) = repeat 2000 n /\
    rpc_calls (fst (run (5 * n + 5 + fuel) w now sendData)) = [dom_elements_call agent] /\
    snd (run (5 * n + 5 + fuel) w now sendData) = Some (Normal tt).
Proof.
  induction n as [|n IH]; intros now fuel agent Hbefore Hc Ha.
  - change (5 * 0 + 5 + fuel)%nat with (5 + fuel)%nat.
    cbn [Z.of_nat] in Hc, Ha. rewrite Z.mul_0_r, Z.add_0_r in Hc, Ha.
    rewrite (sendData_run_send w now fuel agent Hc Ha).
    cbn [fst snd roster_reads delays rpc_calls seq List.map repeat Z.of_nat].
    rewrite Z.mul_0_r, Z.add_0_r.
    destruct (transport w now (dom_elements_call agent)); repeat split; reflexivity.
  - replace (5 * S n + 5 + fuel)%nat with (5 + (5 * n + 5 + fuel))%nat by lia.
    destruct (Hbefore 0%nat ltac:(lia)) as [Hc0 Ha0].
    cbn [Z.of_nat] in Hc0, Ha0. rewrite Z.mul_0_r, Z.add_0_r in Hc0, Ha0.
    rewrite (sendData_run_retry w now _ Hc0 Ha0). cbn [fst snd roster_reads delays rpc_calls].
    destruct (IH (now + 2000) fuel agent) as (Hr & Hd & Hp & Hres).
    + intros k Hk. rewrite retry_time. apply Hbefore. lia.
    + rewrite retry_time. exact Hc.
    + rewrite retry_time. exact Ha.
    + rewrite Hr, Hd, Hp, Hres. repeat split.
      rewrite <- (cons_seq (S n) 0). cbn [List.map Z.of_nat].
      rewrite Z.mul_0_r, Z.add_0_r. f_equal.
      rewrite <- seq_shift, List.map_map. apply List.map_ext. intros k. apply retry_time.
Qed.

Lemma sendData_retries_until_agent_witness :
  (forall k, (k < 5)%nat ->
     room_state (joining_world 9500) (0 + 2000 * Z.of_nat k) = "connected" /\
     Array_find isAgent (remote_participants (joining_world 9500) (0 + 2000 * Z.of_nat k)) = None) /\
  roster_reads (fst (run (5 * 5 + 5 + 0) (joining_world 9500) 0 sendData))
  = List.map (fun k => 0 + 2000 * Z.of_nat k) (seq 0 6) /\
  delays (fst (run (5 * 5 + 5 + 0) (joining_world 9500) 0 sendData)) = repeat 2000 5 /\
  rpc_calls (fst (run (5 * 5 + 5 + 0) (joining_world 9500) 0 sendData))
  = [dom_elements_call (mkParticipant "agent-1" true)] /\
  snd (run (5 * 5 + 5 + 0) (joining_world 9500) 0 sendData) = Some (Normal tt).
Proof.
  assert (forall k, (k < 5)%nat ->
     room_state (joining_world 9500) (0 + 2000 * Z.of_nat k) = "connected" /\
     Array_find isAgent (remote_participants (joining_world 9500) (0 + 2000 * Z.of_nat k)) = None)
    as Hbefore.
  { intros k Hk. do 5 (destruct k as [|k]; [split; reflexivity|]). lia. }
  split; [exact Hbefore|].
  apply (sendData_retries_until_agent (joining_world 9500) 5 0 0
           (mkParticipant "agent-1" true) Hbefore); reflexivity.
Defined.


(** X2. A session that drops ends the retries: if it is connected and
    without agent at the first [n] activations and not connected at the next,
    [sendData] completes normally after exactly [n] roster reads and [n]
    delays, without any call. *)
Theorem sendData_stops_when_disconnected (w : World) (n : nat) :
  forall (now : Z) (fuel : nat),
    (forall k, (k < n)%nat ->
       room_state w (now + 2000 * Z.of_nat k) = "connected" /\
       Array_find isAgent (remote_participants w (now + 2000 * Z.of_nat k)) = None) ->
    room_state w (now + 2000 * Z.of_nat n) <> "connected" ->
    resolution_attempts (fst (run (5 * n + 2 + fuel) w now sendData)) = n /\
    delays (fst (run (5 * n + 2 + fuel) w now sendData)) = repeat 2000 n /\
    rpc_calls (fst (run (5 * n + 2 + fuel) w now sendData)) = [] /\
    snd (run (5 * n + 2 + fuel) w now sendData) = Some (Normal tt).
Proof.
  induction n as [|n IH]; intros now fuel Hbefore Hd.
  - change (5 * 0 + 2 + fuel)%nat with (2 + fuel)%nat.
    cbn [Z.of_nat] in Hd. rewrite Z.mul_0_r, Z.add_0_r in Hd.
    rewrite (sendData_run_not_connected w now fuel Hd). repeat split; reflexivity.
  - replace (5 * S n + 2 + fuel)%nat with (5 + (5 * n + 2 + fuel))%nat by lia.
    destruct (Hbefore 0%nat ltac:(lia)) as [Hc0 Ha0].
    cbn [Z.of_nat] in Hc0, Ha0. rewrite Z.mul_0_r, Z.add_0_r in Hc0, Ha0.
    rewrite (sendData_run_retry w now _ Hc0 Ha0).
    cbn [fst snd resolution_attempts delays rpc_calls].
    destruct (IH (now + 2000) fuel) as (Hr & Hdel & Hp & Hres).
    + intros k Hk. rewrite retry_time. apply Hbefore. lia.
    + rewrite retry_time. exact Hd.
    + rewrite Hr, Hdel, Hp, Hres. repeat split.
Qed.

Lemma sendData_stops_when_disconnected_witness :
  (forall k, (k < 4)%nat ->
     room_state (dropping_world 7000) (0 + 2000 * Z.of_nat k) = "connected" /\
     Array_find isAgent (remote_participants (dropping_world 7000) (0 + 2000 * Z.of_nat k))
     = None) /\
  room_state (dropping_world 7000) (0 + 2000 * Z.of_nat 4) <> "connected" /\
  resolution_attempts (fst (run (5 * 4 + 2 + 0) (dropping_world 7000) 0 sendData)) = 4%nat /\
  delays (fst (run (5 * 4 + 2 + 0) (dropping_world 7000) 0 sendData)) = repeat 2000 4 /\
  rpc_calls (fst (run (5 * 4 + 2 + 0) (dropping_world 7000) 0 sendData)) = [] /\
  snd (run (5 * 4 + 2 + 0) (dropping_world 7000) 0 sendData) = Some (Normal tt).
Proof.
  assert (forall k, (k < 4)%nat ->
     room_state (dropping_world 7000) (0 + 2000 * Z.of_nat k) = "connected" /\
     Array_find isAgent (remote_participants (dropping_world 7000) (0 + 2000 * Z.of_nat k))
     = None) as Hbefore.
  { intros k Hk. do 4 (destruct k as [|k]; [split; reflexivity|]). lia. }
  split; [exact Hbefore|]. split; [discriminate|].
  apply (sendData_stops_when_disconnected (dropping_world 7000) 4 0 0 Hbefore). discriminate.
Defined.

(** X3. Whatever the world does and however long it runs, [sendData] hands
    at most one call to the transport, and that call is the [dom_elements]
    call to a peer that was the first agent of the roster at some time. *)
Theorem sendData_at_most_one_call (w : World) (fuel : nat) :
  forall now,
    (List.length (rpc_calls (fst (run fuel w now sendData))) <= 1)%nat /\
    Forall (fun p => exists t agent,
                Array_find isAgent (remote_participants w t) = Some agent /\
                p = dom_elements_call agent)
           (rpc_calls (fst (run fuel w now sendData))).
Proof.
  induction fuel as [fuel IH] using lt_wf_ind. intros now.
  rewrite (run_eq_itree fuel w now _ _ sendData_unfold).
  destruct fuel as [|f1]; [split; [cbn; lia | constructor]|]. run_step.
  destruct (negb (room_state w now =? "connected")%string).
  { destruct f1; cbn; split; try lia; constructor. }
  destruct f1 as [|f2]; [cbn; split; [lia | constructor]|]. run_step.
  destruct (Array_find isAgent (remote_participants w now)) as [agent|] eqn:Ha.
  - assert (exists t a, Array_find isAgent (remote_participants w t) = Some a /\
                        dom_elements_call agent = dom_elements_call a) as Hcall
      by (exists now, agent; split; [exact Ha | reflexivity]).
    destruct f2 as [|f3]; [cbn; split; [lia | constructor]|]. run_step.
    destruct (transport w now (dom_elements_call agent));
      (destruct f3 as [|f4]; [cbn; split; [lia | repeat constructor; exact Hcall]|]);
      run_step; destruct f4; cbn; (split; [lia | repeat constructor; exact Hcall]).
  - destruct f2 as [|f3]; [cbn; split; [lia | constructor]|]. run_step.
    destruct f3 as [|f4]; [cbn; split; [lia | constructor]|]. run_step.
    destruct f4 as [|f5]; [cbn; split; [lia | constructor]|]. run_step.
    cbn [rpc_calls]. apply IH. lia.
Qed.

End SendDataMore.

(** ** The codec and the two ways of sending a string *)

Section CodecMore.
Import RpcClient.

(** X4. Two values that JSON can write have the same text exactly when
    they differ at most in the sign of their zeros; two such values without
    [-0] that have the same text are the same. *)
Theorem stringify_injective (x y : JsValue) :
  JSON.serializable x = true -> JSON.serializable y = true ->
  (JSON.stringify x = JSON.stringify y <-> JSON.unsigned_zeros x = JSON.unsigned_zeros y) /\
  (JSON.no_negative_zero x = true -> JSON.no_negative_zero y = true ->
   JSON.stringify x = JSON.stringify y -> x = y).
Proof.
  intros Hx Hy.
  pose proof (JSONFacts.parse_stringify x Hx) as Px.
  pose proof (JSONFacts.parse_stringify y Hy) as Py.
  assert (JSON.stringify x = JSON.stringify y ->
          JSON.unsigned_zeros x = JSON.unsigned_zeros y) as Hinj.
  { intros H. rewrite H, Py in Px. congruence. }
  split; [split; [exact Hinj|]|].
  - intros H. rewrite <- (JSONFacts.stringify_unsigned_zeros x), H.
    apply JSONFacts.stringify_unsigned_zeros.
  - intros Zx Zy H. apply Hinj in H.
    rewrite (JSONFacts.unsigned_zeros_id x Zx), (JSONFacts.unsigned_zeros_id y Zy) in H.
    exact H.
Qed.

Lemma stringify_injective_witness :
  JSON.serializable (JArray [JNumber (S754_zero true); JString "a"]) = true /\
  JSON.serializable (JArray [JNumber (S754_zero false); JString "a"]) = true /\
  JSON.stringify (JArray [JNumber (S754_zero true); JString "a"])
  = JSON.stringify (JArray [JNumber (S754_zero false); JString "a"]) /\
  JArray [JNumber (S754_zero true); JString "a"]
  <> JArray [JNumber (S754_zero false); JString "a"].
Proof.
  split; [reflexivity|]. split; [reflexivity|]. split; [|discriminate].
  apply (proj1 (stringify_injective (JArray [JNumber (S754_zero true); JString "a"])
                  (JArray [JNumber (S754_zero false); JString "a"]) eq_refl eq_refl)).
  reflexivity.
Defined.

Lemma quote_char_length (c : ascii) : (1 <= String.length (JSON.quote_char c))%nat.
Proof.
  unfold JSON.quote_char. cbv zeta.
  repeat match goal with
         | |- context [if ?b then _ else _] => destruct b
         end; cbn; lia.
Qed.

(** Quoting never shortens a string. *)
Lemma quote_chars_length (s : string) :
  (String.length s <= String.length (JSON.quote_chars s))%nat.
Proof.
  remember (String.length s) as n eqn:Hn. revert s Hn.
  induction n as [n IH] using lt_wf_ind. intros s ->.
  rewrite JSONFacts.quote_chars_unfold.
  destruct s as [|c1 s1]; [cbn; lia|].
  assert (String.length (String c1 s1)
          <= String.length (JSON.quote_char c1 ++ JSON.quote_chars s1))%nat as Hplain.
  { rewrite JSONFacts.length_append. pose proof (quote_char_length c1).
    pose proof (IH (String.length s1) ltac:(cbn; lia) s1 eq_refl). cbn [String.length]. lia. }
  destruct s1 as [|c2 [|c3 s3]]; try exact Hplain. cbv iota.
  destruct (JSON.surrogate_unit c1 c2 c3) as [unit|]; [|exact Hplain].
  assert (String.length (String c1 (String c2 (String c3 s3)))
          <= String.length (JSON.unicode_escape unit ++ JSON.quote_chars s3))%nat as Hescape.
  { rewrite JSONFacts.length_append.
    pose proof (IH (String.length s3) ltac:(cbn; lia) s3 eq_refl).
    cbn [JSON.unicode_escape String.length append]. lia. }
  destruct s3 as [|c4 [|c5 [|c6 s6]]]; try exact Hescape. cbv iota.
  destruct (JSON.surrogate_unit c4 c5 c6) as [unit'|]; [|exact Hescape].
  destruct (JSON.is_high_surrogate unit && JSON.is_low_surrogate unit'); [|exact Hescape].
  pose proof (IH (String.length s6) ltac:(cbn; lia) s6 eq_refl).
  cbn [String.length]. lia.
Qed.

(** X5. With an agent in the roster, [callAgentAction] hands the action to
    the transport as it is, under the method [agent.action], while
    [sendDomElements] hands over a text that is never the caller's string:
    it is that string between quotes, at least two characters longer. *)
Theorem action_verbatim_payload_quoted
    (w : World) (now : Z) (fuel : nat) (agent : Participant) (s : string) :
  Array_find isAgent (remote_participants w now) = Some agent ->
  rpc_calls (fst (run (3 + fuel) w now (callAgentAction s)))
  = [mkRpc (identity agent) "agent.action" s] /\
  (exists text,
     rpc_calls (fst (run (3 + fuel) w now (sendDomElements s)))
     = [mkRpc (identity agent) "dom_elements" text] /\
     text <> s /\
     (String.length s + 2 <= String.length text)%nat /\
     String.get 0 text = Some JSON.dquote).
Proof.
  intros Ha. rewrite callAgentAction_run, sendDomElements_run, Ha.
  split; [reflexivity|].
  exists (JSON.stringify (JString s)). split; [reflexivity|].
  assert (String.length s + 2 <= String.length (JSON.stringify (JString s)))%nat as Hlen.
  { cbn [JSON.stringify]. unfold JSON.quote. cbn [String.length].
    rewrite JSONFacts.length_append. cbn [String.length].
    pose proof (quote_chars_length s). lia. }
  split; [|split; [exact Hlen | reflexivity]].
  intros Heq. rewrite Heq in Hlen. lia.
Qed.

Lemma action_verbatim_payload_quoted_witness :
  Array_find isAgent (remote_participants agent_world 0) = Some (mkParticipant "agent-1" true) /\
  rpc_calls (fst (run (3 + 0) agent_world 0 (callAgentAction "open_menu")))
  = [mkRpc "agent-1" "agent.action" "open_menu"].
Proof.
  split; [reflexivity|].
  apply (action_verbatim_payload_quoted agent_world 0 0 (mkParticipant "agent-1" true)
           "open_menu").
  reflexivity.
Defined.

End CodecMore.

(** ** The click handler, case by case *)

Section ClickMore.

(** The replies that report a failure differ from [{"ok":true}], and all
    replies are the texts of well-formed envelopes. *)
Lemma reply_error_not_ok (error : JsError) :
  JSON.stringify (ClientRpc.reply_error error) <> ok_text.
Proof.
  intros H. apply (f_equal (String.get 6)) in H. cbn in H. discriminate H.
Qed.

Lemma parse_reply_error (error : JsError) :
  JSON.parse (JSON.stringify (ClientRpc.reply_error error))
  = Normal (JObject [("ok", JBool false); ("error", JString (message error))]).
Proof.
  exact (JSONFacts.parse_stringify
           (JObject [("ok", JBool false); ("error", JString (message error))]) eq_refl).
Qed.

(** X6. Whatever the payload and the document, the handler of
    [client.click_button] queries the document at most once, clicks at most
    one element, sends nothing and waits for nothing; and it clicks an
    element exactly when its reply is [{"ok":true}]. *)
Theorem click_button_clicks_iff_ok
    (w : World) (now : Z) (fuel : nat) (data : ClientRpc.RpcInvocationData) :
  (List.length (queries (fst (run (3 + fuel) w now (ClientRpc.click_button data)))) <= 1)%nat /\
  (List.length (clicks (fst (run (3 + fuel) w now (ClientRpc.click_button data)))) <= 1)%nat /\
  rpc_calls (fst (run (3 + fuel) w now (ClientRpc.click_button data))) = [] /\
  delays (fst (run (3 + fuel) w now (ClientRpc.click_button data))) = [] /\
  (clicks (fst (run (3 + fuel) w now (ClientRpc.click_button data))) <> [] <->
   snd (run (3 + fuel) w now (ClientRpc.click_button data)) = Some (Normal ok_text)).
Proof.
  rewrite click_button_run.
  assert (forall error, snd (caught error) <> Some (Normal ok_text)) as Hcaught.
  { intros error H. apply (reply_error_not_ok error).
    unfold caught in H. cbn [snd] in H. congruence. }
  destruct (JSON.parse (ClientRpc.nullish (ClientRpc.payload data) "{}")) as [parsed|e0].
  2:{ cbn. repeat split; try lia; try congruence.
      intros H. exfalso. exact (Hcaught e0 H). }
  destruct (Get parsed "jsId") as [jsId|e0].
  2:{ cbn. repeat split; try lia; try congruence.
      intros H. exfalso. exact (Hcaught e0 H). }
  destruct (negb (ToBoolean jsId)).
  { cbn. repeat split; try lia; try congruence. intros H. discriminate H. }
  destruct (ClientRpc.selector_of jsId) as [selector|e0].
  2:{ cbn. repeat split; try lia; try congruence.
      intros H. exfalso. exact (Hcaught e0 H). }
  destruct (querySelector w now selector) as [[el|]|e0].
  - cbn. repeat split; try lia; try congruence.
  - cbn. repeat split; try lia; try congruence. intros H. discriminate H.
  - cbn. repeat split; try lia; try congruence.
    intros H. exfalso. exact (Hcaught e0 H).
Qed.

(** X7. Every reply of the handler is the JSON text of an envelope: it
    decodes to [{ok: true}] when an element was clicked and to
    [{ok: false, error: <a string>}] otherwise. *)
Theorem click_button_reply_is_envelope
    (w : World) (now : Z) (fuel : nat) (data : ClientRpc.RpcInvocationData) :
  exists reply,
    snd (run (3 + fuel) w now (ClientRpc.click_button data)) = Some (Normal reply) /\
    ((clicks (fst (run (3 + fuel) w now (ClientRpc.click_button data))) <> [] /\
      JSON.parse reply = Normal (JObject [("ok", JBool true)])) \/
     (clicks (fst (run (3 + fuel) w now (ClientRpc.click_button data))) = [] /\
      exists text, JSON.parse reply
                   = Normal (JObject [("ok", JBool false); ("error", JString text)]))).
Proof.
  rewrite click_button_run.
  destruct (JSON.parse (ClientRpc.nullish (ClientRpc.payload data) "{}")) as [parsed|e0].
  2:{ eexists. split; [reflexivity|]. right. split; [reflexivity|].
      eexists. apply parse_reply_error. }
  destruct (Get parsed "jsId") as [jsId|e0].
  2:{ eexists. split; [reflexivity|]. right. split; [reflexivity|].
      eexists. apply parse_reply_error. }
  destruct (negb (ToBoolean jsId)).
  { eexists. split; [reflexivity|]. right. split; [reflexivity|].
    eexists. vm_compute. reflexivity. }
  destruct (ClientRpc.selector_of jsId) as [selector|e0].
  2:{ eexists. split; [reflexivity|]. right. split; [reflexivity|].
      eexists. apply parse_reply_error. }
  destruct (querySelector w now selector) as [[el|]|e0].
  - eexists. split; [reflexivity|]. left. split; [discriminate|]. vm_compute. reflexivity.
  - eexists. split; [reflexivity|]. right. split; [reflexivity|].
    eexists. vm_compute. reflexivity.
  - eexists. split; [reflexivity|]. right. split; [reflexivity|].
    eexists. apply parse_reply_error.
Qed.

(** A falsy value is what [!jsId] accepts. *)
Lemma falsy_jsId_ToBoolean (j : JsValue) :
  falsy_jsId j = true <-> ToBoolean (Some j) = false.
Proof.
  destruct j as [| b | x | s | elems | props]; cbn; try (split; congruence).
  - destruct b; split; cbn; congruence.
  - destruct x; split; congruence.
  - destruct (s =? "")%string; split; cbn; congruence.
Qed.

(** X8. A [jsId] that is present but falsy ([null], [false], a zero of
    either sign, the empty string) is treated as missing: the handler
    warns, replies [{"ok":false,"error":"Missing jsId"}] and leaves the
    document alone.  The number literals that denote a zero, such as [0.0],
    [-0] and [1e-400], are among them. *)
Theorem click_button_falsy_jsId
    (w : World) (now : Z) (fuel : nat) (data : ClientRpc.RpcInvocationData)
    (v j : JsValue) :
  JSON.parse (ClientRpc.nullish (ClientRpc.payload data) "{}") = Normal v ->
  Get v "jsId" = Normal (Some j) ->
  falsy_jsId j = true ->
  run (3 + fuel) w now (ClientRpc.click_button data) =
  ([ObsConsole LevelWarn [LogStr "client.clickElement RPC missing jsId"]],
   Some (Normal missing_jsId_text)).
Proof.
  intros Hparse Hget Hfalsy.
  rewrite click_button_run, Hparse, Hget, (proj1 (falsy_jsId_ToBoolean j) Hfalsy). reflexivity.
Qed.

Lemma click_button_falsy_jsId_witness :
  JSON.parse ("{" ++ in_quotes "jsId" ++ ":1e-400," ++ in_quotes "x" ++ ":1.5}")
  = Normal (JObject [("jsId", JNumber (S754_zero false));
                     ("x", JNumber (S754_finite false 6755399441055744 (-52)))]) /\
  run (3 + 0) save_button_world 0
      (ClientRpc.click_button
         (ClientRpc.mkData "agent-1"
            (Some ("{" ++ in_quotes "jsId" ++ ":1e-400," ++ in_quotes "x" ++ ":1.5}"))))
  = ([ObsConsole LevelWarn [LogStr "client.clickElement RPC missing jsId"]],
     Some (Normal missing_jsId_text)).
Proof.
  split; [vm_compute; reflexivity|].
  apply (click_button_falsy_jsId save_button_world 0 0
           (ClientRpc.mkData "agent-1"
              (Some ("{" ++ in_quotes "jsId" ++ ":1e-400," ++ in_quotes "x" ++ ":1.5}")))
           (JObject [("jsId", JNumber (S754_zero false));
                     ("x", JNumber (S754_finite false 6755399441055744 (-52)))])
           (JNumber (S754_zero false))).
  - vm_compute. reflexivity.
  - reflexivity.
  - reflexivity.
Defined.

(** X9. An absent payload is handled as the payload [{}], with the reply
    "Missing jsId"; the empty text is a payload, not an absent one: it is
    not JSON, and the reply is the envelope of the error that [JSON.parse]
    throws. *)
Theorem click_button_absent_payload (w : World) (now : Z) (fuel : nat) (caller : string) :
  run (3 + fuel) w now (ClientRpc.click_button (ClientRpc.mkData caller None))
  = run (3 + fuel) w now (ClientRpc.click_button (ClientRpc.mkData caller (Some "{}"))) /\
  run (3 + fuel) w now (ClientRpc.click_button (ClientRpc.mkData caller None))
  = ([ObsConsole LevelWarn [LogStr "client.clickElement RPC missing jsId"]],
     Some (Normal missing_jsId_text)) /\
  exists error,
    JSON.parse "" = Throw error /\
    run (3 + fuel) w now (ClientRpc.click_button (ClientRpc.mkData caller (Some "")))
    = caught error.
Proof.
  rewrite !click_button_run. split; [reflexivity|]. split; [reflexivity|].
  exists JSON.SyntaxError. split; reflexivity.
Qed.




Lemma append_not_empty (a : string) (c : ascii) (t : string) :
  ((a ++ String c t) =? "")%string = false.
Proof. destruct a; reflexivity. Qed.

(** X17. The text of a string [jsId] goes into the selector as it is,
    without escaping: on a payload whose [jsId] holds a quote, a bracket
    and a comma, the handler queries the document with a list of two
    attribute selectors. *)
Theorem selector_not_escaped
    (w : World) (now : Z) (fuel : nat) (caller a b : string) :
  queries
    (fst (run (3 + fuel) w now
            (ClientRpc.click_button
               (ClientRpc.mkData caller
                  (Some (JSON.stringify
                           (JObject [("jsId",
                                      JString (a ++ String JSON.dquote "],[data-js-id="
                                                 ++ String JSON.dquote b))])))))))
  = ["[data-js-id=" ++ in_quotes a ++ "],[data-js-id=" ++ in_quotes b ++ "]"].
Proof.
  rewrite click_button_run. cbn [ClientRpc.nullish ClientRpc.payload].
  rewrite (JSONFacts.parse_stringify
             (JObject [("jsId", JString (a ++ String JSON.dquote "],[data-js-id="
                                           ++ String JSON.dquote b))]) eq_refl).
  cbn [JSON.unsigned_zeros List.map fst snd Get own_property].
  change ("jsId" =? "jsId")%string with true. cbv iota.
  cbn [ToBoolean append]. rewrite append_not_empty. cbn [negb].
  cbn [ClientRpc.selector_of ToString].
  destruct (querySelector w now _) as [[el|]|error]; unfold caught; cbn [fst queries];
    f_equal; unfold in_quotes; cbn [append];
    repeat (rewrite ?JSONFacts.append_assoc; cbn [append]); reflexivity.
Qed.

End ClickMore.

(** ** The greeting handler and the handlers bound to the room *)

Section GreetMore.
Import AgentClientUi.

(** A text that starts with the letter H is not JSON. *)
Lemma parse_H (rest : string) : JSON.parse (String "H" rest) = Throw JSON.SyntaxError.
Proof.
  unfold JSON.parse.
  set (fuel := (2 * String.length (String "H" rest) + 2)%nat).
  assert (exists fuel', fuel = S fuel') as [fuel' ->]
    by (exists (2 * String.length rest + 3)%nat; subst fuel; cbn [String.length]; lia).
  reflexivity.
Qed.

(** X11. The handler the component registers for [client.greet] logs the
    greeting once and replies [Hello, <caller>!], whatever the payload; it
    touches neither the document nor the transport, and its reply is a bare
    string: decoding it as JSON fails for every caller identity. *)
Theorem greet_replies_bare_string
    (w : World) (now : Z) (fuel : nat) (data : ClientRpc.RpcInvocationData) :
  snd (run (2 + fuel) w now (greet data))
  = Some (Normal ("Hello, " ++ ClientRpc.callerIdentity data ++ "!")) /\
  List.length (fst (run (2 + fuel) w now (greet data))) = 1%nat /\
  queries (fst (run (2 + fuel) w now (greet data))) = [] /\
  clicks (fst (run (2 + fuel) w now (greet data))) = [] /\
  rpc_calls (fst (run (2 + fuel) w now (greet data))) = [] /\
  JSON.parse ("Hello, " ++ ClientRpc.callerIdentity data ++ "!") = Throw JSON.SyntaxError.
Proof.
  unfold greet. rewrite bind_trigger. cbn [Nat.add]. run_step. run_step.
  repeat (split; [reflexivity|]). apply parse_H.
Qed.

End GreetMore.

Section RegistryMore.
Import RpcRegistry.

Variable on_duplicate : string -> Handler -> Registry -> Completion Registry.

(** Unregistering a name and registering it again binds it. *)
Lemma rearm_spec (method : string) (handler : Handler) (reg : Registry) :
  registerRpcMethod on_duplicate method handler (unregisterRpcMethod method reg)
  = Normal (Map_set method handler (unregisterRpcMethod method reg)).
Proof.
  unfold registerRpcMethod, unregisterRpcMethod, Map_delete.
  rewrite String.eqb_refl. reflexivity.
Qed.

(** X12. Unregistering a name and registering it again, as the effect
    does for [client.greet], never reaches what the library does with a bound
    name: it always succeeds, binds the name to the new handler whatever was
    bound before, and leaves every other name as it was. *)
Theorem rearm_binds_handler (method : string) (handler : Handler) (reg : Registry) :
  exists reg',
    registerRpcMethod on_duplicate method handler (unregisterRpcMethod method reg)
    = Normal reg' /\
    reg' method = Some handler /\
    (forall other, other <> method -> reg' other = reg other).
Proof.
  exists (Map_set method handler (unregisterRpcMethod method reg)).
  split; [apply rearm_spec|].
  unfold unregisterRpcMethod, Map_delete, Map_set.
  rewrite String.eqb_refl. split; [reflexivity|].
  intros other Hother. apply String.eqb_neq in Hother. rewrite Hother. reflexivity.
Qed.

(** X13. [unregisterClientRpcHandlers] frees [client.greet] and
    [client.click_button] and no other name; doing it twice is doing it
    once, on every name; and it frees the [client.greet] that the effect
    bound. *)
Theorem unregisterClientRpcHandlers_frees (reg : Registry) :
  unregisterClientRpcHandlers reg "client.greet" = None /\
  unregisterClientRpcHandlers reg "client.click_button" = None /\
  (forall other,
     other <> "client.greet" -> other <> "client.click_button" ->
     unregisterClientRpcHandlers reg other = reg other) /\
  (forall m,
     unregisterClientRpcHandlers (unregisterClientRpcHandlers reg) m
     = unregisterClientRpcHandlers reg m) /\
  (forall handler reg',
     registerRpcMethod on_duplicate "client.greet" handler
       (unregisterRpcMethod "client.greet" reg) = Normal reg' ->
     forall m, unregisterClientRpcHandlers reg' m = unregisterClientRpcHandlers reg m).
Proof.
  unfold unregisterClientRpcHandlers, unregisterRpcMethod, Map_delete.
  split; [reflexivity|]. split; [reflexivity|]. split; [|split].
  - intros other Hg Hc. apply String.eqb_neq in Hg, Hc. rewrite Hg, Hc. reflexivity.
  - intros m. destruct (m =? "client.click_button")%string; [reflexivity|].
    destruct (m =? "client.greet")%string; reflexivity.
  - intros handler reg' H m. unfold registerRpcMethod, Map_set in H. cbn in H.
    inversion H; subst.
    destruct (m =? "client.click_button")%string; [reflexivity|].
    destruct (m =? "client.greet")%string; reflexivity.
Qed.

(** X14. The effect never throws.  It calls [connect()] exactly when the
    popup is open, the connection details are there and the room is
    disconnected; it binds [client.greet] to the greeting handler whenever
    the popup is open and the details are there, connected or not; and with
    the popup open and no details it shows "Error fetching connection
    details" and changes no handler. *)
Theorem connect_effect_guards
    (details : option ConnectionDetails) (room_state : string)
    (s : AgentClientUi.UiState) (reg : Registry) :
  exists s' reg' connecting,
    connect_effect on_duplicate details room_state s reg = Normal (s', reg', connecting) /\
    (connecting = true <->
     AgentClientUi.popupOpen s = true /\ details <> None /\ room_state = "disconnected") /\
    (AgentClientUi.popupOpen s = true -> details <> None ->
     s' = s /\ reg' "client.greet" = Some AgentClientUi.greet /\
     forall other, other <> "client.greet" -> reg' other = reg other) /\
    (AgentClientUi.popupOpen s = true -> details = None ->
     AgentClientUi.error s'
     = Some (AgentClientUi.mkDetails "Error fetching connection details"
                                     "Please try again later") /\
     AgentClientUi.popupOpen s' = true /\
     forall m, reg' m = reg m) /\
    (AgentClientUi.popupOpen s = false -> s' = s /\ forall m, reg' m = reg m).
Proof.
  unfold connect_effect.
  destruct (AgentClientUi.popupOpen s) eqn:Hopen; cbn [negb].
  2:{ exists s, reg, false. split; [reflexivity|].
      split; [split; [discriminate | intros (H & _); discriminate H]|].
      repeat split; try discriminate; reflexivity. }
  destruct details as [d|].
  2:{ eexists _, reg, false. split; [reflexivity|].
      split; [split; [discriminate | intros (_ & H & _); congruence]|].
      repeat split; try congruence; try discriminate. }
  rewrite rearm_spec.
  set (reg' := Map_set "client.greet" AgentClientUi.greet
                 (unregisterRpcMethod "client.greet" reg)).
  assert (reg' "client.greet" = Some AgentClientUi.greet) as Hbound by reflexivity.
  assert (forall other, other <> "client.greet" -> reg' other = reg other) as Hothers.
  { intros other Hother. apply String.eqb_neq in Hother.
    unfold reg', Map_set, unregisterRpcMethod, Map_delete. rewrite Hother. reflexivity. }
  clearbody reg'.
  destruct (String.eqb_spec room_state "disconnected") as [->|Hne]; cbn [negb].
  - exists s, reg', true. split; [reflexivity|].
    split; [split; [intros _; repeat split; congruence | reflexivity]|].
    repeat split; try congruence; try discriminate; assumption.
  - exists s, reg', false. split; [reflexivity|].
    split; [split; [discriminate | intros (_ & _ & H); congruence]|].
    repeat split; try congruence; try discriminate; assumption.
Qed.

End RegistryMore.

(** ** The popup *)

Section PopupMore.
Import AgentClientUi.

(** X15. While an animation runs the toggle is ignored: after
    [handlePanelAnimationStart] any number of toggles leaves the state as it
    is.  With no animation running a toggle flips [popupOpen] and clears the
    error, and two toggles bring [popupOpen] back. *)
Theorem toggle_guarded_by_animation
    (s : UiState) (n : nat) (open : bool) (shown : option EmbedErrorDetails) :
  Nat.iter n handleTogglePopup (handlePanelAnimationStart s) = handlePanelAnimationStart s /\
  handleTogglePopup (mkUi false open shown) = mkUi false (negb open) None /\
  handleTogglePopup (handleTogglePopup (mkUi false open shown)) = mkUi false open None.
Proof.
  split.
  - induction n as [|n IH]; [reflexivity|]. rewrite Nat.iter_succ, IH. reflexivity.
  - cbn. rewrite negb_involutive. split; reflexivity.
Qed.

(** X16. When an animation completes the toggle works again, and
    [room.disconnect()] is called exactly when the popup is closed and the
    room is not already disconnected: never under an open popup. *)
Theorem animation_complete_disconnects_closed_popup (room_state : string) (s : UiState) :
  isAnimating (fst (handlePanelAnimationComplete room_state s)) = false /\
  popupOpen (fst (handlePanelAnimationComplete room_state s)) = popupOpen s /\
  error (fst (handlePanelAnimationComplete room_state s)) = error s /\
  popupOpen (handleTogglePopup (fst (handlePanelAnimationComplete room_state s)))
  = negb (popupOpen s) /\
  (snd (handlePanelAnimationComplete room_state s) = true <->
   popupOpen s = false /\ room_state <> "disconnected").
Proof.
  unfold handlePanelAnimationComplete. cbv zeta.
  destruct (popupOpen s) eqn:Hopen; cbn [negb andb].
  - cbn. repeat split; try reflexivity; try assumption; try discriminate.
    intros (H & _). discriminate H.
  - destruct (String.eqb_spec room_state "disconnected") as [->|Hne]; cbn.
    + repeat split; try reflexivity; try assumption; try discriminate.
      intros (_ & H). congruence.
    + repeat split; try reflexivity; try assumption.
Qed.

End PopupMore.
